(** * The logging facility of scribe (src/log.h, src/log.cpp)

    A shallow embedding of the three sinks (StdErrLogger, FileLogger,
    RollingFileLogger), of the level gate in [Logger::log], of the flush
    batching in [FileLogger::writeLog], of the file-name composition and of
    the [LogSys] singleton, followed by the properties of the specification
    that were checked against them.

    Conventions.
    - [unsigned long] is a [Z] in [0, 2^64) and [++] wraps around.
    - The [int] fields of [struct tm] are [Z]; signed overflow is undefined
      behaviour in C++ and is not modelled.
    - Everything the code asks of the operating system (the clock, the file
      system, the mutex, the configuration parser) is answered by an [Env]
      record that is an argument of every operation; bytes that reach a file
      or the standard error stream are recorded in a [World].
    - C++ exceptions are the [Throw] outcome of a small state-and-error
      monad; [try_catch] is [try { ... } catch (std::exception&)]. *)

From stdpp Require Import base numbers strings list gmap.
From Stdlib Require Import ZArith Ascii String Lia.

Local Open Scope string_scope.
Local Open Scope Z_scope.

(* ===================================================================== *)
(** ** Strings and decimal output *)
(* ===================================================================== *)

Module Str.

(** [s.empty()] *)
Definition empty (s : string) : bool :=
  match s with EmptyString => true | String _ _ => false end.

(** [s[i]] for an index inside the string. *)
Definition at_ (s : string) (i : nat) : option ascii := String.get i s.

(** [n] copies of the character [c]. *)
Fixpoint fill (n : nat) (c : ascii) : string :=
  match n with
  | O => EmptyString
  | S n' => String c (fill n' c)
  end.

(** The last character of a string, by recursion on the string; used to
    state what "ends in '/'" means independently of the index arithmetic
    of the code. *)
Fixpoint last (s : string) : option ascii :=
  match s with
  | EmptyString => None
  | String c EmptyString => Some c
  | String _ t => last t
  end.

(** What [fprintf(stderr, "%s", s.c_str())] prints: the bytes before the
    first NUL. *)
Fixpoint c_str (s : string) : string :=
  match s with
  | EmptyString => EmptyString
  | String c t => if Ascii.eqb c zero then EmptyString else String c (c_str t)
  end.

Definition digit (d : Z) : ascii := ascii_of_nat (48 + Z.to_nat d).

(** Decimal digits of a non-negative number, least significant first into
    the accumulator. *)
Fixpoint digits (fuel : nat) (n : Z) (acc : string) : string :=
  let acc' := String (digit (n mod 10)) acc in
  match fuel with
  | O => acc'
  | S fuel' => if n <? 10 then acc' else digits fuel' (n / 10) acc'
  end.

(** [operator<<(int)] without padding: the decimal numeral; [log2 n]
    bounds the number of divisions by ten. *)
Definition dec (n : Z) : string :=
  if n <? 0 then String "-" (digits (Z.to_nat (Z.log2 (- n))) (- n) "")
  else digits (Z.to_nat (Z.log2 n)) n "".

End Str.

(* ===================================================================== *)
(** ** [std::ostringstream] with [setw] and [setfill] *)
(* ===================================================================== *)

(** The stream keeps the text produced so far, the field width, which every
    formatted output resets to 0, and the fill character, which stays. *)
Record ostringstream := mk_oss {
  oss_str : string;
  oss_width : nat;
  oss_fill : ascii
}.

Module OStream.

Definition new : ostringstream :=
  {| oss_str := ""; oss_width := 0; oss_fill := " " |}.

(** Formatted output of a field: right adjusted (the default), padded on
    the left with the fill character up to the width, width back to 0. *)
Definition put (o : ostringstream) (s : string) : ostringstream :=
  {| oss_str := oss_str o +:+
                Str.fill (oss_width o - String.length s) (oss_fill o) +:+ s;
     oss_width := 0;
     oss_fill := oss_fill o |}.

Definition put_char (o : ostringstream) (c : ascii) : ostringstream :=
  put o (String c "").

Definition put_int (o : ostringstream) (n : Z) : ostringstream :=
  put o (Str.dec n).

Definition setw (o : ostringstream) (w : nat) : ostringstream :=
  {| oss_str := oss_str o; oss_width := w; oss_fill := oss_fill o |}.

Definition setfill (o : ostringstream) (c : ascii) : ostringstream :=
  {| oss_str := oss_str o; oss_width := oss_width o; oss_fill := c |}.

End OStream.

Declare Scope oss_scope.
Delimit Scope oss_scope with oss.
Notation "o '<<s' s" := (OStream.put o s) (at level 41, left associativity) : oss_scope.
Notation "o '<<c' c" := (OStream.put_char o c) (at level 41, left associativity) : oss_scope.
Notation "o '<<i' n" := (OStream.put_int o n) (at level 41, left associativity) : oss_scope.
Notation "o '<<setw' w" := (OStream.setw o w) (at level 41, left associativity) : oss_scope.
Notation "o '<<setfill' c" := (OStream.setfill o c) (at level 41, left associativity) : oss_scope.

(* ===================================================================== *)
(** ** Dates *)
(* ===================================================================== *)

(** The fields of [struct tm] that the code reads. *)
Record tm := mk_tm {
  tm_year : Z;   (* years since 1900 *)
  tm_mon : Z;    (* months since January, 0..11 *)
  tm_mday : Z    (* day of the month, 1..31 *)
}.

(** The calendar date a [struct tm] stands for. *)
Definition year_of (d : tm) : Z := tm_year d + 1900.
Definition month_of (d : tm) : Z := tm_mon d + 1.
Definition day_of (d : tm) : Z := tm_mday d.

Definition same_calendar_day (a b : tm) : bool :=
  (year_of a =? year_of b) && (month_of a =? month_of b) && (day_of a =? day_of b).

(** The fields of [struct tm] are [int]s of 32 bits. *)
Definition INT_MAX : Z := 2 ^ 31 - 1.

(** The dates that [getCurrentDate] (log.cpp 449-452) hands on:
    [localtime_r] of [time(NULL)].  The clock is not before the epoch, so
    the local date is not before the last day of 1969; the month and the
    day are those of a calendar; and the year is one that [tm_year + 1900]
    holds without overflow. *)
Definition local_date (d : tm) : Prop :=
  69 <= tm_year d <= INT_MAX - 1900 /\ 0 <= tm_mon d <= 11 /\ 1 <= tm_mday d <= 31.

(** The specification's [zpadN]: the decimal numeral, with zeros in front
    until it has at least [w] characters. *)
Definition zpad (w : nat) (n : Z) : string :=
  Str.fill (w - String.length (Str.dec n)) "0" +:+ Str.dec n.

(** The specification's formula for the per-day file name. *)
Definition spec_rolling_name (base : string) (year month day : Z) : string :=
  base +:+ "-" +:+ zpad 4 year +:+ "-" +:+ zpad 2 month +:+ "-" +:+ zpad 2 day.

(** The specification's suffix rule of the full path. *)
Definition spec_suffix (suffix : string) : string :=
  match suffix with
  | EmptyString => ""
  | String c _ => if Ascii.eqb c "." then suffix else "." +:+ suffix
  end.

(* ===================================================================== *)
(** ** Enumerations and constants (log.h 26-39, log.cpp 4-24) *)
(* ===================================================================== *)

Inductive ENUM_LOG_TYPE := TO_STDERR | TO_FILE | TO_ROLLING_FILE | TO_MAX.

Inductive ENUM_LOG_LEVEL :=
  | LOG_LEVEL_DEBUG
  | LOG_LEVEL_INFO
  | LOG_LEVEL_WARNING
  | LOG_LEVEL_ERROR
  | LOG_LEVEL_MAX.

(** The integer an enumerator converts to in a comparison. *)
Definition level_value (l : ENUM_LOG_LEVEL) : Z :=
  match l with
  | LOG_LEVEL_DEBUG => 0
  | LOG_LEVEL_INFO => 1
  | LOG_LEVEL_WARNING => 2
  | LOG_LEVEL_ERROR => 3
  | LOG_LEVEL_MAX => 4
  end.

(** [static_cast<ENUM_LOG_LEVEL>(num)], used for [num < LOG_LEVEL_MAX]. *)
Definition level_of_value (num : Z) : ENUM_LOG_LEVEL :=
  if num =? 0 then LOG_LEVEL_DEBUG
  else if num =? 1 then LOG_LEVEL_INFO
  else if num =? 2 then LOG_LEVEL_WARNING
  else if num =? 3 then LOG_LEVEL_ERROR
  else LOG_LEVEL_MAX.

(** The enumeration is stored in 32 bits ([unsigned int]). *)
Definition ENUM_MODULUS : Z := 2 ^ 32.

(** [ENUM_LOG_TYPE(desti)] (log.cpp 83): the conversion of the
    [unsigned long] keeps its low 32 bits, so [2^32 + 1] is [TO_FILE].  A
    value that is no enumerator after that is kept apart from the three
    sinks and ends in the [default:] branch of the switch. *)
Definition log_type_of_value (desti : Z) : option ENUM_LOG_TYPE :=
  let type := desti mod ENUM_MODULUS in
  if type =? 0 then Some TO_STDERR
  else if type =? 1 then Some TO_FILE
  else if type =? 2 then Some TO_ROLLING_FILE
  else if type =? 3 then Some TO_MAX
  else None.

Definition log_type_value (t : ENUM_LOG_TYPE) : Z :=
  match t with TO_STDERR => 0 | TO_FILE => 1 | TO_ROLLING_FILE => 2 | TO_MAX => 3 end.

(** [s_LogLevelNames[level]]; the array has no entry for [LOG_LEVEL_MAX],
    which [m_Level] never holds after [config] or [setLevel]. *)
Definition s_LogLevelNames (l : ENUM_LOG_LEVEL) : string :=
  match l with
  | LOG_LEVEL_DEBUG => "DEBUG"
  | LOG_LEVEL_INFO => "INFO"
  | LOG_LEVEL_WARNING => "WARNING"
  | LOG_LEVEL_ERROR => "ERROR"
  | LOG_LEVEL_MAX => ""
  end.

Definition LOG_DEFAULT_FILE_PATH : string := "/tmp/log".
Definition LOG_DEFAULT_FILE_BASENAME : string := "log".
Definition LOG_DEFAULT_FILE_SUFFIX : string := "".
Definition LOG_DEFAULT_LOGLEVEL : ENUM_LOG_LEVEL := LOG_LEVEL_INFO.
Definition LOG_DEFAULT_FLUSH_NUM : Z := 1.

Definition TEXT_LOG_DESTINATION : string := "log_dest".
Definition TEXT_LOG_LEVEL : string := "log_level".
Definition TEXT_LOG_FILE_PATH : string := "file_path".
Definition TEXT_LOG_FILE_BASE_NAME : string := "file_base_name".
Definition TEXT_LOG_FILE_SUFFIX : string := "file_suffix".
Definition TEXT_LOG_FLUSH_NUM : string := "num_logs_to_flush".

(** [unsigned long] arithmetic. *)
Definition ULONG_MODULUS : Z := 2 ^ 64.
Definition ulong_incr (n : Z) : Z := (n + 1) mod ULONG_MODULUS.

(* ===================================================================== *)
(** ** The configuration view *)
(* ===================================================================== *)

(** Modelled from the spec: [LogConfig] (log_config.h is not among the
    sources).  Section 4.3: [get_unsigned(key, &out)] populates [out] when
    the key exists and parses as an unsigned integer, [get_string(key, &out)]
    populates [out] when the key exists; both leave [out] alone otherwise.
    A lookup is the value to store, if any. *)
Record LogConfig := mk_LogConfig {
  getUnsigned : string -> option Z;
  getString : string -> option string
}.

(** A default-constructed [LogConfig]: no key is present. *)
Definition LogConfig_empty : LogConfig :=
  {| getUnsigned := fun _ => None; getString := fun _ => None |}.

(** [conf.getUnsigned(key, out)] and [conf.getString(key, out)] as the new
    value of [out]. *)
Definition read_unsigned (conf : LogConfig) (key : string) (out : Z) : Z :=
  match getUnsigned conf key with Some v => v | None => out end.

Definition read_string (conf : LogConfig) (key : string) (out : string) : string :=
  match getString conf key with Some v => v | None => out end.

(* ===================================================================== *)
(** ** The environment and the observable world *)
(* ===================================================================== *)

(** Outcome of a [boost::filesystem] query. *)
Inductive fs_answer := FsTrue | FsFalse | FsThrows (what : string).

(** How the surroundings answer during one call. *)
Record Env := mk_Env {
  (** [localtime_r(time(NULL))] *)
  now : tm;
  (** [boost::filesystem::exists(path)] *)
  fs_exists : string -> fs_answer;
  (** [boost::filesystem::create_directories(path)] *)
  fs_create_directories : string -> fs_answer;
  (** whether [fstream::open(name, out | app)] succeeds *)
  file_open_ok : string -> bool;
  (** whether inserting bytes into the stream of this file succeeds *)
  file_write_ok : string -> bool;
  (** whether the buffered bytes of this file can be written out *)
  file_sync_ok : string -> bool;
  (** [Some what] when acquiring the mutex throws [interprocess_exception] *)
  lock_error : option string;
  (** [LogConfig::parseConfig(file)]: the view read, or [None] on failure *)
  parseConfig : string -> option LogConfig
}.

(** One output on the standard error stream: a diagnostic of the
    [LOG_TO_STDERR] macro (its [ctime] prefix left out) or the raw bytes of
    a message written by the Stderr sink. *)
Inductive stderr_item := Diag (text : string) | Raw (bytes : string).

Record World := mk_World {
  (** contents of the files, as far as they were written out *)
  disk : gmap string string;
  (** what was printed on standard error, oldest first *)
  stderr : list stderr_item;
  (** configuration files that were parsed, oldest first *)
  parsed : list string;
  (** directories that were created, oldest first *)
  created : list string
}.

Module World.

Definition empty : World :=
  {| disk := ∅; stderr := []; parsed := []; created := [] |}.

Definition content (w : World) (name : string) : string :=
  default "" (disk w !! name).

(** Bytes appended to a file; opening in append mode creates the file, so
    appending nothing makes it exist. *)
Definition append (name bytes : string) (w : World) : World :=
  {| disk := <[name := content w name +:+ bytes]> (disk w);
     stderr := stderr w; parsed := parsed w; created := created w |}.

Definition print (item : stderr_item) (w : World) : World :=
  {| disk := disk w; stderr := stderr w ++ [item];
     parsed := parsed w; created := created w |}.

Definition note_parsed (file : string) (w : World) : World :=
  {| disk := disk w; stderr := stderr w;
     parsed := parsed w ++ [file]; created := created w |}.

Definition note_created (dir : string) (w : World) : World :=
  {| disk := disk w; stderr := stderr w;
     parsed := parsed w; created := created w ++ [dir] |}.

End World.

(* ===================================================================== *)
(** ** Exceptions and the monad of the operations *)
(* ===================================================================== *)

(** Every exception the code can meet ([runtime_error],
    [boost::filesystem::filesystem_error], [interprocess_exception]) derives
    from [std::exception]; [what] is its message. *)
Inductive exn := std_exception (what : string).

Definition what (e : exn) : string := match e with std_exception s => s end.

Inductive Res (A : Type) :=
  | Ok (a : A) (w : World)
  | Throw (e : exn) (w : World).
Arguments Ok {A} a w.
Arguments Throw {A} e w.

Definition M (A : Type) : Type := World -> Res A.

Definition ret {A} (a : A) : M A := fun w => Ok a w.

Definition bind {A B} (m : M A) (k : A -> M B) : M B :=
  fun w => match m w with
           | Ok a w' => k a w'
           | Throw e w' => Throw e w'
           end.

Definition throw {A} (e : exn) : M A := fun w => Throw e w.

(** [try { body } catch (std::exception& ex) { handler }] *)
Definition try_catch {A} (body : M A) (handler : exn -> M A) : M A :=
  fun w => match body w with
           | Ok a w' => Ok a w'
           | Throw e w' => handler e w'
           end.

Definition effect (f : World -> World) : M unit := fun w => Ok tt (f w).

Declare Scope cpp_scope.
Delimit Scope cpp_scope with cpp.
Notation "'do' x <- m ; k" := (bind m (fun x => k))
  (at level 10, x name, m at level 100, k at level 200) : cpp_scope.
Notation "'do' ' pat <- m ; k" := (bind m (fun x => match x with pat => k end))
  (at level 10, pat pattern, m at level 100, k at level 200) : cpp_scope.
Notation "'run' m ; k" := (bind m (fun _ => k))
  (at level 10, m at level 100, k at level 200) : cpp_scope.
Local Open Scope cpp_scope.

(** The [LOG_TO_STDERR] macro (log.h 16-24). *)
Definition LOG_TO_STDERR (text : string) : M unit :=
  effect (World.print (Diag text)).

(** [scoped_lock<interprocess_recursive_mutex> lock(m_Mutex)] *)
Definition scoped_lock (E : Env) : M unit :=
  match lock_error E with
  | Some msg => throw (std_exception msg)
  | None => ret tt
  end.

(* ===================================================================== *)
(** ** [std::fstream] *)
(* ===================================================================== *)

(** The file the stream is open on, if any; its two error flags; the bytes
    inserted but not yet written out. *)
Record fstream := mk_fstream {
  fs_file : option string;
  fs_failbit : bool;
  fs_badbit : bool;
  fs_buffer : string
}.

Module FStream.

Definition new : fstream :=
  {| fs_file := None; fs_failbit := false; fs_badbit := false; fs_buffer := "" |}.

Definition is_open (f : fstream) : bool :=
  match fs_file f with Some _ => true | None => false end.

Definition good (f : fstream) : bool := negb (fs_failbit f) && negb (fs_badbit f).

Definition bad (f : fstream) : bool := fs_badbit f.

Definition set_failbit (f : fstream) : fstream :=
  {| fs_file := fs_file f; fs_failbit := true;
     fs_badbit := fs_badbit f; fs_buffer := fs_buffer f |}.

Definition set_badbit (f : fstream) : fstream :=
  {| fs_file := fs_file f; fs_failbit := fs_failbit f;
     fs_badbit := true; fs_buffer := fs_buffer f |}.

(** [open(name, out | app)]: fails on a stream that is already open or
    when the file cannot be opened; success clears the flags and, the mode
    being append, creates the file when it is missing. *)
Definition open (E : Env) (name : string) (f : fstream) : M fstream :=
  match fs_file f with
  | Some _ => ret (set_failbit f)
  | None =>
      if file_open_ok E name then
        run effect (World.append name "");
        ret {| fs_file := Some name; fs_failbit := false;
               fs_badbit := false; fs_buffer := "" |}
      else ret (set_failbit f)
  end.

(** [f << msg]: nothing is inserted into a stream that is not good; an
    error while inserting sets [badbit].  The bytes stay in the buffer of
    the stream until they are written out. *)
Definition write (E : Env) (msg : string) (f : fstream) : fstream :=
  if good f then
    match fs_file f with
    | Some name =>
        if file_write_ok E name then
          {| fs_file := fs_file f; fs_failbit := fs_failbit f;
             fs_badbit := fs_badbit f; fs_buffer := fs_buffer f +:+ msg |}
        else set_badbit f
    | None => set_badbit f
    end
  else set_failbit f.

(** [flush()]: writes the buffered bytes out; an error sets [badbit].  The
    bytes are written out whatever the flags of the stream are. *)
Definition flush (E : Env) (f : fstream) : M fstream :=
  match fs_file f with
  | Some name =>
      if file_sync_ok E name then
        run effect (World.append name (fs_buffer f));
        ret {| fs_file := fs_file f; fs_failbit := fs_failbit f;
               fs_badbit := fs_badbit f; fs_buffer := "" |}
      else ret (set_badbit f)
  | None => ret f
  end.

(** [close()]: writes the buffered bytes out and releases the file; the
    stream is closed afterwards whether or not that worked. *)
Definition close (E : Env) (f : fstream) : M fstream :=
  match fs_file f with
  | Some name =>
      if file_sync_ok E name then
        run effect (World.append name (fs_buffer f));
        ret {| fs_file := None; fs_failbit := fs_failbit f;
               fs_badbit := fs_badbit f; fs_buffer := "" |}
      else
        ret {| fs_file := None; fs_failbit := true;
               fs_badbit := fs_badbit f; fs_buffer := "" |}
  | None => ret (set_failbit f)
  end.

End FStream.

(* ===================================================================== *)
(** ** class Logger (log.cpp 143-195) *)
(* ===================================================================== *)

Module Logger.

Record t := mk {
  m_Level : ENUM_LOG_LEVEL;
  m_MaxFlushNum : Z;
  m_NotFlushedNum : Z
}.

(** [Logger::Logger()] *)
Definition new_default : t :=
  {| m_Level := LOG_DEFAULT_LOGLEVEL;
     m_MaxFlushNum := LOG_DEFAULT_FLUSH_NUM;
     m_NotFlushedNum := 0 |}.

(** [Logger::Logger(level, flush_num)] *)
Definition new (level : ENUM_LOG_LEVEL) (flush_num : Z) : t :=
  {| m_Level := level; m_MaxFlushNum := flush_num; m_NotFlushedNum := 0 |}.

Definition set_Level (this : t) (level : ENUM_LOG_LEVEL) : t :=
  {| m_Level := level; m_MaxFlushNum := m_MaxFlushNum this;
     m_NotFlushedNum := m_NotFlushedNum this |}.

Definition set_MaxFlushNum (this : t) (n : Z) : t :=
  {| m_Level := m_Level this; m_MaxFlushNum := n;
     m_NotFlushedNum := m_NotFlushedNum this |}.

Definition set_NotFlushedNum (this : t) (n : Z) : t :=
  {| m_Level := m_Level this; m_MaxFlushNum := m_MaxFlushNum this;
     m_NotFlushedNum := n |}.

(** [Logger::config] *)
Definition config (conf : LogConfig) (this : t) : M (bool * t) :=
  let num := 0 in
  let this :=
    match getUnsigned conf TEXT_LOG_LEVEL with
    | Some num =>
        if num <? level_value LOG_LEVEL_MAX
        then set_Level this (level_of_value num)
        else this
    | None => this
    end in
  run LOG_TO_STDERR ("Log level: " +:+ s_LogLevelNames (m_Level this));
  let this := set_MaxFlushNum this (read_unsigned conf TEXT_LOG_FLUSH_NUM (m_MaxFlushNum this)) in
  ret (true, this).

(** [Logger::log]: the level gate in front of the virtual [logImpl] of
    the sink [T], whose [Logger] part is [base this]. *)
Definition log {T : Type} (base : T -> t) (logImpl : string -> T -> M (bool * T))
    (msg : string) (level : ENUM_LOG_LEVEL) (this : T) : M (bool * T) :=
  if level_value level >=? level_value (m_Level (base this))
  then logImpl msg this
  else ret (false, this).

Definition getLevel (this : t) : ENUM_LOG_LEVEL := m_Level this.

(** [Logger::setLevel] *)
Definition setLevel (level : ENUM_LOG_LEVEL) (this : t) : M t :=
  if level_value level >=? level_value LOG_LEVEL_MAX then
    run LOG_TO_STDERR "Invalid log level!";
    ret this
  else if negb (level_value (m_Level this) =? level_value level) then
    let this := set_Level this level in
    run LOG_TO_STDERR ("Log level has been reset to: " +:+ s_LogLevelNames (m_Level this));
    ret this
  else ret this.

End Logger.

(* ===================================================================== *)
(** ** class FileLogger (log.cpp 198-339) *)
(* ===================================================================== *)

Module FileLogger.

Record t := mk {
  base : Logger.t;
  m_FilePath : string;
  m_FileBaseName : string;
  m_FileSuffix : string;
  m_File : fstream;
  m_IsThreadSafe : bool
}.

(** [FileLogger::FileLogger()] *)
Definition new_default : t :=
  {| base := Logger.new_default;
     m_FilePath := LOG_DEFAULT_FILE_PATH;
     m_FileBaseName := LOG_DEFAULT_FILE_BASENAME;
     m_FileSuffix := LOG_DEFAULT_FILE_SUFFIX;
     m_File := FStream.new;
     m_IsThreadSafe := true |}.

(** [FileLogger::FileLogger(path, base_name, suffix, level, flush_num,
    thread_safe)] *)
Definition new (path base_name suffix : string) (level : ENUM_LOG_LEVEL)
    (flush_num : Z) (thread_safe : bool) : t :=
  {| base := Logger.new level flush_num;
     m_FilePath := path;
     m_FileBaseName := base_name;
     m_FileSuffix := suffix;
     m_File := FStream.new;
     m_IsThreadSafe := thread_safe |}.

Definition set_base (this : t) (b : Logger.t) : t :=
  {| base := b; m_FilePath := m_FilePath this;
     m_FileBaseName := m_FileBaseName this; m_FileSuffix := m_FileSuffix this;
     m_File := m_File this; m_IsThreadSafe := m_IsThreadSafe this |}.

Definition set_File (this : t) (f : fstream) : t :=
  {| base := base this; m_FilePath := m_FilePath this;
     m_FileBaseName := m_FileBaseName this; m_FileSuffix := m_FileSuffix this;
     m_File := f; m_IsThreadSafe := m_IsThreadSafe this |}.

(** [FileLogger::config] *)
Definition config (conf : LogConfig) (this : t) : M (bool * t) :=
  do '(_, b) <- Logger.config conf (base this);
  ret (true,
       {| base := b;
          m_FilePath := read_string conf TEXT_LOG_FILE_PATH (m_FilePath this);
          m_FileBaseName := read_string conf TEXT_LOG_FILE_BASE_NAME (m_FileBaseName this);
          m_FileSuffix := read_string conf TEXT_LOG_FILE_SUFFIX (m_FileSuffix this);
          m_File := m_File this;
          m_IsThreadSafe := m_IsThreadSafe this |}).

(** [FileLogger::getFullFileName] (log.cpp 303-324) *)
Definition getFullFileName (this : t) : string :=
  let full_name := "" in
  let full_name :=
    if negb (Str.empty (m_FilePath this)) then
      let full_name := full_name +:+ m_FilePath this in
      if negb (bool_decide (Str.at_ (m_FilePath this)
                              (String.length (m_FilePath this) - 1) = Some "/"%char))
      then full_name +:+ "/"
      else full_name
    else full_name in
  let full_name := full_name +:+ m_FileBaseName this in
  if negb (Str.empty (m_FileSuffix this)) then
    if bool_decide (Str.at_ (m_FileSuffix this) 0 = Some "."%char)
    then full_name +:+ m_FileSuffix this
    else full_name +:+ "." +:+ m_FileSuffix this
  else full_name.

(** [FileLogger::close] *)
Definition close (E : Env) (this : t) : M (bool * t) :=
  if FStream.is_open (m_File this) then
    do f <- FStream.flush E (m_File this);
    do f <- FStream.close E f;
    ret (true, set_File this f)
  else ret (true, this).

(** The first part of [FileLogger::open]: the directory is there or gets
    created; [false] is the early [return false]. *)
Definition ensure_directory (E : Env) (this : t) : M bool :=
  try_catch
    (match fs_exists E (m_FilePath this) with
     | FsThrows msg => throw (std_exception msg)
     | FsTrue => ret true
     | FsFalse =>
         match fs_create_directories E (m_FilePath this) with
         | FsThrows msg => throw (std_exception msg)
         | FsTrue =>
             run effect (World.note_created (m_FilePath this));
             run LOG_TO_STDERR ("Created log directory <" +:+ m_FilePath this +:+ ">");
             ret true
         | FsFalse =>
             run LOG_TO_STDERR ("Failed to created log directory <" +:+ m_FilePath this +:+ ">");
             ret false
         end
     end)
    (fun e => run LOG_TO_STDERR ("Exception: " +:+ what e); ret false).

(** [FileLogger::open] *)
Definition open (E : Env) (this : t) : M (bool * t) :=
  do dir_ok <- ensure_directory E this;
  if negb dir_ok then ret (false, this)
  else
    do '(_, this) <- close E this;
    do f <- FStream.open E (getFullFileName this) (m_File this);
    let this := set_File this f in
    if negb (FStream.good (m_File this)) then
      run LOG_TO_STDERR ("Failed to open log file <" +:+ getFullFileName this +:+ ">");
      ret (false, this)
    else
      run LOG_TO_STDERR ("Opened log file <" +:+ getFullFileName this +:+ ">");
      ret (true, this).

(** [FileLogger::writeLog] (log.cpp 326-339) *)
Definition writeLog (E : Env) (msg : string) (this : t) : M (bool * t) :=
  if negb (FStream.is_open (m_File this)) then ret (false, this)
  else
    let this := set_File this (FStream.write E msg (m_File this)) in
    let this :=
      set_base this (Logger.set_NotFlushedNum (base this)
                       (ulong_incr (Logger.m_NotFlushedNum (base this)))) in
    if Logger.m_NotFlushedNum (base this) >=? Logger.m_MaxFlushNum (base this) then
      do f <- FStream.flush E (m_File this);
      let this := set_File this f in
      let this := set_base this (Logger.set_NotFlushedNum (base this) 0) in
      ret (negb (FStream.bad (m_File this)), this)
    else ret (negb (FStream.bad (m_File this)), this).

(** [FileLogger::logImpl] (log.cpp 282-301).  The lock is taken before
    anything is changed, and nothing after it throws, so the handler sees
    the object as it was on entry. *)
Definition logImpl (E : Env) (msg : string) (this : t) : M (bool * t) :=
  try_catch
    (if m_IsThreadSafe this then
       run scoped_lock E;
       writeLog E msg this
     else writeLog E msg this)
    (fun ex => run LOG_TO_STDERR ("Exception: " +:+ what ex); ret (false, this)).

(** [FileLogger::~FileLogger] *)
Definition destroy (E : Env) (this : t) : M unit :=
  do '(_, _) <- close E this;
  ret tt.

Definition log (E : Env) := Logger.log base (logImpl E).

End FileLogger.

(* ===================================================================== *)
(** ** class StdErrLogger (log.cpp 342-369) *)
(* ===================================================================== *)

Module StdErrLogger.

Record t := mk { base : Logger.t }.

Definition new_default : t := {| base := Logger.new_default |}.

Definition config (conf : LogConfig) (this : t) : M (bool * t) :=
  do '(r, b) <- Logger.config conf (base this);
  ret (r, {| base := b |}).

Definition open (E : Env) (this : t) : M (bool * t) := ret (true, this).

Definition close (E : Env) (this : t) : M (bool * t) := ret (true, this).

(** [fprintf(stderr, "%s", msg.c_str())] *)
Definition logImpl (E : Env) (msg : string) (this : t) : M (bool * t) :=
  run effect (World.print (Raw (Str.c_str msg)));
  ret (true, this).

Definition destroy (E : Env) (this : t) : M unit :=
  do '(_, _) <- close E this;
  ret tt.

Definition log (E : Env) := Logger.log base (logImpl E).

End StdErrLogger.

(* ===================================================================== *)
(** ** class RollingFileLogger (log.cpp 372-461) *)
(* ===================================================================== *)

Module RollingFileLogger.

Record t := mk {
  base : Logger.t;
  m_FilePath : string;
  m_FileBaseName : string;
  m_FileSuffix : string;
  m_pFileLogger : option FileLogger.t;
  m_LastCreatedTime : tm
}.

(** [RollingFileLogger::RollingFileLogger()].  The constructor leaves
    [m_LastCreatedTime] uninitialised; [open] assigns it before the first
    [logImpl] of a sink owned by [LogSys]. *)
Definition new_default : t :=
  {| base := Logger.new_default;
     m_FilePath := LOG_DEFAULT_FILE_PATH;
     m_FileBaseName := LOG_DEFAULT_FILE_BASENAME;
     m_FileSuffix := LOG_DEFAULT_FILE_SUFFIX;
     m_pFileLogger := None;
     m_LastCreatedTime := mk_tm 0 0 0 |}.

Definition set_pFileLogger (this : t) (p : option FileLogger.t) : t :=
  {| base := base this; m_FilePath := m_FilePath this;
     m_FileBaseName := m_FileBaseName this; m_FileSuffix := m_FileSuffix this;
     m_pFileLogger := p; m_LastCreatedTime := m_LastCreatedTime this |}.

Definition set_LastCreatedTime (this : t) (d : tm) : t :=
  {| base := base this; m_FilePath := m_FilePath this;
     m_FileBaseName := m_FileBaseName this; m_FileSuffix := m_FileSuffix this;
     m_pFileLogger := m_pFileLogger this; m_LastCreatedTime := d |}.

(** [RollingFileLogger::config] *)
Definition config (conf : LogConfig) (this : t) : M (bool * t) :=
  do '(_, b) <- Logger.config conf (base this);
  ret (true,
       {| base := b;
          m_FilePath := read_string conf TEXT_LOG_FILE_PATH (m_FilePath this);
          m_FileBaseName := read_string conf TEXT_LOG_FILE_BASE_NAME (m_FileBaseName this);
          m_FileSuffix := read_string conf TEXT_LOG_FILE_SUFFIX (m_FileSuffix this);
          m_pFileLogger := m_pFileLogger this;
          m_LastCreatedTime := m_LastCreatedTime this |}).

(** [RollingFileLogger::getCurrentDate]; the clock does not move during
    one call of the sink. *)
Definition getCurrentDate (E : Env) : tm := now E.

(** [RollingFileLogger::getFileNameByDate] (log.cpp 454-461) *)
Definition getFileNameByDate (this : t) (date : tm) : string :=
  let filename :=
    (OStream.new <<s m_FileBaseName this <<c "-" <<i (tm_year date + 1900) <<c "-"
       <<setw 2%nat <<setfill "0" <<i (tm_mon date + 1) <<c "-"
       <<setw 2%nat <<setfill "0" <<i (tm_mday date))%oss in
  oss_str filename.

(** [RollingFileLogger::open] (log.cpp 397-409).  Assigning the new
    [FileLogger] to the shared pointer destroys the previous one. *)
Definition open (E : Env) (this : t) : M (bool * t) :=
  let this := set_LastCreatedTime this (getCurrentDate E) in
  let file_name := getFileNameByDate this (m_LastCreatedTime this) in
  let fresh :=
    FileLogger.new (m_FilePath this) file_name (m_FileSuffix this)
      (Logger.getLevel (base this)) (Logger.m_MaxFlushNum (base this)) false in
  run (match m_pFileLogger this with
       | Some old => FileLogger.destroy E old
       | None => ret tt
       end);
  let this := set_pFileLogger this (Some fresh) in
  do '(r, inner) <- FileLogger.open E fresh;
  ret (r, set_pFileLogger this (Some inner)).

(** [RollingFileLogger::close] *)
Definition close (E : Env) (this : t) : M (bool * t) :=
  match m_pFileLogger this with
  | Some inner =>
      do '(_, inner) <- FileLogger.close E inner;
      ret (true, set_pFileLogger this (Some inner))
  | None => ret (true, this)
  end.

(** [RollingFileLogger::rotateFile] *)
Definition rotateFile (E : Env) (this : t) : M t :=
  do '(_, this) <- close E this;
  do '(_, this) <- open E this;
  ret this.

(** [RollingFileLogger::logImpl] (log.cpp 418-442).  As in
    [FileLogger::logImpl], only taking the lock can throw. *)
Definition logImpl (E : Env) (msg : string) (this : t) : M (bool * t) :=
  try_catch
    (run scoped_lock E;
     let date_now := getCurrentDate E in
     do this <-
       (if negb (tm_mday (m_LastCreatedTime this) =? tm_mday date_now)
        then rotateFile E this
        else ret this);
     match m_pFileLogger this with
     | Some inner =>
         do '(r, inner) <- FileLogger.logImpl E msg inner;
         ret (r, set_pFileLogger this (Some inner))
     | None => ret (false, this)
     end)
    (fun ex => run LOG_TO_STDERR ("Exception: " +:+ what ex); ret (false, this)).

(** [RollingFileLogger::~RollingFileLogger], then the members. *)
Definition destroy (E : Env) (this : t) : M unit :=
  do '(_, this) <- close E this;
  match m_pFileLogger this with
  | Some inner => FileLogger.destroy E inner
  | None => ret tt
  end.

Definition log (E : Env) := Logger.log base (logImpl E).

End RollingFileLogger.

(* ===================================================================== *)
(** ** The sink behind [boost::shared_ptr<Logger>] *)
(* ===================================================================== *)

(** The dynamic type of a [Logger] object and its state. *)
Inductive Sink :=
  | StdErrSink (s : StdErrLogger.t)
  | FileSink (f : FileLogger.t)
  | RollingSink (r : RollingFileLogger.t).

Module Sink.

Definition base (s : Sink) : Logger.t :=
  match s with
  | StdErrSink s => StdErrLogger.base s
  | FileSink f => FileLogger.base f
  | RollingSink r => RollingFileLogger.base r
  end.

Definition level (s : Sink) : ENUM_LOG_LEVEL := Logger.getLevel (base s).

(** [Logger::createLoggerInterface] (log.cpp 119-141) *)
Definition createLoggerInterface (type : option ENUM_LOG_TYPE) : M Sink :=
  match type with
  | Some TO_STDERR => ret (StdErrSink StdErrLogger.new_default)
  | Some TO_FILE => ret (FileSink FileLogger.new_default)
  | Some TO_ROLLING_FILE => ret (RollingSink RollingFileLogger.new_default)
  | _ => throw (std_exception "Wrong log type!")
  end.

Definition lift {T} (inj : T -> Sink) (m : M (bool * T)) : M (bool * Sink) :=
  do '(r, x) <- m;
  ret (r, inj x).

(** The virtual [config], [open], [close] and [logImpl]. *)
Definition config (conf : LogConfig) (s : Sink) : M (bool * Sink) :=
  match s with
  | StdErrSink x => lift StdErrSink (StdErrLogger.config conf x)
  | FileSink x => lift FileSink (FileLogger.config conf x)
  | RollingSink x => lift RollingSink (RollingFileLogger.config conf x)
  end.

Definition open (E : Env) (s : Sink) : M (bool * Sink) :=
  match s with
  | StdErrSink x => lift StdErrSink (StdErrLogger.open E x)
  | FileSink x => lift FileSink (FileLogger.open E x)
  | RollingSink x => lift RollingSink (RollingFileLogger.open E x)
  end.

Definition close (E : Env) (s : Sink) : M (bool * Sink) :=
  match s with
  | StdErrSink x => lift StdErrSink (StdErrLogger.close E x)
  | FileSink x => lift FileSink (FileLogger.close E x)
  | RollingSink x => lift RollingSink (RollingFileLogger.close E x)
  end.

Definition logImpl (E : Env) (msg : string) (s : Sink) : M (bool * Sink) :=
  match s with
  | StdErrSink x => lift StdErrSink (StdErrLogger.logImpl E msg x)
  | FileSink x => lift FileSink (FileLogger.logImpl E msg x)
  | RollingSink x => lift RollingSink (RollingFileLogger.logImpl E msg x)
  end.

(** [Logger::log] on the object behind the pointer: the specification's
    [emit(message, level)]. *)
Definition log (E : Env) : string -> ENUM_LOG_LEVEL -> Sink -> M (bool * Sink) :=
  Logger.log base (logImpl E).

Definition setLevel (level : ENUM_LOG_LEVEL) (s : Sink) : M Sink :=
  do b <- Logger.setLevel level (base s);
  ret match s with
      | StdErrSink x => StdErrSink {| StdErrLogger.base := b |}
      | FileSink x => FileSink (FileLogger.set_base x b)
      | RollingSink x =>
          RollingSink
            {| RollingFileLogger.base := b;
               RollingFileLogger.m_FilePath := RollingFileLogger.m_FilePath x;
               RollingFileLogger.m_FileBaseName := RollingFileLogger.m_FileBaseName x;
               RollingFileLogger.m_FileSuffix := RollingFileLogger.m_FileSuffix x;
               RollingFileLogger.m_pFileLogger := RollingFileLogger.m_pFileLogger x;
               RollingFileLogger.m_LastCreatedTime := RollingFileLogger.m_LastCreatedTime x |}
      end.

(** The destructor that runs when the last shared pointer goes away. *)
Definition destroy (E : Env) (s : Sink) : M unit :=
  match s with
  | StdErrSink x => StdErrLogger.destroy E x
  | FileSink x => FileLogger.destroy E x
  | RollingSink x => RollingFileLogger.destroy E x
  end.

(** The flush counter and its threshold as the specification sees them:
    those of the stream that is written, which for the Rolling sink is the
    inner File sink. *)
Definition pending (s : Sink) : Z :=
  match s with
  | StdErrSink x => Logger.m_NotFlushedNum (StdErrLogger.base x)
  | FileSink x => Logger.m_NotFlushedNum (FileLogger.base x)
  | RollingSink x =>
      match RollingFileLogger.m_pFileLogger x with
      | Some inner => Logger.m_NotFlushedNum (FileLogger.base inner)
      | None => 0
      end
  end.

Definition max_unflushed (s : Sink) : Z := Logger.m_MaxFlushNum (base s).

End Sink.

(* ===================================================================== *)
(** ** class LogSys and the two entry points (log.cpp 26-112) *)
(* ===================================================================== *)

Module LogSys.

Record t := mk {
  m_LogConfig : LogConfig;
  m_pLogger : option Sink
}.

(** The first part of [LogSys::LogSys]: [m_LogConfig] stays empty for an
    empty file name and is parsed from the file otherwise. *)
Definition read_config (E : Env) (config_file : string) : M LogConfig :=
  if Str.empty config_file then
    run LOG_TO_STDERR "No log cofig file specified, log to stderr!";
    ret LogConfig_empty
  else
    run LOG_TO_STDERR ("Opening file <" +:+ config_file +:+ "> to get log config...");
    run effect (World.note_parsed config_file);
    match parseConfig E config_file with
    | Some conf => ret conf
    | None => throw (std_exception "Errors happened when read the log config file!")
    end.

(** [LogSys::LogSys(config_file)] (log.cpp 66-97); it throws
    [runtime_error].  When it throws after the sink was made, the member
    [m_pLogger] is destroyed with the half-built object. *)
Definition new (E : Env) (config_file : string) : M t :=
  do m_LogConfig <- read_config E config_file;
  let desti := log_type_value TO_STDERR in
  let desti := read_unsigned m_LogConfig TEXT_LOG_DESTINATION desti in
  do logger <- Sink.createLoggerInterface (log_type_of_value desti);
  do '(_, logger) <- Sink.config m_LogConfig logger;
  do '(opened, logger) <- Sink.open E logger;
  if negb opened then
    run Sink.destroy E logger;
    throw (std_exception "Failed to open log")
  else
    run LOG_TO_STDERR "Log system initialized OK!";
    ret {| m_LogConfig := m_LogConfig; m_pLogger := Some logger |}.

(** [LogSys::log] *)
Definition log (E : Env) (msg : string) (level : ENUM_LOG_LEVEL) (this : t) : M t :=
  match m_pLogger this with
  | Some logger =>
      do '(_, logger) <- Sink.log E msg level logger;
      ret {| m_LogConfig := m_LogConfig this; m_pLogger := Some logger |}
  | None => ret this
  end.

(** [LogSys::setLevel] *)
Definition setLevel (level : ENUM_LOG_LEVEL) (this : t) : M t :=
  match m_pLogger this with
  | Some logger =>
      do logger <- Sink.setLevel level logger;
      ret {| m_LogConfig := m_LogConfig this; m_pLogger := Some logger |}
  | None => ret this
  end.

(** [LogSys::initialize] (log.cpp 42-60) on the static [s_pLogSys]; [new]
    never yields a null pointer, so the inner test cannot fail. *)
Definition initialize (E : Env) (config_file : string) (s_pLogSys : option t)
    : M (bool * option t) :=
  try_catch
    (match s_pLogSys with
     | None =>
         do sys <- new E config_file;
         ret (true, Some sys)
     | Some _ => ret (true, s_pLogSys)
     end)
    (fun ex => run LOG_TO_STDERR ("Exception: " +:+ what ex); ret (false, s_pLogSys)).

(** [LogSys::getInstance] *)
Definition getInstance (s_pLogSys : option t) : option t := s_pLogSys.

End LogSys.

(** [LOG_SYS_INIT] (log.cpp 26-28): the specification's [init]. *)
Definition LOG_SYS_INIT (E : Env) (config_file : string) (s_pLogSys : option LogSys.t)
    : M (bool * option LogSys.t) :=
  LogSys.initialize E config_file s_pLogSys.

(** [LOG_OUT] (log.cpp 30-33): the specification's free function [emit]. *)
Definition LOG_OUT (E : Env) (log : string) (level : ENUM_LOG_LEVEL)
    (s_pLogSys : option LogSys.t) : M (option LogSys.t) :=
  match LogSys.getInstance s_pLogSys with
  | Some sys =>
      do sys <- LogSys.log E log level sys;
      ret (Some sys)
  | None => ret s_pLogSys
  end.

(* ===================================================================== *)
(** ** Sequences of emits *)
(* ===================================================================== *)

(** One call of [Logger::log] together with the answers of the surroundings
    while it runs. *)
Record Call := mk_Call {
  call_env : Env;
  call_msg : string;
  call_level : ENUM_LOG_LEVEL
}.

(** The calls one after the other on the same sink; the results oldest
    first. *)
Fixpoint emits (calls : list Call) (s : Sink) : M (list bool * Sink) :=
  match calls with
  | [] => ret ([], s)
  | c :: rest =>
      do '(r, s) <- Sink.log (call_env c) (call_msg c) (call_level c) s;
      do '(rs, s) <- emits rest s;
      ret (r :: rs, s)
  end.

(** A call is suppressed by the level gate of the sink. *)
Definition below_level (level : ENUM_LOG_LEVEL) (s : Sink) : Prop :=
  level_value level < level_value (Sink.level s).

(* ===================================================================== *)
(** ** Vocabulary of the properties *)
(* ===================================================================== *)

(** Two states of a File sink that differ at most in the stream and in the
    counter of writes not yet flushed. *)
Definition same_settings (a b : FileLogger.t) : Prop :=
  FileLogger.m_FilePath a = FileLogger.m_FilePath b
  /\ FileLogger.m_FileBaseName a = FileLogger.m_FileBaseName b
  /\ FileLogger.m_FileSuffix a = FileLogger.m_FileSuffix b
  /\ FileLogger.m_IsThreadSafe a = FileLogger.m_IsThreadSafe b
  /\ Logger.m_Level (FileLogger.base a) = Logger.m_Level (FileLogger.base b)
  /\ Logger.m_MaxFlushNum (FileLogger.base a) = Logger.m_MaxFlushNum (FileLogger.base b).

(** Two states of a Rolling sink with the same [Logger] part and the same
    directory, base name and suffix. *)
Definition same_rolling_settings (a b : RollingFileLogger.t) : Prop :=
  RollingFileLogger.base a = RollingFileLogger.base b
  /\ RollingFileLogger.m_FilePath a = RollingFileLogger.m_FilePath b
  /\ RollingFileLogger.m_FileBaseName a = RollingFileLogger.m_FileBaseName b
  /\ RollingFileLogger.m_FileSuffix a = RollingFileLogger.m_FileSuffix b.

(** The File sink that [RollingFileLogger::open] makes for the day [d]. *)
Definition inner_for (r : RollingFileLogger.t) (d : tm) (inner : FileLogger.t) : Prop :=
  FileLogger.base inner
  = Logger.new (Logger.m_Level (RollingFileLogger.base r))
      (Logger.m_MaxFlushNum (RollingFileLogger.base r))
  /\ FileLogger.m_FilePath inner = RollingFileLogger.m_FilePath r
  /\ FileLogger.m_FileBaseName inner = RollingFileLogger.getFileNameByDate r d
  /\ FileLogger.m_FileSuffix inner = RollingFileLogger.m_FileSuffix r
  /\ FileLogger.m_IsThreadSafe inner = false.

(** The counter is below its threshold. *)
Definition counter_ok (b : Logger.t) : Prop :=
  0 <= Logger.m_NotFlushedNum b <= Logger.m_MaxFlushNum b - 1.

(** The invariant of the flush policy: the counter that is advanced is
    below the threshold; the inner File sink of a Rolling sink has the
    threshold of the Rolling sink, which is at least 1. *)
Definition flush_inv (s : Sink) : Prop :=
  match s with
  | StdErrSink x => counter_ok (StdErrLogger.base x)
  | FileSink x => counter_ok (FileLogger.base x)
  | RollingSink x =>
      1 <= Logger.m_MaxFlushNum (RollingFileLogger.base x)
      /\ match RollingFileLogger.m_pFileLogger x with
         | Some inner =>
             Logger.m_MaxFlushNum (FileLogger.base inner)
             = Logger.m_MaxFlushNum (RollingFileLogger.base x)
             /\ counter_ok (FileLogger.base inner)
         | None => True
         end
  end.

(** The state [Closed] of the Rolling sink: no file is open. *)
Definition rolling_closed (r : RollingFileLogger.t) : Prop :=
  match RollingFileLogger.m_pFileLogger r with
  | Some inner => FStream.is_open (FileLogger.m_File inner) = false
  | None => True
  end.

(** The state [Open] of the Rolling sink on the file of the day [d]. *)
Definition rolling_open_on (r : RollingFileLogger.t) (d : tm) : Prop :=
  RollingFileLogger.m_LastCreatedTime r = d
  /\ exists inner,
       RollingFileLogger.m_pFileLogger r = Some inner
       /\ FileLogger.m_FilePath inner = RollingFileLogger.m_FilePath r
       /\ FileLogger.m_FileBaseName inner = RollingFileLogger.getFileNameByDate r d
       /\ FileLogger.m_FileSuffix inner = RollingFileLogger.m_FileSuffix r
       /\ fs_file (FileLogger.m_File inner) = Some (FileLogger.getFullFileName inner).

(** The end of [RollingFileLogger::logImpl]: the message goes to the inner
    File sink when there is one. *)
Definition forward_to_inner (E : Env) (msg : string) (r : RollingFileLogger.t)
    : M (bool * RollingFileLogger.t) :=
  match RollingFileLogger.m_pFileLogger r with
  | Some inner =>
      do '(b, inner') <- FileLogger.logImpl E msg inner;
      ret (b, RollingFileLogger.set_pFileLogger r (Some inner'))
  | None => ret (false, r)
  end.

(** A sink as its constructor and [config] leave it: nothing counted, no
    file open, no inner File sink. *)
Definition fresh (s : Sink) : Prop :=
  Logger.m_NotFlushedNum (Sink.base s) = 0
  /\ match s with
     | StdErrSink _ => True
     | FileSink x => FileLogger.m_File x = FStream.new
     | RollingSink x => RollingFileLogger.m_pFileLogger x = None
     end.

(** The test of [logImpl] that starts a rotation. *)
Definition rotation_due (E : Env) (r : RollingFileLogger.t) : bool :=
  negb (tm_mday (RollingFileLogger.m_LastCreatedTime r) =? tm_mday (now E)).

(** What [open()] returns inside [rotateFile], which drops it. *)
Definition rotation_opens (E : Env) (r : RollingFileLogger.t) (w : World) : bool :=
  match (do '(_, r1) <- RollingFileLogger.close E r;
         RollingFileLogger.open E r1) w with
  | Ok (opened, _) _ => opened
  | Throw _ _ => false
  end.

(** The directory of the log files is there or can be created. *)
Definition directory_ready (E : Env) (path : string) : bool :=
  match fs_exists E path with
  | FsTrue => true
  | FsFalse =>
      match fs_create_directories E path with
      | FsTrue => true
      | _ => false
      end
  | FsThrows _ => false
  end.

(** The full name of the file of today. *)
Definition todays_file (E : Env) (r : RollingFileLogger.t) : string :=
  FileLogger.getFullFileName
    (FileLogger.new (RollingFileLogger.m_FilePath r)
       (RollingFileLogger.getFileNameByDate r (now E))
       (RollingFileLogger.m_FileSuffix r)
       (Logger.m_Level (RollingFileLogger.base r))
       (Logger.m_MaxFlushNum (RollingFileLogger.base r)) false).

(** The call passes the level gate, gets the lock, rotates, and the [open]
    of the rotation succeeds. *)
Definition reopens (c : Call) (r : RollingFileLogger.t) (w : World) : bool :=
  (level_value (call_level c) >=? level_value (Logger.m_Level (RollingFileLogger.base r)))
  && bool_decide (lock_error (call_env c) = None)
  && rotation_due (call_env c) r
  && rotation_opens (call_env c) r w.

(** No call of the run re-opens the sink (each one is looked at in the
    state the calls before it left). *)
Fixpoint never_reopens (calls : list Call) (r : RollingFileLogger.t) (w : World) : Prop :=
  match calls with
  | [] => True
  | c :: rest =>
      reopens c r w = false
      /\ match RollingFileLogger.log (call_env c) (call_msg c) (call_level c) r w with
         | Ok (_, r') w' => never_reopens rest r' w'
         | Throw _ _ => True
         end
  end.

(** The calls one after the other on a Rolling sink. *)
Fixpoint rolling_emits (calls : list Call) (r : RollingFileLogger.t)
    : M (list bool * RollingFileLogger.t) :=
  match calls with
  | [] => ret ([], r)
  | c :: rest =>
      do '(b, r) <- RollingFileLogger.log (call_env c) (call_msg c) (call_level c) r;
      do '(bs, r) <- rolling_emits rest r;
      ret (b :: bs, r)
  end.

(** The reasons for which [init] fails: the configuration file cannot be
    parsed; [log_dest], converted to the enumeration, names none of the
    three sinks; the sink cannot be opened.  ([config] of a sink always
    returns true, and its result is not looked at.) *)
Inductive init_failure (E : Env) (config_file : string) (w : World) : Prop :=
  | parse_failure :
      Str.empty config_file = false ->
      parseConfig E config_file = None ->
      init_failure E config_file w
  | unknown_destination (conf : LogConfig) (wa : World) :
      LogSys.read_config E config_file w = Ok conf wa ->
      log_type_of_value
        (read_unsigned conf TEXT_LOG_DESTINATION (log_type_value TO_STDERR))
        <> Some TO_STDERR ->
      log_type_of_value
        (read_unsigned conf TEXT_LOG_DESTINATION (log_type_value TO_STDERR))
        <> Some TO_FILE ->
      log_type_of_value
        (read_unsigned conf TEXT_LOG_DESTINATION (log_type_value TO_STDERR))
        <> Some TO_ROLLING_FILE ->
      init_failure E config_file w
  | sink_not_opened (conf : LogConfig) (wa wb wc : World) (s0 s1 s2 : Sink) (r : bool) :
      LogSys.read_config E config_file w = Ok conf wa ->
      Sink.createLoggerInterface
        (log_type_of_value
           (read_unsigned conf TEXT_LOG_DESTINATION (log_type_value TO_STDERR))) wa
        = Ok s0 wa ->
      Sink.config conf s0 wa = Ok (r, s1) wb ->
      Sink.open E s1 wb = Ok (false, s2) wc ->
      init_failure E config_file w.

(* ===================================================================== *)
(** ** Vocabulary of the further properties *)
(* ===================================================================== *)

(** A level that indexes [s_LogLevelNames]. *)
Definition valid_level (l : ENUM_LOG_LEVEL) : Prop :=
  level_value l < level_value LOG_LEVEL_MAX.

(** The numbers of a configuration are values of [unsigned long]. *)
Definition unsigned_values (conf : LogConfig) : Prop :=
  forall key n, getUnsigned conf key = Some n -> 0 <= n.

(** The dynamic type of the sink, as the destination that selects it. *)
Definition sink_kind (s : Sink) : ENUM_LOG_TYPE :=
  match s with
  | StdErrSink _ => TO_STDERR
  | FileSink _ => TO_FILE
  | RollingSink _ => TO_ROLLING_FILE
  end.

(** The call passes a level gate set at [l]. *)
Definition passes (l : ENUM_LOG_LEVEL) (c : Call) : bool :=
  level_value (call_level c) >=? level_value l.

(** The messages of the calls that pass the gate, one after the other. *)
Fixpoint emitted (l : ENUM_LOG_LEVEL) (calls : list Call) : string :=
  match calls with
  | [] => ""
  | c :: rest => if passes l c then call_msg c +:+ emitted l rest else emitted l rest
  end.

(** All the bytes a stream has taken for its file: those written out and
    those still in its buffer. *)
Definition stream_bytes (w : World) (f : fstream) : string :=
  match fs_file f with
  | Some name => World.content w name +:+ fs_buffer f
  | None => ""
  end.

(** During the call the lock is free and the file [name] takes bytes. *)
Definition healthy (name : string) (c : Call) : Prop :=
  lock_error (call_env c) = None
  /\ file_write_ok (call_env c) name = true
  /\ file_sync_ok (call_env c) name = true.

(** The inner File sink of a Rolling sink carries the directory, the suffix
    and the per-day name of [m_LastCreatedTime], and a stream that is open
    is open on the path composed of them. *)
Definition rolling_names_ok (r : RollingFileLogger.t) : Prop :=
  match RollingFileLogger.m_pFileLogger r with
  | Some inner =>
      FileLogger.m_FilePath inner = RollingFileLogger.m_FilePath r
      /\ FileLogger.m_FileBaseName inner
         = RollingFileLogger.getFileNameByDate r (RollingFileLogger.m_LastCreatedTime r)
      /\ FileLogger.m_FileSuffix inner = RollingFileLogger.m_FileSuffix r
      /\ (forall name, fs_file (FileLogger.m_File inner) = Some name ->
          name = FileLogger.getFullFileName inner)
  | None => True
  end.

(** [LogSys::~LogSys] (log.cpp 99-102): the sink is closed, then the
    shared pointer lets go of it and its destructor runs. *)
Definition LogSys_destructor (E : Env) (this : LogSys.t) : M unit :=
  match LogSys.m_pLogger this with
  | Some logger =>
      do '(_, logger) <- Sink.close E logger;
      Sink.destroy E logger
  | None => ret tt
  end.

(** Calls of [LOG_OUT] one after the other on the global slot. *)
Fixpoint log_outs (calls : list Call) (s_pLogSys : option LogSys.t)
    : M (option LogSys.t) :=
  match calls with
  | [] => ret s_pLogSys
  | c :: rest =>
      do s_pLogSys <- LOG_OUT (call_env c) (call_msg c) (call_level c) s_pLogSys;
      log_outs rest s_pLogSys
  end.

(** The character is one of '0' .. '9'. *)
Definition is_digit (c : ascii) : bool :=
  (48 <=? nat_of_ascii c)%nat && (nat_of_ascii c <=? 57)%nat.

Fixpoint digits_only (s : string) : bool :=
  match s with
  | EmptyString => true
  | String c t => is_digit c && digits_only t
  end.

(** The number a string of digits denotes, after the digits read so far
    gave [v]. *)
Fixpoint numeral_value (v : Z) (s : string) : Z :=
  match s with
  | EmptyString => v
  | String c t => numeral_value (10 * v + (Z.of_nat (nat_of_ascii c) - 48)) t
  end.

(** The fields of a date are not negative. *)
Definition plain_date (d : tm) : Prop :=
  0 <= tm_year d + 1900 /\ 0 <= tm_mon d + 1 /\ 0 <= tm_mday d.

(* ===================================================================== *)
(** ** Sample surroundings *)
(* ===================================================================== *)

(** Surroundings in which everything works, on the day [today], with the
    configuration [conf] behind every configuration file. *)
Definition all_well (today : tm) (conf : option LogConfig) : Env :=
  {| now := today;
     fs_exists := fun _ => FsTrue;
     fs_create_directories := fun _ => FsTrue;
     file_open_ok := fun _ => true;
     file_write_ok := fun _ => true;
     file_sync_ok := fun _ => true;
     lock_error := None;
     parseConfig := fun _ => conf |}.

(** The same, but no file can be opened. *)
Definition no_file_opens (today : tm) : Env :=
  {| now := today;
     fs_exists := fun _ => FsTrue;
     fs_create_directories := fun _ => FsTrue;
     file_open_ok := fun _ => false;
     file_write_ok := fun _ => true;
     file_sync_ok := fun _ => true;
     lock_error := None;
     parseConfig := fun _ => None |}.

(** A configuration with [log_dest] and [num_logs_to_flush] only. *)
Definition sample_config (dest flush_num : Z) : LogConfig :=
  {| getUnsigned := fun key =>
       if String.eqb key TEXT_LOG_DESTINATION then Some dest
       else if String.eqb key TEXT_LOG_FLUSH_NUM then Some flush_num
       else None;
     getString := fun _ => None |}.

(** The File sink that [LogSys] makes from [sample_config 1 2], and the
    world after its construction from an empty world. *)
Definition sample_file_sink : Sink :=
  FileSink
    {| FileLogger.base := Logger.new LOG_LEVEL_INFO 2;
       FileLogger.m_FilePath := "/tmp/log";
       FileLogger.m_FileBaseName := "log";
       FileLogger.m_FileSuffix := "";
       FileLogger.m_File :=
         {| fs_file := Some "/tmp/log/log"; fs_failbit := false;
            fs_badbit := false; fs_buffer := "" |};
       FileLogger.m_IsThreadSafe := true |}.

Definition sample_file_world : World :=
  {| disk := {[ "/tmp/log/log" := "" ]};
     stderr := [Diag "Opening file <scribe.conf> to get log config...";
                Diag "Log level: INFO";
                Diag "Opened log file </tmp/log/log>";
                Diag "Log system initialized OK!"];
     parsed := ["scribe.conf"];
     created := [] |}.

(** The Rolling sink that [LogSys] makes from [sample_config 2 1] on
    2024-01-15, and the world after its construction from an empty world. *)
Definition sample_rolling : RollingFileLogger.t :=
  {| RollingFileLogger.base := Logger.new LOG_LEVEL_INFO 1;
     RollingFileLogger.m_FilePath := "/tmp/log";
     RollingFileLogger.m_FileBaseName := "log";
     RollingFileLogger.m_FileSuffix := "";
     RollingFileLogger.m_pFileLogger :=
       Some {| FileLogger.base := Logger.new LOG_LEVEL_INFO 1;
               FileLogger.m_FilePath := "/tmp/log";
               FileLogger.m_FileBaseName := "log-2024-01-15";
               FileLogger.m_FileSuffix := "";
               FileLogger.m_File :=
                 {| fs_file := Some "/tmp/log/log-2024-01-15"; fs_failbit := false;
                    fs_badbit := false; fs_buffer := "" |};
               FileLogger.m_IsThreadSafe := false |};
     RollingFileLogger.m_LastCreatedTime := mk_tm 124 0 15 |}.

Definition sample_rolling_world : World :=
  {| disk := {[ "/tmp/log/log-2024-01-15" := "" ]};
     stderr := [Diag "Opening file <scribe.conf> to get log config...";
                Diag "Log level: INFO";
                Diag "Opened log file </tmp/log/log-2024-01-15>";
                Diag "Log system initialized OK!"];
     parsed := ["scribe.conf"];
     created := [] |}.

(** A configuration with [log_level] only. *)
Definition level_config (level : Z) : LogConfig :=
  {| getUnsigned := fun key =>
       if String.eqb key TEXT_LOG_LEVEL then Some level else None;
     getString := fun _ => None |}.

Definition jan_15 : tm := mk_tm 124 0 15.
Definition jan_16 : tm := mk_tm 124 0 16.
Definition feb_15 : tm := mk_tm 124 1 15.

(* ===================================================================== *)
(** * Properties *)
(* ===================================================================== *)

(** ** Strings *)

Lemma sapp_cons (c : ascii) (s t : string) : String c s +:+ t = String c (s +:+ t).
Proof. reflexivity. Qed.

Lemma sapp_nil_l (s : string) : "" +:+ s = s.
Proof. reflexivity. Qed.

Lemma sapp_nil_r (s : string) : s +:+ "" = s.
Proof. induction s as [|c s IH]; [reflexivity|]. rewrite sapp_cons, IH. reflexivity. Qed.

Lemma sapp_assoc (s t u : string) : (s +:+ t) +:+ u = s +:+ (t +:+ u).
Proof.
  induction s as [|c s IH]; [reflexivity|].
  rewrite !sapp_cons, IH. reflexivity.
Qed.

Lemma fill_zero (c : ascii) : Str.fill 0 c = "".
Proof. reflexivity. Qed.

(** Indexing the last position agrees with the structural [Str.last]. *)
Lemma at_last (s : string) :
  s <> "" -> Str.at_ s (String.length s - 1) = Str.last s.
Proof.
  induction s as [|c s IH]; [congruence|]. intros _.
  destruct s as [|d s]; [reflexivity|].
  specialize (IH ltac:(congruence)).
  change (Str.last (String c (String d s))) with (Str.last (String d s)).
  rewrite <- IH. unfold Str.at_.
  cbn [String.length]. rewrite !Nat.sub_succ, !Nat.sub_0_r. reflexivity.
Qed.

Lemma digits_longer (fuel : nat) (n : Z) (acc : string) :
  (String.length acc < String.length (Str.digits fuel n acc))%nat.
Proof.
  revert n acc. induction fuel as [|fuel IH]; intros n acc; simpl.
  - lia.
  - destruct (n <? 10); simpl; [lia|].
    specialize (IH (n / 10) (String (Str.digit (n mod 10)) acc)). simpl in IH. lia.
Qed.

(** A number from 1000 on has at least four digits. *)
Lemma dec_four_digits (n : Z) : 1000 <= n -> (4 <= String.length (Str.dec n))%nat.
Proof.
  intros Hn. unfold Str.dec.
  destruct (Z.ltb_spec n 0) as [?|_]; [lia|].
  assert (Hlog : 9 <= Z.log2 n).
  { change 9 with (Z.log2 1000). apply Z.log2_le_mono. lia. }
  destruct (Z.to_nat (Z.log2 n)) as [|[|[|fuel]]] eqn:Hfuel; try lia.
  simpl.
  destruct (Z.ltb_spec n 10) as [?|_]; [lia|].
  destruct (Z.ltb_spec (n / 10) 10) as [H|_].
  { assert (100 <= n / 10) by (apply Z.div_le_lower_bound; lia). lia. }
  destruct (Z.ltb_spec (n / 10 / 10) 10) as [H|_].
  { assert (100 <= n / 10) by (apply Z.div_le_lower_bound; lia).
    assert (10 <= n / 10 / 10) by (apply Z.div_le_lower_bound; lia). lia. }
  match goal with |- (_ <= String.length (Str.digits ?f ?m ?acc))%nat =>
    pose proof (digits_longer f m acc) as Hl end.
  simpl in Hl. lia.
Qed.

Lemma zpad4_from_1000 (n : Z) : 1000 <= n -> zpad 4 n = Str.dec n.
Proof.
  intros Hn. unfold zpad.
  replace (4 - String.length (Str.dec n))%nat with 0%nat
    by (pose proof (dec_four_digits n Hn); lia).
  reflexivity.
Qed.

(** What the stream of [getFileNameByDate] holds at the end: only the month
    and the day are written under a width. *)
Lemma getFileNameByDate_unfold (this : RollingFileLogger.t) (date : tm) :
  RollingFileLogger.getFileNameByDate this date =
  RollingFileLogger.m_FileBaseName this +:+ "-" +:+ Str.dec (tm_year date + 1900)
    +:+ "-" +:+ zpad 2 (tm_mon date + 1) +:+ "-" +:+ zpad 2 (tm_mday date).
Proof.
  unfold RollingFileLogger.getFileNameByDate, OStream.put_int, OStream.put_char,
    OStream.put, OStream.setw, OStream.setfill, OStream.new, zpad.
  cbn [oss_str oss_width oss_fill].
  rewrite !Nat.sub_0_l, !fill_zero, !sapp_nil_l, !sapp_assoc.
  reflexivity.
Qed.

Lemma dec_examples :
  Str.dec 0 = "0" /\ Str.dec 7 = "7" /\ Str.dec 10 = "10" /\ Str.dec 999 = "999"
  /\ Str.dec 2024 = "2024" /\ Str.dec 10000 = "10000" /\ Str.dec (-12) = "-12".
Proof. repeat split; reflexivity. Qed.

Lemma getFileNameByDate_example :
  RollingFileLogger.getFileNameByDate RollingFileLogger.new_default (mk_tm 124 0 31)
  = "log-2024-01-31".
Proof. reflexivity. Qed.

Lemma getFullFileName_example :
  FileLogger.getFullFileName (FileLogger.new "/tmp/t" "app" "log" LOG_LEVEL_INFO 2 true)
    = "/tmp/t/app.log"
  /\ FileLogger.getFullFileName (FileLogger.new "/tmp/t/" "app" ".txt" LOG_LEVEL_INFO 2 true)
    = "/tmp/t/app.txt"
  /\ FileLogger.getFullFileName (FileLogger.new "" "app" "" LOG_LEVEL_INFO 2 true)
    = "app".
Proof. repeat split; reflexivity. Qed.

(** The suffix branch of [getFullFileName] is the specification's rule. *)
Lemma suffix_branch (full_name suffix : string) :
  (if negb (Str.empty suffix) then
     if bool_decide (Str.at_ suffix 0 = Some "."%char)
     then full_name +:+ suffix
     else full_name +:+ "." +:+ suffix
   else full_name) = full_name +:+ spec_suffix suffix.
Proof.
  destruct suffix as [|c suffix]; simpl.
  - symmetry. apply sapp_nil_r.
  - unfold Str.at_. simpl. destruct (Ascii.eqb_spec c ".") as [->|Hc].
    + rewrite bool_decide_eq_true_2 by reflexivity. reflexivity.
    + rewrite bool_decide_eq_false_2 by congruence. reflexivity.
Qed.

(** ** C4: composition of the full path *)

(** C4. For a directory that does not end in '/': when it is not empty the
    full path of the File sink is [dir + "/" + base] followed by nothing for
    an empty suffix, by the suffix itself when it starts with a dot and by a
    dot and the suffix otherwise; when it is empty the path starts with the
    base name, with no '/' in front. *)
Theorem C4_full_file_name (this : FileLogger.t) :
  Str.last (FileLogger.m_FilePath this) <> Some "/"%char ->
  (FileLogger.m_FilePath this <> "" ->
   FileLogger.getFullFileName this =
   FileLogger.m_FilePath this +:+ "/" +:+ FileLogger.m_FileBaseName this
     +:+ spec_suffix (FileLogger.m_FileSuffix this))
  /\ (FileLogger.m_FilePath this = "" ->
      FileLogger.getFullFileName this =
      FileLogger.m_FileBaseName this +:+ spec_suffix (FileLogger.m_FileSuffix this)).
Proof.
  intros Hslash. unfold FileLogger.getFullFileName. rewrite suffix_branch. split.
  - intros Hdir. rewrite <- at_last in Hslash by exact Hdir.
    destruct (FileLogger.m_FilePath this) as [|c dir] eqn:Hpath; [congruence|].
    cbn [Str.empty negb]. rewrite bool_decide_eq_false_2 by exact Hslash.
    cbn [negb]. rewrite sapp_nil_l, !sapp_assoc. reflexivity.
  - intros ->. reflexivity.
Qed.

Lemma C4_full_file_name_witness :
  Str.last "/tmp/t" <> Some "/"%char
  /\ FileLogger.getFullFileName (FileLogger.new "/tmp/t" "app" "log" LOG_LEVEL_INFO 2 true)
     = "/tmp/t" +:+ "/" +:+ "app" +:+ spec_suffix "log"
  /\ FileLogger.getFullFileName (FileLogger.new "" "app" ".txt" LOG_LEVEL_INFO 2 true)
     = "app" +:+ spec_suffix ".txt".
Proof.
  split; [discriminate|]. split.
  - apply (C4_full_file_name (FileLogger.new "/tmp/t" "app" "log" LOG_LEVEL_INFO 2 true));
      discriminate.
  - apply (C4_full_file_name (FileLogger.new "" "app" ".txt" LOG_LEVEL_INFO 2 true));
      [discriminate | reflexivity].
Defined.

(** ** C5: the per-day file name *)

(** A number from 1000 to 9999 has four digits. *)
Lemma dec_length_four (n : Z) : 1000 <= n <= 9999 -> String.length (Str.dec n) = 4%nat.
Proof.
  intros Hn. unfold Str.dec.
  destruct (Z.ltb_spec n 0) as [?|_]; [lia|].
  assert (Hlog : 9 <= Z.log2 n).
  { change 9 with (Z.log2 1000). apply Z.log2_le_mono. lia. }
  assert (H1 : 100 <= n / 10 < 1000)
    by (split; [apply Z.div_le_lower_bound|apply Z.div_lt_upper_bound]; lia).
  assert (H2 : 10 <= n / 10 / 10 < 100)
    by (split; [apply Z.div_le_lower_bound|apply Z.div_lt_upper_bound]; lia).
  assert (H3 : 1 <= n / 10 / 10 / 10 < 10)
    by (split; [apply Z.div_le_lower_bound|apply Z.div_lt_upper_bound]; lia).
  destruct (Z.to_nat (Z.log2 n)) as [|[|[|fuel]]] eqn:Hfuel; try lia.
  cbn [Str.digits].
  destruct (Z.ltb_spec n 10) as [?|_]; [lia|].
  destruct (Z.ltb_spec (n / 10) 10) as [?|_]; [lia|].
  destruct (Z.ltb_spec (n / 10 / 10) 10) as [?|_]; [lia|].
  destruct fuel as [|fuel]; cbn [Str.digits]; [reflexivity|].
  destruct (Z.ltb_spec (n / 10 / 10 / 10) 10) as [_|?]; [reflexivity|lia].
Qed.

(** A number from 0 to 99 takes two characters under [setw(2)] and
    [setfill('0')]. *)
Lemma zpad2_length (n : Z) : 0 <= n <= 99 -> String.length (zpad 2 n) = 2%nat.
Proof.
  intros Hn. unfold zpad, Str.dec.
  destruct (Z.ltb_spec n 0) as [?|_]; [lia|].
  destruct (Z.ltb_spec n 10) as [Hsmall|Hbig].
  - assert (Hone : forall fuel, Str.digits fuel n "" = String (Str.digit (n mod 10)) "").
    { intros [|fuel]; cbn [Str.digits]; [reflexivity|].
      destruct (Z.ltb_spec n 10); [reflexivity|lia]. }
    rewrite Hone. reflexivity.
  - assert (Hlog : 3 <= Z.log2 n).
    { change 3 with (Z.log2 10). apply Z.log2_le_mono. lia. }
    assert (H1 : 1 <= n / 10 < 10)
      by (split; [apply Z.div_le_lower_bound|apply Z.div_lt_upper_bound]; lia).
    destruct (Z.to_nat (Z.log2 n)) as [|fuel] eqn:Hfuel; [lia|].
    cbn [Str.digits].
    destruct (Z.ltb_spec n 10) as [?|_]; [lia|].
    destruct fuel as [|fuel]; cbn [Str.digits]; [reflexivity|].
    destruct (Z.ltb_spec (n / 10) 10) as [_|?]; [reflexivity|lia].
Qed.

(** C5. For every local date, as [getCurrentDate] hands it on, the per-day
    file name of the Rolling sink is the base name, a dash, the year padded
    to four digits, a dash, the month padded to two, a dash and the day
    padded to two.  The month and the day take two characters each, and the
    year takes four up to the year 9999.  (The code writes the year without
    a width; from the year 1000 on the padding of the year adds no
    character, and no local date is earlier.) *)
Theorem C5_rolling_name_of_local_date (this : RollingFileLogger.t) (date : tm) :
  local_date date ->
  RollingFileLogger.getFileNameByDate this date
  = spec_rolling_name (RollingFileLogger.m_FileBaseName this)
      (year_of date) (month_of date) (day_of date)
  /\ (year_of date <= 9999 -> String.length (zpad 4 (year_of date)) = 4%nat)
  /\ String.length (zpad 2 (month_of date)) = 2%nat
  /\ String.length (zpad 2 (day_of date)) = 2%nat.
Proof.
  intros (Hyear & Hmon & Hday). unfold INT_MAX in Hyear.
  assert (H1000 : 1000 <= year_of date) by (unfold year_of; lia).
  split.
  - rewrite getFileNameByDate_unfold.
    unfold spec_rolling_name, year_of, month_of, day_of in *.
    rewrite zpad4_from_1000 by exact H1000. reflexivity.
  - split.
    + intros H9999. rewrite zpad4_from_1000 by exact H1000.
      apply dec_length_four. lia.
    + split; apply zpad2_length; unfold month_of, day_of; lia.
Qed.

Lemma C5_rolling_name_witness :
  local_date (mk_tm 124 0 31)
  /\ RollingFileLogger.getFileNameByDate RollingFileLogger.new_default (mk_tm 124 0 31)
     = spec_rolling_name "log" 2024 1 31
  /\ (year_of (mk_tm 124 0 31) <= 9999 ->
      String.length (zpad 4 (year_of (mk_tm 124 0 31))) = 4%nat)
  /\ String.length (zpad 2 (month_of (mk_tm 124 0 31))) = 2%nat
  /\ String.length (zpad 2 (day_of (mk_tm 124 0 31))) = 2%nat.
Proof.
  assert (H : local_date (mk_tm 124 0 31)) by (unfold local_date, INT_MAX; simpl; lia).
  split; [exact H|].
  exact (C5_rolling_name_of_local_date RollingFileLogger.new_default (mk_tm 124 0 31) H).
Defined.

(** ** The level gate *)

Ltac unfold_monad :=
  unfold bind, ret, throw, try_catch, effect, LOG_TO_STDERR, scoped_lock in *.

(** [Logger::log] below the level of any kind of object: [logImpl] is not
    called. *)
Lemma Logger_log_below {T : Type} (base : T -> Logger.t)
    (logImpl : string -> T -> M (bool * T)) msg level (this : T) (w : World) :
  level_value level < level_value (Logger.m_Level (base this)) ->
  Logger.log base logImpl msg level this w = Ok (false, this) w.
Proof.
  intros Hlt. unfold Logger.log.
  destruct (Z.geb_spec (level_value level) (level_value (Logger.m_Level (base this))));
    [lia | reflexivity].
Qed.

Lemma Logger_log_pass {T : Type} (base : T -> Logger.t)
    (logImpl : string -> T -> M (bool * T)) msg level (this : T) (w : World) :
  level_value (Logger.m_Level (base this)) <= level_value level ->
  Logger.log base logImpl msg level this w = logImpl msg this w.
Proof.
  intros Hle. unfold Logger.log.
  destruct (Z.geb_spec (level_value level) (level_value (Logger.m_Level (base this))));
    [reflexivity | lia].
Qed.

Lemma Sink_log_below (E : Env) msg level (s : Sink) (w : World) :
  below_level level s -> Sink.log E msg level s w = Ok (false, s) w.
Proof. intros H. apply Logger_log_below. exact H. Qed.

(** A run of suppressed calls changes nothing, whatever the surroundings
    answer, and the calls after it start from the sink as it was. *)
Lemma emits_below (calls rest : list Call) (s : Sink) (w : World) :
  Forall (fun c => below_level (call_level c) s) calls ->
  emits (calls ++ rest)%list s w =
  (do '(rs, s') <- emits rest s;
   ret ((replicate (List.length calls) false ++ rs)%list, s')) w.
Proof.
  induction 1 as [|c calls Hc _ IH]; simpl.
  - unfold_monad. destruct (emits rest s w) as [[rs s'] w'|e w']; reflexivity.
  - unfold bind at 1. rewrite Sink_log_below by exact Hc.
    unfold bind at 1. rewrite IH. unfold_monad.
    destruct (emits rest s w) as [[rs s'] w'|e w']; reflexivity.
Qed.

(** ** C2: a message below the level of the sink *)

(** C2. For every sink, message and level below the level of the sink, emit
    returns false and leaves the world (the files, the standard error
    stream) and the sink (its stream buffer, its counter of writes not yet
    flushed) as they were. *)
Theorem C2_below_level_no_effect (E : Env) (msg : string) (level : ENUM_LOG_LEVEL)
    (s : Sink) (w : World) :
  level_value level < level_value (Sink.level s) ->
  exists s' w',
    Sink.log E msg level s w = Ok (false, s') w'
    /\ w' = w
    /\ s' = s
    /\ Sink.pending s' = Sink.pending s.
Proof.
  intros Hlt. exists s, w. split; [|auto].
  apply Sink_log_below. exact Hlt.
Qed.

Lemma C2_below_level_witness :
  level_value LOG_LEVEL_DEBUG < level_value (Sink.level sample_file_sink)
  /\ exists s' w',
       Sink.log (all_well jan_15 None) "dbg" LOG_LEVEL_DEBUG sample_file_sink sample_file_world
       = Ok (false, s') w'
       /\ w' = sample_file_world
       /\ s' = sample_file_sink
       /\ Sink.pending s' = Sink.pending sample_file_sink.
Proof.
  split; [reflexivity|].
  apply (C2_below_level_no_effect (all_well jan_15 None) "dbg" LOG_LEVEL_DEBUG
           sample_file_sink sample_file_world).
  reflexivity.
Defined.

(** ** C10: a suppressed emit of the Rolling sink does not rotate *)

(** C10. An emit of the Rolling sink below its level returns false without
    looking at the clock: whatever the date of the call, the inner File
    sink, its open stream, [m_LastCreatedTime] and the world are unchanged;
    after any number of suppressed emits the first emit that passes the
    level gate meets the Rolling sink as it was before them, so it is the
    earliest that can rotate. *)
Theorem C10_suppressed_emit_never_rotates (r : RollingFileLogger.t) (w : World)
    (calls : list Call) (c : Call) :
  Forall (fun c => below_level (call_level c) (RollingSink r)) calls ->
  emits calls (RollingSink r) w = Ok (replicate (List.length calls) false, RollingSink r) w
  /\ emits (calls ++ [c])%list (RollingSink r) w =
     (do '(b, s') <- Sink.log (call_env c) (call_msg c) (call_level c) (RollingSink r);
      ret ((replicate (List.length calls) false ++ [b])%list, s')) w.
Proof.
  intros Hbelow. split.
  - pose proof (emits_below calls [] (RollingSink r) w Hbelow) as H.
    rewrite List.app_nil_r in H. rewrite H. simpl. unfold_monad.
    rewrite List.app_nil_r. reflexivity.
  - rewrite (emits_below calls [c] (RollingSink r) w Hbelow). simpl. unfold_monad.
    destruct (Sink.log _ _ _ _ w) as [[b s'] w'|e w']; reflexivity.
Qed.

Lemma C10_suppressed_emit_witness :
  let calls := [mk_Call (all_well feb_15 None) "x" LOG_LEVEL_DEBUG;
                mk_Call (all_well jan_16 None) "y" LOG_LEVEL_DEBUG] in
  let c := mk_Call (all_well jan_16 None) "z" LOG_LEVEL_INFO in
  emits calls (RollingSink sample_rolling) sample_rolling_world
  = Ok (replicate (List.length calls) false, RollingSink sample_rolling) sample_rolling_world
  /\ emits (calls ++ [c])%list (RollingSink sample_rolling) sample_rolling_world =
     (do '(b, s') <- Sink.log (call_env c) (call_msg c) (call_level c)
                       (RollingSink sample_rolling);
      ret ((replicate (List.length calls) false ++ [b])%list, s')) sample_rolling_world.
Proof.
  apply (C10_suppressed_emit_never_rotates sample_rolling sample_rolling_world).
  repeat constructor.
Defined.

(** ** The stream *)

Lemma write_keeps_file (E : Env) msg (f : fstream) :
  fs_file (FStream.write E msg f) = fs_file f.
Proof.
  unfold FStream.write. destruct (FStream.good f); [|reflexivity].
  destruct (fs_file f) as [name|] eqn:Hf; [|simpl; auto].
  destruct (file_write_ok E name); simpl; auto.
Qed.

(** An insertion that meets an error leaves [badbit] set, and [badbit]
    stays once it is set. *)
Lemma write_error_is_bad (E : Env) msg (f : fstream) (name : string) :
  fs_file f = Some name ->
  FStream.good f = true ->
  file_write_ok E name = false ->
  FStream.bad (FStream.write E msg f) = true.
Proof.
  intros Hf Hgood Hw. unfold FStream.write. rewrite Hgood, Hf, Hw. reflexivity.
Qed.

Lemma write_keeps_bad (E : Env) msg (f : fstream) :
  FStream.bad f = true -> FStream.bad (FStream.write E msg f) = true.
Proof.
  unfold FStream.write, FStream.good, FStream.bad. intros H.
  rewrite H, andb_false_r. exact H.
Qed.

Lemma write_good (E : Env) msg (f : fstream) (name : string) :
  fs_file f = Some name ->
  FStream.good f = true ->
  file_write_ok E name = true ->
  FStream.write E msg f =
  {| fs_file := Some name; fs_failbit := false; fs_badbit := false;
     fs_buffer := fs_buffer f +:+ msg |}.
Proof.
  intros Hf Hgood Hw. unfold FStream.write. rewrite Hgood, Hf, Hw.
  unfold FStream.good in Hgood. apply andb_true_iff in Hgood as [H1 H2].
  apply negb_true_iff in H1, H2. rewrite H1, H2. reflexivity.
Qed.

Lemma flush_total (E : Env) (f : fstream) (w : World) :
  exists f' w',
    FStream.flush E f w = Ok f' w'
    /\ fs_file f' = fs_file f
    /\ stderr w' = stderr w
    /\ (FStream.bad f = true -> FStream.bad f' = true)
    /\ (forall name, fs_file f = Some name -> file_sync_ok E name = false ->
        FStream.bad f' = true)
    /\ (forall name, fs_file f = Some name -> file_sync_ok E name = true ->
        FStream.bad f' = FStream.bad f /\ fs_buffer f' = ""
        /\ w' = World.append name (fs_buffer f) w).
Proof.
  unfold FStream.flush. destruct (fs_file f) as [name|] eqn:Hf.
  - destruct (file_sync_ok E name) eqn:Hs; unfold_monad; simpl;
      eexists _, _; (split; [reflexivity|]); simpl;
      (split; [auto|]); (split; [auto|]); (split; [auto|]);
      split; intros n [= <-] Hn; try congruence; auto.
  - unfold_monad. eexists _, _. split; [reflexivity|].
    repeat split; auto; discriminate.
Qed.

Lemma close_total (E : Env) (f : fstream) (w : World) :
  exists f' w',
    FStream.close E f w = Ok f' w'
    /\ fs_file f' = None
    /\ stderr w' = stderr w.
Proof.
  unfold FStream.close. destruct (fs_file f) as [name|] eqn:Hf.
  - destruct (file_sync_ok E name); unfold_monad; simpl; eexists _, _; auto.
  - unfold_monad. eexists _, _. simpl. auto.
Qed.

(** Opening a closed stream: open and good when the file can be opened,
    closed and not good otherwise. *)
Lemma open_closed_stream (E : Env) (name : string) (f : fstream) (w : World) :
  fs_file f = None ->
  exists f' w',
    FStream.open E name f w = Ok f' w'
    /\ stderr w' = stderr w
    /\ (if file_open_ok E name
        then f' = {| fs_file := Some name; fs_failbit := false;
                     fs_badbit := false; fs_buffer := "" |}
        else fs_file f' = None /\ FStream.good f' = false).
Proof.
  intros Hf. unfold FStream.open. rewrite Hf.
  destruct (file_open_ok E name); unfold_monad; simpl; eexists _, _; repeat split; auto.
Qed.

(** ** [FileLogger] *)

Lemma same_settings_refl (a : FileLogger.t) : same_settings a a.
Proof. repeat split. Qed.

Lemma same_settings_trans (a b c : FileLogger.t) :
  same_settings a b -> same_settings b c -> same_settings a c.
Proof. unfold same_settings. intuition congruence. Qed.

Lemma writeLog_closed (E : Env) msg (this : FileLogger.t) (w : World) :
  FStream.is_open (FileLogger.m_File this) = false ->
  FileLogger.writeLog E msg this w = Ok (false, this) w.
Proof. intros H. unfold FileLogger.writeLog. rewrite H. reflexivity. Qed.

(** [writeLog] on an open stream: the insertion, the counter, the flush
    when the counter has reached the threshold, and the result. *)
Lemma writeLog_open (E : Env) msg (this : FileLogger.t) (w : World) :
  FStream.is_open (FileLogger.m_File this) = true ->
  exists this' w',
    FileLogger.writeLog E msg this w
      = Ok (negb (FStream.bad (FileLogger.m_File this')), this') w'
    /\ same_settings this this'
    /\ fs_file (FileLogger.m_File this') = fs_file (FileLogger.m_File this)
    /\ stderr w' = stderr w
    /\ let n := ulong_incr (Logger.m_NotFlushedNum (FileLogger.base this)) in
       let f1 := FStream.write E msg (FileLogger.m_File this) in
       if n >=? Logger.m_MaxFlushNum (FileLogger.base this) then
         Logger.m_NotFlushedNum (FileLogger.base this') = 0
         /\ FStream.flush E f1 w = Ok (FileLogger.m_File this') w'
       else
         Logger.m_NotFlushedNum (FileLogger.base this') = n
         /\ FileLogger.m_File this' = f1 /\ w' = w.
Proof.
  intros Hopen. unfold FileLogger.writeLog. rewrite Hopen. cbn [negb].
  cbv zeta. cbn [FileLogger.base FileLogger.set_base FileLogger.set_File
    FileLogger.m_File Logger.m_NotFlushedNum Logger.m_MaxFlushNum
    Logger.set_NotFlushedNum].
  destruct (ulong_incr _ >=? _) eqn:Hcmp.
  - destruct (flush_total E (FStream.write E msg (FileLogger.m_File this)) w)
      as (f2 & w2 & Hflush & Hfile & Herr & _).
    unfold bind at 1. rewrite Hflush. unfold ret.
    match goal with |- context [Ok (_, ?t) ?w'] => exists t, w' end.
    split; [reflexivity|].
    unfold same_settings. simpl. repeat split; auto.
    rewrite Hfile. apply write_keeps_file.
  - unfold ret.
    match goal with |- context [Ok (_, ?t) ?w'] => exists t, w' end.
    split; [reflexivity|].
    unfold same_settings. simpl. repeat split; auto. apply write_keeps_file.
Qed.

(** [FileLogger::logImpl] returns, whatever happens. *)
Lemma FileLogger_logImpl_total (E : Env) msg (this : FileLogger.t) (w : World) :
  exists r this' w',
    FileLogger.logImpl E msg this w = Ok (r, this') w'
    /\ same_settings this this'
    /\ fs_file (FileLogger.m_File this') = fs_file (FileLogger.m_File this)
    /\ (FStream.is_open (FileLogger.m_File this) = false -> r = false)
    /\ (FStream.bad (FileLogger.m_File this') = true -> r = false)
    /\ (FileLogger.m_IsThreadSafe this = true -> lock_error E <> None ->
        r = false /\ this' = this)
    /\ (Logger.m_NotFlushedNum (FileLogger.base this')
          = Logger.m_NotFlushedNum (FileLogger.base this)
        \/ (FStream.is_open (FileLogger.m_File this) = true
            /\ Logger.m_NotFlushedNum (FileLogger.base this')
               = let n := ulong_incr (Logger.m_NotFlushedNum (FileLogger.base this)) in
                 if n >=? Logger.m_MaxFlushNum (FileLogger.base this) then 0 else n)).
Proof.
  assert (Hwrite : exists r this' w',
    FileLogger.writeLog E msg this w = Ok (r, this') w'
    /\ same_settings this this'
    /\ fs_file (FileLogger.m_File this') = fs_file (FileLogger.m_File this)
    /\ (FStream.is_open (FileLogger.m_File this) = false -> r = false)
    /\ (FStream.bad (FileLogger.m_File this') = true -> r = false)
    /\ (Logger.m_NotFlushedNum (FileLogger.base this')
          = Logger.m_NotFlushedNum (FileLogger.base this)
        \/ (FStream.is_open (FileLogger.m_File this) = true
            /\ Logger.m_NotFlushedNum (FileLogger.base this')
               = let n := ulong_incr (Logger.m_NotFlushedNum (FileLogger.base this)) in
                 if n >=? Logger.m_MaxFlushNum (FileLogger.base this) then 0 else n))).
  { destruct (FStream.is_open (FileLogger.m_File this)) eqn:Hopen.
    - destruct (writeLog_open E msg this w Hopen) as (this' & w' & Heq & Hs & Hf & _ & Hn).
      eexists _, this', w'. split; [exact Heq|].
      split; [exact Hs|]. split; [exact Hf|]. split; [discriminate|].
      split; [intros ->; reflexivity|].
      right. split; [reflexivity|]. cbv zeta in *.
      destruct (ulong_incr _ >=? _); tauto.
    - eexists false, this, w. rewrite writeLog_closed by exact Hopen.
      split; [reflexivity|]. split; [apply same_settings_refl|]. auto. }
  destruct Hwrite as (r & this' & w' & Heq & Hs & Hf & Hclosed & Hbad & Hn).
  unfold FileLogger.logImpl, try_catch.
  destruct (FileLogger.m_IsThreadSafe this) eqn:Hsafe.
  - unfold scoped_lock. destruct (lock_error E) as [what_|] eqn:Hlock.
    + unfold bind, throw, LOG_TO_STDERR, effect, ret.
      eexists false, this, _. split; [reflexivity|].
      split; [apply same_settings_refl|]. auto 10.
    + unfold bind at 1. unfold ret at 1. rewrite Heq.
      eexists r, this', w'. split; [reflexivity|].
      split; [exact Hs|]. split; [exact Hf|]. split; [exact Hclosed|].
      split; [exact Hbad|]. split; [congruence | exact Hn].
  - rewrite Heq. eexists r, this', w'. split; [reflexivity|].
    split; [exact Hs|]. split; [exact Hf|]. split; [exact Hclosed|].
    split; [exact Hbad|]. split; [congruence | exact Hn].
Qed.

(** [logImpl] is [writeLog], unless taking the lock throws: then the
    handler prints a diagnostic and returns false. *)
Lemma FileLogger_logImpl_cases (E : Env) msg (this : FileLogger.t) (w : World) :
  (FileLogger.logImpl E msg this w = FileLogger.writeLog E msg this w
   /\ (FileLogger.m_IsThreadSafe this = true -> lock_error E = None))
  \/ (exists text,
        FileLogger.m_IsThreadSafe this = true
        /\ lock_error E = Some text
        /\ FileLogger.logImpl E msg this w
           = Ok (false, this) (World.print (Diag ("Exception: " +:+ text)) w)).
Proof.
  destruct (FStream.is_open (FileLogger.m_File this)) eqn:Hopen.
  - destruct (writeLog_open E msg this w Hopen) as (this' & w' & Heq & _).
    unfold FileLogger.logImpl, try_catch.
    destruct (FileLogger.m_IsThreadSafe this); [|left; rewrite Heq; split; [auto|discriminate]].
    unfold scoped_lock. destruct (lock_error E) as [text|].
    + right. exists text. auto.
    + left. unfold bind at 1. unfold ret at 1. rewrite Heq. auto.
  - pose proof (writeLog_closed E msg this w Hopen) as Heq.
    unfold FileLogger.logImpl, try_catch.
    destruct (FileLogger.m_IsThreadSafe this); [|left; rewrite Heq; split; [auto|discriminate]].
    unfold scoped_lock. destruct (lock_error E) as [text|].
    + right. exists text. auto.
    + left. unfold bind at 1. unfold ret at 1. rewrite Heq. auto.
Qed.

(** An I/O error while inserting, or while flushing when the flush is due,
    makes [writeLog] return false. *)
Lemma writeLog_io_error (E : Env) msg (this : FileLogger.t) (w : World) (name : string) :
  fs_file (FileLogger.m_File this) = Some name ->
  (FStream.good (FileLogger.m_File this) = true /\ file_write_ok E name = false)
  \/ ((ulong_incr (Logger.m_NotFlushedNum (FileLogger.base this))
         >=? Logger.m_MaxFlushNum (FileLogger.base this)) = true
      /\ file_sync_ok E name = false) ->
  exists this' w', FileLogger.writeLog E msg this w = Ok (false, this') w'.
Proof.
  intros Hname Herr.
  assert (Hopen : FStream.is_open (FileLogger.m_File this) = true)
    by (unfold FStream.is_open; rewrite Hname; reflexivity).
  destruct (writeLog_open E msg this w Hopen) as (this' & w' & Heq & _ & _ & _ & Hn).
  exists this', w'. rewrite Heq. f_equal. f_equal. apply negb_false_iff.
  cbv zeta in Hn.
  destruct (flush_total E (FStream.write E msg (FileLogger.m_File this)) w)
    as (f2 & w2 & Hflush & _ & _ & Hkeep & Hsync & _).
  rewrite write_keeps_file in Hsync.
  destruct Herr as [[Hgood Hw]|[Hdue Hs]].
  - pose proof (write_error_is_bad E msg _ name Hname Hgood Hw) as Hbad.
    destruct (ulong_incr _ >=? _).
    + destruct Hn as [_ Hn]. rewrite Hflush in Hn. injection Hn as <- <-. auto.
    + destruct Hn as (_ & -> & _). exact Hbad.
  - rewrite Hdue in Hn. destruct Hn as [_ Hn]. rewrite Hflush in Hn.
    injection Hn as <- <-. eauto.
Qed.

(** ** C9: the File sink returns false instead of failing *)

(** C9. An emit of the File sink always returns to its caller, never with
    an exception.  It returns false when no file is open, when the stream
    is left with an I/O error ([badbit]), in particular when inserting the
    message fails or when the flush that is due fails, and when taking the
    lock throws. *)
Theorem C9_file_emit_returns_false_on_error (E : Env) (msg : string)
    (level : ENUM_LOG_LEVEL) (this : FileLogger.t) (w : World) :
  exists r this' w',
    FileLogger.log E msg level this w = Ok (r, this') w'
    /\ (FStream.is_open (FileLogger.m_File this) = false -> r = false)
    /\ (FStream.bad (FileLogger.m_File this') = true -> r = false)
    /\ (forall name,
          fs_file (FileLogger.m_File this) = Some name ->
          FStream.good (FileLogger.m_File this) = true ->
          file_write_ok E name = false -> r = false)
    /\ (forall name,
          fs_file (FileLogger.m_File this) = Some name ->
          (ulong_incr (Logger.m_NotFlushedNum (FileLogger.base this))
             >=? Logger.m_MaxFlushNum (FileLogger.base this)) = true ->
          file_sync_ok E name = false -> r = false)
    /\ (FileLogger.m_IsThreadSafe this = true -> lock_error E <> None -> r = false).
Proof.
  unfold FileLogger.log, Logger.log.
  destruct (level_value level >=? _).
  - destruct (FileLogger_logImpl_total E msg this w)
      as (r & this' & w' & Heq & _ & _ & Hclosed & Hbad & Hlock & _).
    exists r, this', w'. split; [exact Heq|]. split; [exact Hclosed|].
    split; [exact Hbad|].
    assert (Hio : forall name,
      fs_file (FileLogger.m_File this) = Some name ->
      (FStream.good (FileLogger.m_File this) = true /\ file_write_ok E name = false)
      \/ ((ulong_incr (Logger.m_NotFlushedNum (FileLogger.base this))
             >=? Logger.m_MaxFlushNum (FileLogger.base this)) = true
          /\ file_sync_ok E name = false) -> r = false).
    { intros name Hname Herr.
      destruct (FileLogger_logImpl_cases E msg this w) as [[Hcase _]|(text & _ & _ & Hcase)];
        rewrite Hcase in Heq.
      - destruct (writeLog_io_error E msg this w name Hname Herr) as (t & w0 & Hw).
        congruence.
      - congruence. }
    split; [eauto|]. split; [eauto|].
    intros Hsafe Hl. apply Hlock; assumption.
  - exists false, this, w. unfold ret. auto 10.
Qed.

(** ** Opening and closing *)

Lemma FileLogger_close_total (E : Env) (this : FileLogger.t) (w : World) :
  exists this' w',
    FileLogger.close E this w = Ok (true, this') w'
    /\ FileLogger.base this' = FileLogger.base this
    /\ same_settings this this'
    /\ FStream.is_open (FileLogger.m_File this') = false
    /\ stderr w' = stderr w.
Proof.
  unfold FileLogger.close.
  destruct (FStream.is_open (FileLogger.m_File this)) eqn:Hopen.
  - destruct (flush_total E (FileLogger.m_File this) w) as (f1 & w1 & Hflush & _ & He1 & _).
    destruct (close_total E f1 w1) as (f2 & w2 & Hclose & Hnone & He2).
    unfold bind at 1. rewrite Hflush. unfold bind at 1. rewrite Hclose. unfold ret.
    eexists _, _. split; [reflexivity|]. split; [reflexivity|].
    split; [repeat split|]. split; [|congruence].
    unfold FStream.is_open. simpl. rewrite Hnone. reflexivity.
  - unfold ret. exists this, w. auto using same_settings_refl.
Qed.

Lemma ensure_directory_total (E : Env) (this : FileLogger.t) (w : World) :
  exists ok w', FileLogger.ensure_directory E this w = Ok ok w'.
Proof.
  unfold FileLogger.ensure_directory. unfold_monad.
  destruct (fs_exists E _); [eauto| |eauto].
  destruct (fs_create_directories E _); eauto.
Qed.

(** [FileLogger::open]: it returns; on success the stream is open on the
    composed name, with clear flags and an empty buffer; on failure a sink
    whose stream was closed still has it closed. *)
Lemma FileLogger_open_total (E : Env) (this : FileLogger.t) (w : World) :
  exists r this' w',
    FileLogger.open E this w = Ok (r, this') w'
    /\ FileLogger.base this' = FileLogger.base this
    /\ same_settings this this'
    /\ (r = true ->
        FileLogger.m_File this'
        = {| fs_file := Some (FileLogger.getFullFileName this');
             fs_failbit := false; fs_badbit := false; fs_buffer := "" |})
    /\ (r = false -> FStream.is_open (FileLogger.m_File this) = false ->
        FStream.is_open (FileLogger.m_File this') = false).
Proof.
  unfold FileLogger.open.
  destruct (ensure_directory_total E this w) as (ok & w0 & Hdir).
  unfold bind at 1. rewrite Hdir. destruct ok; cbn [negb].
  - destruct (FileLogger_close_total E this w0)
      as (this1 & w1 & Hclose & Hbase & Hset & Hclosed & _).
    unfold bind at 1. rewrite Hclose.
    assert (Hnone : fs_file (FileLogger.m_File this1) = None).
    { unfold FStream.is_open in Hclosed. destruct (fs_file _); [discriminate|reflexivity]. }
    destruct (open_closed_stream E (FileLogger.getFullFileName this1)
                (FileLogger.m_File this1) w1 Hnone) as (f & w2 & Hopen & _ & Hf).
    unfold bind at 1. rewrite Hopen. cbv zeta.
    cbn [FileLogger.m_File FileLogger.set_File].
    assert (Hname : FileLogger.getFullFileName (FileLogger.set_File this1 f)
                    = FileLogger.getFullFileName this1) by reflexivity.
    destruct (file_open_ok E _).
    + subst f. cbn [FStream.good fs_failbit fs_badbit negb andb].
      unfold_monad. eexists _, _, _. split; [reflexivity|].
      cbn [FileLogger.base FileLogger.set_File FileLogger.m_File].
      split; [exact Hbase|]. split; [exact Hset|]. split; [|discriminate].
      intros _. rewrite Hname. reflexivity.
    + destruct Hf as [Hfile Hgood]. rewrite Hgood. cbn [negb].
      unfold_monad. eexists _, _, _. split; [reflexivity|].
      cbn [FileLogger.base FileLogger.set_File FileLogger.m_File].
      split; [exact Hbase|]. split; [exact Hset|]. split; [discriminate|].
      intros _ _. unfold FStream.is_open. rewrite Hfile. reflexivity.
  - unfold ret. exists false, this, w0. split; [reflexivity|].
    split; [reflexivity|]. split; [apply same_settings_refl|]. split; [discriminate|auto].
Qed.

(** ** Running the monad *)

Lemma bind_ret {A B : Type} (a : A) (k : A -> M B) (w : World) :
  bind (ret a) k w = k a w.
Proof. reflexivity. Qed.

Lemma bind_ok {A B : Type} (m : M A) (k : A -> M B) (w w' : World) (a : A) :
  m w = Ok a w' -> bind m k w = k a w'.
Proof. intros H. unfold bind. rewrite H. reflexivity. Qed.

Lemma bind_throw {A B : Type} (m : M A) (k : A -> M B) (w w' : World) (e : exn) :
  m w = Throw e w' -> bind m k w = Throw e w'.
Proof. intros H. unfold bind. rewrite H. reflexivity. Qed.

Lemma try_catch_ok {A : Type} (m : M A) (h : exn -> M A) (w w' : World) (a : A) :
  m w = Ok a w' -> try_catch m h w = Ok a w'.
Proof. intros H. unfold try_catch. rewrite H. reflexivity. Qed.

Lemma try_catch_throw {A : Type} (m : M A) (h : exn -> M A) (w w' : World) (e : exn) :
  m w = Throw e w' -> try_catch m h w = h e w'.
Proof. intros H. unfold try_catch. rewrite H. reflexivity. Qed.

(** ** [RollingFileLogger] *)

Lemma same_rolling_settings_refl (a : RollingFileLogger.t) : same_rolling_settings a a.
Proof. repeat split. Qed.

Lemma same_rolling_settings_trans (a b c : RollingFileLogger.t) :
  same_rolling_settings a b -> same_rolling_settings b c -> same_rolling_settings a c.
Proof. unfold same_rolling_settings. intuition congruence. Qed.

Lemma inner_for_settings (a b : RollingFileLogger.t) (d : tm) (inner : FileLogger.t) :
  same_rolling_settings a b -> inner_for b d inner -> inner_for a d inner.
Proof.
  unfold same_rolling_settings, inner_for, RollingFileLogger.getFileNameByDate.
  intros (-> & -> & -> & ->). auto.
Qed.

Lemma FileLogger_destroy_total (E : Env) (this : FileLogger.t) (w : World) :
  exists w', FileLogger.destroy E this w = Ok tt w'.
Proof.
  unfold FileLogger.destroy.
  destruct (FileLogger_close_total E this w) as (this' & w' & Hclose & _).
  unfold bind. rewrite Hclose. unfold ret. eauto.
Qed.

Lemma RollingFileLogger_close_total (E : Env) (r : RollingFileLogger.t) (w : World) :
  exists r' w',
    RollingFileLogger.close E r w = Ok (true, r') w'
    /\ same_rolling_settings r r'
    /\ RollingFileLogger.m_LastCreatedTime r' = RollingFileLogger.m_LastCreatedTime r
    /\ rolling_closed r'.
Proof.
  unfold RollingFileLogger.close, rolling_closed.
  destruct (RollingFileLogger.m_pFileLogger r) as [inner|] eqn:Hinner.
  - destruct (FileLogger_close_total E inner w) as (inner' & w' & Hclose & _ & _ & Hclosed & _).
    unfold bind. rewrite Hclose. unfold ret. eexists _, _. split; [reflexivity|].
    split; [repeat split|]. split; [reflexivity|]. exact Hclosed.
  - unfold ret. exists r, w. split; [reflexivity|].
    split; [apply same_rolling_settings_refl|]. rewrite Hinner. auto.
Qed.

(** [RollingFileLogger::open]: it records today, makes the File sink of
    today and opens it. *)
Lemma RollingFileLogger_open_total (E : Env) (r : RollingFileLogger.t) (w : World) :
  exists opened r' inner w',
    RollingFileLogger.open E r w = Ok (opened, r') w'
    /\ same_rolling_settings r r'
    /\ RollingFileLogger.m_LastCreatedTime r' = now E
    /\ RollingFileLogger.m_pFileLogger r' = Some inner
    /\ inner_for r (now E) inner
    /\ (opened = true ->
        FileLogger.m_File inner
        = {| fs_file := Some (FileLogger.getFullFileName inner);
             fs_failbit := false; fs_badbit := false; fs_buffer := "" |})
    /\ (opened = false -> FStream.is_open (FileLogger.m_File inner) = false).
Proof.
  unfold RollingFileLogger.open. cbv zeta.
  assert (Hold : exists w0,
    (match RollingFileLogger.m_pFileLogger
             (RollingFileLogger.set_LastCreatedTime r (RollingFileLogger.getCurrentDate E)) with
     | Some old => FileLogger.destroy E old
     | None => ret tt
     end) w = Ok tt w0).
  { cbn [RollingFileLogger.m_pFileLogger RollingFileLogger.set_LastCreatedTime].
    destruct (RollingFileLogger.m_pFileLogger r) as [old|].
    - apply FileLogger_destroy_total.
    - unfold ret. eauto. }
  destruct Hold as (w0 & Hold). unfold bind at 1. rewrite Hold.
  match goal with |- context [FileLogger.open E ?fresh] =>
    destruct (FileLogger_open_total E fresh w0)
      as (opened & inner & w1 & Hopen & Hbase & Hset & Hok & Hfail);
    unfold bind at 1; rewrite Hopen
  end.
  unfold ret. exists opened. eexists. exists inner, w1. split; [reflexivity|].
  split; [repeat split|]. split; [reflexivity|]. split; [reflexivity|].
  split.
  - destruct Hset as (Hp & Hb & Hs & Ht & _). unfold inner_for.
    rewrite Hbase, <- Hp, <- Hb, <- Hs, <- Ht. repeat split.
  - split; [exact Hok|]. intros Hf. apply Hfail; [exact Hf|reflexivity].
Qed.

(** [rotateFile]: close, then open; [rotation_opens] is what the open
    returned. *)
Lemma rotateFile_total (E : Env) (r : RollingFileLogger.t) (w : World) :
  exists r' inner w',
    RollingFileLogger.rotateFile E r w = Ok r' w'
    /\ same_rolling_settings r r'
    /\ RollingFileLogger.m_LastCreatedTime r' = now E
    /\ RollingFileLogger.m_pFileLogger r' = Some inner
    /\ inner_for r (now E) inner
    /\ (rotation_opens E r w = true ->
        FileLogger.m_File inner
        = {| fs_file := Some (FileLogger.getFullFileName inner);
             fs_failbit := false; fs_badbit := false; fs_buffer := "" |})
    /\ (rotation_opens E r w = false -> FStream.is_open (FileLogger.m_File inner) = false).
Proof.
  unfold RollingFileLogger.rotateFile, rotation_opens.
  destruct (RollingFileLogger_close_total E r w) as (r1 & w1 & Hclose & Hset1 & _ & _).
  destruct (RollingFileLogger_open_total E r1 w1)
    as (opened & r2 & inner & w2 & Hopen & Hset2 & Htime & Hinner & Hfor & Hok & Hfail).
  unfold bind. rewrite Hclose, Hopen. unfold ret.
  exists r2, inner, w2. split; [reflexivity|].
  split; [eapply same_rolling_settings_trans; eassumption|].
  split; [exact Htime|]. split; [exact Hinner|].
  split; [eapply inner_for_settings; eassumption|]. auto.
Qed.

(** The three ways through [RollingFileLogger::logImpl]. *)
Lemma RollingFileLogger_logImpl_cases (E : Env) msg (r : RollingFileLogger.t) (w : World) :
  match lock_error E with
  | Some text =>
      RollingFileLogger.logImpl E msg r w
      = Ok (false, r) (World.print (Diag ("Exception: " +:+ text)) w)
  | None =>
      if rotation_due E r then
        exists r1 w1,
          RollingFileLogger.rotateFile E r w = Ok r1 w1
          /\ RollingFileLogger.logImpl E msg r w = forward_to_inner E msg r1 w1
      else RollingFileLogger.logImpl E msg r w = forward_to_inner E msg r w
  end.
Proof.
  unfold RollingFileLogger.logImpl, scoped_lock, rotation_due, forward_to_inner.
  unfold RollingFileLogger.getCurrentDate.
  destruct (lock_error E) as [text|]; [reflexivity|].
  destruct (negb _).
  - destruct (rotateFile_total E r w) as (r1 & inner & w1 & Hrot & _ & _ & Hinner & _).
    exists r1, w1. split; [exact Hrot|]. rewrite Hinner.
    destruct (FileLogger_logImpl_total E msg inner w1) as (b & inner' & w2 & Heq & _).
    rewrite (bind_ok _ _ _ _ _ Heq).
    apply try_catch_ok. rewrite bind_ret.
    rewrite (bind_ok _ _ _ _ _ Hrot), Hinner.
    rewrite (bind_ok _ _ _ _ _ Heq). reflexivity.
  - destruct (RollingFileLogger.m_pFileLogger r) as [inner|] eqn:Hinner.
    + destruct (FileLogger_logImpl_total E msg inner w) as (b & inner' & w2 & Heq & _).
      rewrite (bind_ok _ _ _ _ _ Heq).
      apply try_catch_ok. rewrite !bind_ret, Hinner.
      rewrite (bind_ok _ _ _ _ _ Heq). reflexivity.
    + apply try_catch_ok. rewrite !bind_ret, Hinner. reflexivity.
Qed.

Lemma forward_to_inner_total (E : Env) msg (r : RollingFileLogger.t) (w : World) :
  exists b r' w',
    forward_to_inner E msg r w = Ok (b, r') w'
    /\ same_rolling_settings r r'
    /\ RollingFileLogger.m_LastCreatedTime r' = RollingFileLogger.m_LastCreatedTime r
    /\ match RollingFileLogger.m_pFileLogger r with
       | Some inner =>
           exists inner',
             RollingFileLogger.m_pFileLogger r' = Some inner'
             /\ FileLogger.logImpl E msg inner w = Ok (b, inner') w'
       | None => b = false /\ r' = r /\ w' = w
       end.
Proof.
  unfold forward_to_inner.
  destruct (RollingFileLogger.m_pFileLogger r) as [inner|] eqn:Hinner.
  - destruct (FileLogger_logImpl_total E msg inner w) as (b & inner' & w' & Heq & _).
    rewrite (bind_ok _ _ _ _ _ Heq). unfold ret.
    eexists _, _, _. split; [reflexivity|]. split; [repeat split|].
    split; [reflexivity|]. exists inner'. auto.
  - unfold ret. exists false, r, w.
    split; [reflexivity|]. split; [apply same_rolling_settings_refl|]. auto.
Qed.

(** ** The flush policy *)

Lemma ulong_incr_nonneg (p : Z) : 0 <= ulong_incr p.
Proof. unfold ulong_incr, ULONG_MODULUS. apply Z.mod_pos_bound. lia. Qed.

Lemma ulong_incr_small (p : Z) : 0 <= p -> p + 1 < ULONG_MODULUS -> ulong_incr p = p + 1.
Proof. intros H0 H1. unfold ulong_incr. apply Z.mod_small. lia. Qed.

Lemma counter_step (p max : Z) :
  1 <= max ->
  0 <= (let n := ulong_incr p in if n >=? max then 0 else n) <= max - 1.
Proof.
  intros Hmax. cbv zeta. pose proof (ulong_incr_nonneg p).
  destruct (Z.geb_spec (ulong_incr p) max); lia.
Qed.

Lemma flush_inv_bound (s : Sink) :
  flush_inv s -> 0 <= Sink.pending s <= Sink.max_unflushed s - 1.
Proof.
  unfold flush_inv, counter_ok, Sink.pending, Sink.max_unflushed.
  destruct s as [x|x|x]; simpl; auto.
  intros [Hmax Hinner]. destruct (RollingFileLogger.m_pFileLogger x); [|lia].
  destruct Hinner as [<- H]. exact H.
Qed.

(** [logImpl] of the File sink keeps the counter below the threshold. *)
Lemma FileLogger_logImpl_keeps_counter (E : Env) msg (this this' : FileLogger.t)
    (w w' : World) (b : bool) :
  FileLogger.logImpl E msg this w = Ok (b, this') w' ->
  counter_ok (FileLogger.base this) ->
  counter_ok (FileLogger.base this')
  /\ Logger.m_MaxFlushNum (FileLogger.base this')
     = Logger.m_MaxFlushNum (FileLogger.base this).
Proof.
  intros Heq Hok.
  destruct (FileLogger_logImpl_total E msg this w)
    as (b0 & this0 & w0 & Heq0 & Hset & _ & _ & _ & _ & Hn).
  rewrite Heq in Heq0. injection Heq0 as <- <- <-.
  destruct Hset as (_ & _ & _ & _ & _ & Hmax). split; [|congruence].
  unfold counter_ok in *. rewrite <- Hmax.
  destruct Hn as [-> | [_ ->]]; [exact Hok|].
  apply counter_step. lia.
Qed.

Lemma RollingFileLogger_logImpl_keeps_inv (E : Env) msg (r : RollingFileLogger.t)
    (w : World) :
  flush_inv (RollingSink r) ->
  exists b r' w',
    RollingFileLogger.logImpl E msg r w = Ok (b, r') w'
    /\ flush_inv (RollingSink r')
    /\ RollingFileLogger.base r' = RollingFileLogger.base r.
Proof.
  intros Hinv.
  assert (Hforward : forall r0 w0,
    flush_inv (RollingSink r0) ->
    exists b r' w',
      forward_to_inner E msg r0 w0 = Ok (b, r') w'
      /\ flush_inv (RollingSink r')
      /\ RollingFileLogger.base r' = RollingFileLogger.base r0).
  { intros r0 w0 [Hmax Hin].
    destruct (forward_to_inner_total E msg r0 w0)
      as (b & r' & w' & Heq & (Hbase & _) & _ & Hcase).
    exists b, r', w'. split; [exact Heq|]. split; [|congruence].
    unfold flush_inv. rewrite <- Hbase. split; [exact Hmax|].
    destruct (RollingFileLogger.m_pFileLogger r0) as [inner|] eqn:Hi.
    - destruct Hcase as (inner' & -> & Hlog). destruct Hin as [Hm Hc].
      destruct (FileLogger_logImpl_keeps_counter _ _ _ _ _ _ _ Hlog Hc) as [Hc' Hm'].
      split; [congruence|exact Hc'].
    - destruct Hcase as (_ & -> & _). rewrite Hi. exact I. }
  pose proof (RollingFileLogger_logImpl_cases E msg r w) as Hcases.
  destruct (lock_error E) as [text|].
  - eexists _, _, _. split; [exact Hcases|]. auto.
  - destruct (rotation_due E r).
    + destruct Hcases as (r1 & w1 & Hrot & Heq).
      destruct (rotateFile_total E r w)
        as (r1' & inner & w1' & Hrot' & (Hbase & _) & _ & Hinner & Hfor & _).
      rewrite Hrot in Hrot'. injection Hrot' as <- <-.
      destruct (Hforward r1 w1) as (b & r' & w' & Hf & Hinv' & Hbase').
      { destruct Hinv as [Hmax _]. unfold flush_inv. rewrite <- Hbase, Hinner.
        destruct Hfor as (Hb & _). rewrite Hb. unfold counter_ok. simpl.
        split; [exact Hmax|]. split; [reflexivity|lia]. }
      exists b, r', w'. rewrite Heq. split; [exact Hf|]. split; [exact Hinv'|congruence].
    + rewrite Hcases. apply Hforward. exact Hinv.
Qed.

(** Every emit returns and keeps the invariant of the flush policy. *)
Lemma Sink_log_keeps_inv (E : Env) msg level (s : Sink) (w : World) :
  flush_inv s ->
  exists b s' w',
    Sink.log E msg level s w = Ok (b, s') w'
    /\ flush_inv s'
    /\ Sink.max_unflushed s' = Sink.max_unflushed s.
Proof.
  intros Hinv. unfold Sink.log, Logger.log.
  destruct (level_value level >=? _); [|exists false, s, w; auto].
  destruct s as [x|x|x]; unfold Sink.logImpl, Sink.lift.
  - unfold StdErrLogger.logImpl. unfold_monad.
    eexists _, _, _. split; [reflexivity|]. auto.
  - destruct (FileLogger_logImpl_total E msg x w) as (b & x' & w' & Heq & _).
    destruct (FileLogger_logImpl_keeps_counter _ _ _ _ _ _ _ Heq Hinv) as [Hc Hm].
    rewrite (bind_ok _ _ _ _ _ Heq). unfold ret.
    exists b, (FileSink x'), w'. auto.
  - destruct (RollingFileLogger_logImpl_keeps_inv E msg x w Hinv)
      as (b & x' & w' & Heq & Hinv' & Hbase).
    rewrite (bind_ok _ _ _ _ _ Heq). unfold ret.
    exists b, (RollingSink x'), w'. split; [reflexivity|]. split; [exact Hinv'|].
    unfold Sink.max_unflushed. simpl. congruence.
Qed.

Lemma emits_keep_inv (calls : list Call) (s : Sink) (w : World) :
  flush_inv s ->
  exists results s' w',
    emits calls s w = Ok (results, s') w'
    /\ flush_inv s'
    /\ Sink.max_unflushed s' = Sink.max_unflushed s.
Proof.
  revert s w. induction calls as [|c calls IH]; intros s w Hinv; simpl.
  - unfold ret. exists [], s, w. auto.
  - destruct (Sink_log_keeps_inv (call_env c) (call_msg c) (call_level c) s w Hinv)
      as (b & s1 & w1 & Heq & Hinv1 & Hmax1).
    destruct (IH s1 w1 Hinv1) as (bs & s2 & w2 & Heq2 & Hinv2 & Hmax2).
    rewrite (bind_ok _ _ _ _ _ Heq). rewrite (bind_ok _ _ _ _ _ Heq2). unfold ret.
    exists (b :: bs), s2, w2. split; [reflexivity|]. split; [exact Hinv2|congruence].
Qed.

(** ** Construction of the sink by [LogSys] *)

Lemma Logger_config_total (conf : LogConfig) (b : Logger.t) (w : World) :
  exists b' w',
    Logger.config conf b w = Ok (true, b') w'
    /\ Logger.m_NotFlushedNum b' = Logger.m_NotFlushedNum b.
Proof.
  unfold Logger.config. unfold_monad. cbv zeta.
  eexists _, _. split; [reflexivity|].
  destruct (getUnsigned conf TEXT_LOG_LEVEL) as [num|]; [|reflexivity].
  destruct (num <? _); reflexivity.
Qed.

Lemma createLoggerInterface_fresh (type : option ENUM_LOG_TYPE) (s : Sink) (w w' : World) :
  Sink.createLoggerInterface type w = Ok s w' -> fresh s /\ w' = w.
Proof.
  unfold Sink.createLoggerInterface, ret, throw.
  destruct type as [[| | |]|]; intros [= <- <-] || discriminate; repeat split.
Qed.

(** [createLoggerInterface] throws exactly on a destination that is none of
    the three sinks. *)
Lemma createLoggerInterface_wrong_type (type : option ENUM_LOG_TYPE) (w : World) :
  type <> Some TO_STDERR -> type <> Some TO_FILE -> type <> Some TO_ROLLING_FILE ->
  Sink.createLoggerInterface type w = Throw (std_exception "Wrong log type!") w.
Proof.
  intros H0 H1 H2. unfold Sink.createLoggerInterface.
  destruct type as [[| | |]|]; try congruence; reflexivity.
Qed.

Lemma Sink_config_fresh (conf : LogConfig) (s : Sink) (w : World) :
  fresh s ->
  exists r s' w', Sink.config conf s w = Ok (r, s') w' /\ fresh s'.
Proof.
  intros [Hn Hs]. unfold Sink.config, Sink.lift.
  destruct (Logger_config_total conf (Sink.base s) w) as (b' & w' & Heq & Hn').
  destruct s as [x|x|x]; simpl in *;
    unfold StdErrLogger.config, FileLogger.config, RollingFileLogger.config;
    unfold bind; rewrite Heq; cbv beta iota; unfold ret;
    eexists _, _, _; (split; [reflexivity|]); split; simpl; congruence.
Qed.

(** Opening a fresh sink establishes the invariant of the flush policy as
    soon as the threshold is at least 1. *)
Lemma Sink_open_fresh (E : Env) (s : Sink) (w : World) :
  fresh s ->
  exists r s' w',
    Sink.open E s w = Ok (r, s') w'
    /\ Sink.base s' = Sink.base s
    /\ (1 <= Sink.max_unflushed s' -> flush_inv s').
Proof.
  intros [Hn Hs]. unfold Sink.open, Sink.lift, Sink.max_unflushed.
  destruct s as [x|x|x]; simpl in *.
  - unfold StdErrLogger.open. unfold_monad. eexists _, _, _.
    split; [reflexivity|]. split; [reflexivity|].
    simpl. unfold counter_ok. rewrite Hn. lia.
  - destruct (FileLogger_open_total E x w) as (r & x' & w' & Heq & Hbase & _).
    rewrite (bind_ok _ _ _ _ _ Heq). unfold ret. eexists _, _, _.
    split; [reflexivity|]. split; [exact Hbase|].
    simpl. unfold counter_ok. rewrite Hbase, Hn. lia.
  - destruct (RollingFileLogger_open_total E x w)
      as (r & x' & inner & w' & Heq & (Hbase & _) & _ & Hinner & (Hb & _) & _).
    rewrite (bind_ok _ _ _ _ _ Heq). unfold ret. eexists _, _, _.
    split; [reflexivity|]. split; [simpl; congruence|].
    simpl. rewrite Hinner, Hb, <- Hbase. unfold counter_ok. simpl. lia.
Qed.

Lemma Sink_destroy_total (E : Env) (s : Sink) (w : World) :
  exists w', Sink.destroy E s w = Ok tt w'.
Proof.
  destruct s as [x|x|x]; simpl.
  - unfold StdErrLogger.destroy, StdErrLogger.close. unfold_monad. eauto.
  - apply FileLogger_destroy_total.
  - unfold RollingFileLogger.destroy.
    destruct (RollingFileLogger_close_total E x w) as (x' & w' & Heq & _).
    rewrite (bind_ok _ _ _ _ _ Heq).
    destruct (RollingFileLogger.m_pFileLogger x').
    + apply FileLogger_destroy_total.
    + unfold ret. eauto.
Qed.

(** The constructor of [LogSys], step by step: it returns an object only
    when the configuration was read, the destination named a sink and the
    sink was opened; every other way ends in an exception. *)
Lemma LogSys_new_cases (E : Env) (config_file : string) (w : World) :
  (exists e w', LogSys.new E config_file w = Throw e w'
     /\ (LogSys.read_config E config_file w = Throw e w'
         \/ exists conf wa,
              LogSys.read_config E config_file w = Ok conf wa
              /\ (Sink.createLoggerInterface
                    (log_type_of_value
                       (read_unsigned conf TEXT_LOG_DESTINATION (log_type_value TO_STDERR)))
                    wa = Throw e w'
                  \/ exists s0 r s1 wb s2 wc,
                       Sink.createLoggerInterface
                         (log_type_of_value
                            (read_unsigned conf TEXT_LOG_DESTINATION
                               (log_type_value TO_STDERR))) wa = Ok s0 wa
                       /\ Sink.config conf s0 wa = Ok (r, s1) wb
                       /\ Sink.open E s1 wb = Ok (false, s2) wc)))
  \/ (exists conf wa s0 r s1 wb s2 wc,
        LogSys.read_config E config_file w = Ok conf wa
        /\ Sink.createLoggerInterface
             (log_type_of_value
                (read_unsigned conf TEXT_LOG_DESTINATION (log_type_value TO_STDERR)))
             wa = Ok s0 wa
        /\ Sink.config conf s0 wa = Ok (r, s1) wb
        /\ Sink.open E s1 wb = Ok (true, s2) wc
        /\ fresh s1
        /\ LogSys.new E config_file w
           = Ok {| LogSys.m_LogConfig := conf; LogSys.m_pLogger := Some s2 |}
                (World.print (Diag "Log system initialized OK!") wc)).
Proof.
  unfold LogSys.new.
  destruct (LogSys.read_config E config_file w) as [conf wa|e wa] eqn:Hread.
  2:{ left. exists e, wa. rewrite (bind_throw _ _ _ _ _ Hread). auto. }
  rewrite (bind_ok _ _ _ _ _ Hread). cbv zeta.
  destruct (Sink.createLoggerInterface
              (log_type_of_value
                 (read_unsigned conf TEXT_LOG_DESTINATION (log_type_value TO_STDERR))) wa)
    as [s0 wa'|e wa'] eqn:Hcreate.
  2:{ left. exists e, wa'. rewrite (bind_throw _ _ _ _ _ Hcreate).
      split; [reflexivity|]. right. exists conf, wa. auto. }
  destruct (createLoggerInterface_fresh _ _ _ _ Hcreate) as [Hfresh ->].
  rewrite (bind_ok _ _ _ _ _ Hcreate).
  destruct (Sink_config_fresh conf s0 wa Hfresh) as (r & s1 & wb & Hconf & Hfresh1).
  rewrite (bind_ok _ _ _ _ _ Hconf).
  destruct (Sink_open_fresh E s1 wb Hfresh1) as (opened & s2 & wc & Hopen & _).
  rewrite (bind_ok _ _ _ _ _ Hopen).
  destruct opened; cbn [negb].
  - right. exists conf, wa, s0, r, s1, wb, s2, wc. repeat split; auto; apply Hfresh1.
  - left. destruct (Sink_destroy_total E s2 wc) as (wd & Hd).
    exists (std_exception "Failed to open log"), wd.
    rewrite (bind_ok _ _ _ _ _ Hd). split; [reflexivity|].
    right. exists conf, wa. split; [reflexivity|]. right.
    exists s0, r, s1, wb, s2, wc. auto.
Qed.

(** The sink of a [LogSys] that was constructed satisfies the invariant of
    the flush policy when its threshold is at least 1. *)
Lemma LogSys_new_inv (E : Env) (config_file : string) (w w' : World)
    (sys : LogSys.t) (s : Sink) :
  LogSys.new E config_file w = Ok sys w' ->
  LogSys.m_pLogger sys = Some s ->
  1 <= Sink.max_unflushed s ->
  flush_inv s.
Proof.
  intros Hnew Hs Hmax.
  destruct (LogSys_new_cases E config_file w)
    as [(e & w0 & Hthrow & _)|(conf & wa & s0 & r & s1 & wb & s2 & wc
                                & _ & _ & _ & Hopen & Hfresh & Heq)];
    [congruence|].
  rewrite Heq in Hnew. injection Hnew as <- <-. simpl in Hs. injection Hs as <-.
  destruct (Sink_open_fresh E s1 wb Hfresh) as (r' & s' & w1 & Hopen' & _ & Hinv).
  rewrite Hopen in Hopen'. injection Hopen' as <- <- <-. auto.
Qed.

(** One write on an open stream, with the counter below the threshold:
    the counter goes up by one, and when that reaches the threshold the
    stream is flushed and the counter is back at 0. *)
Lemma FileLogger_logImpl_step (E : Env) msg (this : FileLogger.t) (w : World) :
  (FileLogger.m_IsThreadSafe this = true -> lock_error E = None) ->
  FStream.is_open (FileLogger.m_File this) = true ->
  0 <= Logger.m_NotFlushedNum (FileLogger.base this)
    < Logger.m_MaxFlushNum (FileLogger.base this) ->
  Logger.m_MaxFlushNum (FileLogger.base this) < ULONG_MODULUS ->
  exists this' w',
    FileLogger.logImpl E msg this w
      = Ok (negb (FStream.bad (FileLogger.m_File this')), this') w'
    /\ Logger.m_MaxFlushNum (FileLogger.base this')
       = Logger.m_MaxFlushNum (FileLogger.base this)
    /\ (Logger.m_NotFlushedNum (FileLogger.base this) + 1
          < Logger.m_MaxFlushNum (FileLogger.base this) ->
        Logger.m_NotFlushedNum (FileLogger.base this')
          = Logger.m_NotFlushedNum (FileLogger.base this) + 1
        /\ FileLogger.m_File this' = FStream.write E msg (FileLogger.m_File this)
        /\ w' = w)
    /\ (Logger.m_NotFlushedNum (FileLogger.base this) + 1
          = Logger.m_MaxFlushNum (FileLogger.base this) ->
        Logger.m_NotFlushedNum (FileLogger.base this') = 0
        /\ FStream.flush E (FStream.write E msg (FileLogger.m_File this)) w
           = Ok (FileLogger.m_File this') w').
Proof.
  intros Hlock Hopen Hrange Hmax.
  destruct (FileLogger_logImpl_cases E msg this w) as [[Hcase _]|(text & Hsafe & Hl & _)];
    [|rewrite (Hlock Hsafe) in Hl; discriminate].
  destruct (writeLog_open E msg this w Hopen) as (this' & w' & Heq & Hset & _ & _ & Hn).
  exists this', w'. rewrite Hcase. split; [exact Heq|].
  destruct Hset as (_ & _ & _ & _ & _ & Hm). split; [congruence|].
  cbv zeta in Hn. rewrite ulong_incr_small in Hn by lia.
  destruct (Z.geb_spec (Logger.m_NotFlushedNum (FileLogger.base this) + 1)
              (Logger.m_MaxFlushNum (FileLogger.base this))).
  - split; [lia|]. intros _. exact Hn.
  - split; [intros _; exact Hn|lia].
Qed.

(** ** C3: the flush policy *)

(** C3. (1) A write of a File sink, or of the inner File sink of a Rolling
    sink (which takes no lock), on an open stream with the counter below a
    threshold of at least 1 adds one to the counter; when the counter
    reaches the threshold by that, the stream is flushed and the counter is
    set to 0.  (2) For the
    sink that [LogSys] constructed, of any kind, with a threshold of at
    least 1: every emit of any run returns, the threshold stays, and after
    it the counter is at most the threshold minus 1. *)
Theorem C3_flush_policy :
  (forall (E : Env) (msg : string) (this : FileLogger.t) (w : World),
     (FileLogger.m_IsThreadSafe this = true -> lock_error E = None) ->
     FStream.is_open (FileLogger.m_File this) = true ->
     0 <= Logger.m_NotFlushedNum (FileLogger.base this)
       < Logger.m_MaxFlushNum (FileLogger.base this) ->
     Logger.m_MaxFlushNum (FileLogger.base this) < ULONG_MODULUS ->
     exists this' w',
       FileLogger.logImpl E msg this w
         = Ok (negb (FStream.bad (FileLogger.m_File this')), this') w'
       /\ Logger.m_MaxFlushNum (FileLogger.base this')
          = Logger.m_MaxFlushNum (FileLogger.base this)
       /\ (Logger.m_NotFlushedNum (FileLogger.base this) + 1
             < Logger.m_MaxFlushNum (FileLogger.base this) ->
           Logger.m_NotFlushedNum (FileLogger.base this')
             = Logger.m_NotFlushedNum (FileLogger.base this) + 1
           /\ FileLogger.m_File this' = FStream.write E msg (FileLogger.m_File this)
           /\ w' = w)
       /\ (Logger.m_NotFlushedNum (FileLogger.base this) + 1
             = Logger.m_MaxFlushNum (FileLogger.base this) ->
           Logger.m_NotFlushedNum (FileLogger.base this') = 0
           /\ FStream.flush E (FStream.write E msg (FileLogger.m_File this)) w
              = Ok (FileLogger.m_File this') w'))
  /\ (forall (E0 : Env) (config_file : string) (w0 w1 : World) (sys : LogSys.t)
        (s : Sink) (calls : list Call),
        LogSys.new E0 config_file w0 = Ok sys w1 ->
        LogSys.m_pLogger sys = Some s ->
        1 <= Sink.max_unflushed s ->
        exists results s' w',
          emits calls s w1 = Ok (results, s') w'
          /\ Sink.max_unflushed s' = Sink.max_unflushed s
          /\ 0 <= Sink.pending s' <= Sink.max_unflushed s' - 1).
Proof.
  split.
  - exact FileLogger_logImpl_step.
  - intros E0 config_file w0 w1 sys s calls Hnew Hs Hmax.
    pose proof (LogSys_new_inv _ _ _ _ _ _ Hnew Hs Hmax) as Hinv.
    destruct (emits_keep_inv calls s w1 Hinv) as (results & s' & w' & Heq & Hinv' & Hm).
    exists results, s', w'. split; [exact Heq|]. split; [exact Hm|].
    apply flush_inv_bound. exact Hinv'.
Qed.

Lemma sample_file_sink_constructed :
  LogSys.new (all_well (mk_tm 124 0 15) (Some (sample_config 1 2))) "scribe.conf" World.empty
  = Ok {| LogSys.m_LogConfig := sample_config 1 2;
          LogSys.m_pLogger := Some sample_file_sink |} sample_file_world.
Proof. vm_compute. reflexivity. Qed.

Lemma C3_flush_policy_witness :
  1 <= Sink.max_unflushed sample_file_sink
  /\ exists results s' w',
       emits [mk_Call (all_well jan_15 None) "a" LOG_LEVEL_INFO;
              mk_Call (all_well jan_15 None) "b" LOG_LEVEL_INFO;
              mk_Call (all_well jan_15 None) "c" LOG_LEVEL_DEBUG]
         sample_file_sink sample_file_world
         = Ok (results, s') w'
       /\ Sink.max_unflushed s' = Sink.max_unflushed sample_file_sink
       /\ 0 <= Sink.pending s' <= Sink.max_unflushed s' - 1.
Proof.
  split; [vm_compute; discriminate|].
  apply (proj2 C3_flush_policy
           (all_well jan_15 (Some (sample_config 1 2))) "scribe.conf" World.empty
           sample_file_world
           {| LogSys.m_LogConfig := sample_config 1 2;
              LogSys.m_pLogger := Some sample_file_sink |}
           sample_file_sink);
    [vm_compute; reflexivity | reflexivity | vm_compute; discriminate].
Defined.

(** ** The Rolling sink when a rotation fails *)

Lemma sample_rolling_constructed :
  LogSys.new (all_well jan_15 (Some (sample_config 2 1))) "scribe.conf" World.empty
  = Ok {| LogSys.m_LogConfig := sample_config 2 1;
          LogSys.m_pLogger := Some (RollingSink sample_rolling) |} sample_rolling_world.
Proof. vm_compute. reflexivity. Qed.

(** Forwarding to an inner File sink that has no file open returns false
    and opens nothing. *)
Lemma forward_closed (E : Env) msg (r : RollingFileLogger.t) (w : World) :
  rolling_closed r ->
  exists r' w',
    forward_to_inner E msg r w = Ok (false, r') w'
    /\ rolling_closed r'
    /\ RollingFileLogger.m_LastCreatedTime r' = RollingFileLogger.m_LastCreatedTime r.
Proof.
  intros Hclosed.
  destruct (forward_to_inner_total E msg r w) as (b & r' & w' & Heq & _ & Htime & Hcase).
  unfold rolling_closed in *.
  destruct (RollingFileLogger.m_pFileLogger r) as [inner|] eqn:Hinner.
  - destruct Hcase as (inner' & Hinner' & Hlog).
    destruct (FileLogger_logImpl_total E msg inner w)
      as (b0 & inner0 & w0 & Heq0 & _ & Hfile & Hfalse & _).
    rewrite Hlog in Heq0. injection Heq0 as <- <- <-.
    rewrite (Hfalse Hclosed) in Heq. exists r', w'. split; [exact Heq|].
    split; [|exact Htime]. rewrite Hinner'.
    unfold FStream.is_open in *. rewrite Hfile. exact Hclosed.
  - destruct Hcase as (-> & -> & ->). exists r, w. rewrite Hinner. auto.
Qed.

(** An emit that does not re-open the sink returns false and leaves it
    closed, when the sink was closed before or when the emit is itself a
    rotation whose open fails. *)
Lemma rolling_log_no_reopen (c : Call) (r : RollingFileLogger.t) (w : World) :
  reopens c r w = false ->
  rolling_closed r
  \/ (level_value (Logger.m_Level (RollingFileLogger.base r)) <= level_value (call_level c)
      /\ lock_error (call_env c) = None
      /\ rotation_due (call_env c) r = true) ->
  exists r' w',
    RollingFileLogger.log (call_env c) (call_msg c) (call_level c) r w = Ok (false, r') w'
    /\ rolling_closed r'.
Proof.
  intros Hno Hstate. unfold reopens in Hno.
  unfold RollingFileLogger.log, Logger.log.
  destruct (Z.geb_spec (level_value (call_level c))
              (level_value (Logger.m_Level (RollingFileLogger.base r)))) as [Hlevel|Hlevel].
  2:{ exists r, w. split; [reflexivity|]. destruct Hstate as [H|[H _]]; [exact H|lia]. }
  pose proof (RollingFileLogger_logImpl_cases (call_env c) (call_msg c) r w) as Hcases.
  destruct (lock_error (call_env c)) as [text|] eqn:Hlock.
  { eexists _, _. split; [exact Hcases|].
    destruct Hstate as [H|(_ & H & _)]; [exact H|discriminate]. }
  rewrite bool_decide_eq_true_2 in Hno by reflexivity. cbn [andb] in Hno.
  destruct (rotation_due (call_env c) r) eqn:Hdue; cbn [andb] in Hno.
  - destruct Hcases as (r1 & w1 & Hrot & Heq).
    destruct (rotateFile_total (call_env c) r w)
      as (r1' & inner & w1' & Hrot' & _ & _ & Hinner & _ & _ & Hfail).
    rewrite Hrot in Hrot'. injection Hrot' as <- <-.
    destruct (forward_closed (call_env c) (call_msg c) r1 w1) as (r' & w' & Hf & Hc & _).
    { unfold rolling_closed. rewrite Hinner. apply Hfail. exact Hno. }
    exists r', w'. rewrite Heq. auto.
  - destruct Hstate as [Hclosed|(_ & _ & H)]; [|discriminate].
    destruct (forward_closed (call_env c) (call_msg c) r w Hclosed) as (r' & w' & Hf & Hc & _).
    exists r', w'. rewrite Hcases. auto.
Qed.

(** A run without a successful rotation on a closed sink: every emit
    returns false and the sink stays closed. *)
Lemma rolling_emits_stay_closed (calls : list Call) (r : RollingFileLogger.t) (w : World) :
  rolling_closed r ->
  never_reopens calls r w ->
  exists r' w',
    rolling_emits calls r w = Ok (replicate (List.length calls) false, r') w'
    /\ rolling_closed r'.
Proof.
  revert r w. induction calls as [|c calls IH]; intros r w Hclosed Hnever; simpl.
  - exists r, w. auto.
  - destruct Hnever as [Hno Hrest].
    destruct (rolling_log_no_reopen c r w Hno (or_introl Hclosed)) as (r1 & w1 & Heq & Hc1).
    rewrite Heq in Hrest. destruct (IH r1 w1 Hc1 Hrest) as (r2 & w2 & Heq2 & Hc2).
    rewrite (bind_ok _ _ _ _ _ Heq). rewrite (bind_ok _ _ _ _ _ Heq2).
    exists r2, w2. auto.
Qed.

(** A write on a stream that was just opened, when inserting and writing
    out work, returns true. *)
Lemma writeLog_fresh_stream (E : Env) msg (this : FileLogger.t) (w : World) (name : string) :
  FileLogger.m_File this
  = {| fs_file := Some name; fs_failbit := false; fs_badbit := false; fs_buffer := "" |} ->
  exists b this' w',
    FileLogger.writeLog E msg this w = Ok (b, this') w'
    /\ same_settings this this'
    /\ fs_file (FileLogger.m_File this') = Some name
    /\ (file_write_ok E name = true -> file_sync_ok E name = true -> b = true).
Proof.
  intros Hfile.
  assert (Hopen : FStream.is_open (FileLogger.m_File this) = true) by (rewrite Hfile; reflexivity).
  destruct (writeLog_open E msg this w Hopen) as (this' & w' & Heq & Hset & Hf & _ & Hn).
  exists (negb (FStream.bad (FileLogger.m_File this'))), this', w'.
  split; [exact Heq|]. split; [exact Hset|]. split; [rewrite Hf, Hfile; reflexivity|].
  intros Hw Hs. apply negb_true_iff. cbv zeta in Hn.
  assert (Hname : fs_file (FileLogger.m_File this) = Some name) by (rewrite Hfile; reflexivity).
  assert (Hgood : FStream.good (FileLogger.m_File this) = true) by (rewrite Hfile; reflexivity).
  pose proof (write_good E msg _ name Hname Hgood Hw) as Hwrite.
  destruct (ulong_incr _ >=? _).
  - destruct Hn as [_ Hflush].
    destruct (flush_total E (FStream.write E msg (FileLogger.m_File this)) w)
      as (f2 & w2 & Hflush' & _ & _ & _ & _ & Hok).
    rewrite Hflush in Hflush'. injection Hflush' as <- <-.
    destruct (Hok name) as (Hbad & _); [rewrite Hwrite; reflexivity|exact Hs|].
    rewrite Hbad, Hwrite. reflexivity.
  - destruct Hn as (_ & -> & _). rewrite Hwrite. reflexivity.
Qed.

(** An emit whose rotation succeeds leaves the sink open on the file of
    today, and returns true when the write works. *)
Lemma rolling_log_reopen (c : Call) (r : RollingFileLogger.t) (w : World) :
  reopens c r w = true ->
  exists b r' w',
    RollingFileLogger.log (call_env c) (call_msg c) (call_level c) r w = Ok (b, r') w'
    /\ rolling_open_on r' (now (call_env c))
    /\ (forall inner,
          RollingFileLogger.m_pFileLogger r' = Some inner ->
          file_write_ok (call_env c) (FileLogger.getFullFileName inner) = true ->
          file_sync_ok (call_env c) (FileLogger.getFullFileName inner) = true ->
          b = true).
Proof.
  unfold reopens. intros Hre.
  apply andb_true_iff in Hre as [Hre Hopens]. apply andb_true_iff in Hre as [Hre Hdue].
  apply andb_true_iff in Hre as [Hlevel Hlock]. apply bool_decide_eq_true in Hlock.
  unfold RollingFileLogger.log, Logger.log. rewrite Hlevel.
  pose proof (RollingFileLogger_logImpl_cases (call_env c) (call_msg c) r w) as Hcases.
  rewrite Hlock, Hdue in Hcases. destruct Hcases as (r1 & w1 & Hrot & Heq).
  destruct (rotateFile_total (call_env c) r w)
    as (r1' & inner & w1' & Hrot' & Hset & Htime & Hinner & Hfor & Hok & _).
  rewrite Hrot in Hrot'. injection Hrot' as <- <-.
  specialize (Hok Hopens).
  destruct (forward_to_inner_total (call_env c) (call_msg c) r1 w1)
    as (b & r' & w' & Hf & Hset' & Htime' & Hcase).
  rewrite Hinner in Hcase. destruct Hcase as (inner' & Hinner' & Hlog).
  destruct (FileLogger_logImpl_cases (call_env c) (call_msg c) inner w1)
    as [[Hwrite _]|(text & Hsafe & _)].
  2:{ destruct Hfor as (_ & _ & _ & _ & Hunsafe). congruence. }
  destruct (writeLog_fresh_stream (call_env c) (call_msg c) inner w1 _ Hok)
    as (b0 & inner0 & w0 & Hw & Hsame & Hfile & Htrue).
  rewrite Hwrite, Hw in Hlog. injection Hlog as <- <- <-.
  assert (Hname : FileLogger.getFullFileName inner0 = FileLogger.getFullFileName inner).
  { destruct Hsame as (Hp & Hb & Hs & _). unfold FileLogger.getFullFileName.
    rewrite Hp, Hb, Hs. reflexivity. }
  exists b0, r', w0. rewrite Heq. split; [exact Hf|]. split.
  - unfold rolling_open_on. split; [congruence|]. exists inner0.
    split; [exact Hinner'|].
    pose proof (same_rolling_settings_trans _ _ _ Hset Hset') as (_ & Hp & Hb & Hs).
    destruct Hfor as (_ & Hfp & Hfb & Hfs & _).
    destruct Hsame as (Hp' & Hb' & Hs' & _).
    split; [congruence|]. split.
    + rewrite <- Hb', Hfb. unfold RollingFileLogger.getFileNameByDate. rewrite Hb. reflexivity.
    + split; [congruence|]. rewrite Hfile, Hname. reflexivity.
  - intros i Hi. rewrite Hinner' in Hi. injection Hi as <-. rewrite Hname. exact Htrue.
Qed.

(** What decides the result of [FileLogger::open]: the directory and the
    file. *)
Lemma FileLogger_open_result (E : Env) (this : FileLogger.t) (w : World) :
  exists this' w',
    FileLogger.open E this w
    = Ok (directory_ready E (FileLogger.m_FilePath this)
          && file_open_ok E (FileLogger.getFullFileName this), this') w'.
Proof.
  unfold FileLogger.open, directory_ready.
  assert (Hdir : exists w0,
    FileLogger.ensure_directory E this w
    = Ok (match fs_exists E (FileLogger.m_FilePath this) with
          | FsTrue => true
          | FsFalse =>
              match fs_create_directories E (FileLogger.m_FilePath this) with
              | FsTrue => true
              | _ => false
              end
          | FsThrows _ => false
          end) w0).
  { unfold FileLogger.ensure_directory. unfold_monad.
    destruct (fs_exists E _); [eauto| |eauto].
    destruct (fs_create_directories E _); eauto. }
  destruct Hdir as (w0 & Hdir). rewrite (bind_ok _ _ _ _ _ Hdir).
  destruct (match fs_exists E (FileLogger.m_FilePath this) with
            | FsTrue => true
            | FsFalse => _
            | FsThrows _ => false
            end); cbn [negb andb]; [|unfold ret; eauto].
  destruct (FileLogger_close_total E this w0)
    as (this1 & w1 & Hclose & _ & Hset & Hclosed & _).
  rewrite (bind_ok _ _ _ _ _ Hclose).
  assert (Hnone : fs_file (FileLogger.m_File this1) = None).
  { unfold FStream.is_open in Hclosed. destruct (fs_file _); [discriminate|reflexivity]. }
  assert (Hname : FileLogger.getFullFileName this1 = FileLogger.getFullFileName this).
  { destruct Hset as (Hp & Hb & Hs & _). unfold FileLogger.getFullFileName.
    rewrite Hp, Hb, Hs. reflexivity. }
  destruct (open_closed_stream E (FileLogger.getFullFileName this1)
              (FileLogger.m_File this1) w1 Hnone) as (f & w2 & Hopen & _ & Hf).
  rewrite (bind_ok _ _ _ _ _ Hopen). cbv zeta.
  cbn [FileLogger.m_File FileLogger.set_File]. rewrite Hname in Hf.
  destruct (file_open_ok E (FileLogger.getFullFileName this)).
  - subst f. cbn [FStream.good fs_failbit fs_badbit negb andb]. unfold_monad. eauto.
  - destruct Hf as [_ Hgood]. rewrite Hgood. cbn [negb]. unfold_monad. eauto.
Qed.

(** The open of a rotation fails exactly when the directory is missing and
    cannot be created, or the file of today cannot be opened. *)
Lemma rotation_opens_spec (E : Env) (r : RollingFileLogger.t) (w : World) :
  rotation_opens E r w
  = directory_ready E (RollingFileLogger.m_FilePath r) && file_open_ok E (todays_file E r).
Proof.
  unfold rotation_opens, todays_file.
  destruct (RollingFileLogger_close_total E r w) as (r1 & w1 & Hclose & Hset & _ & _).
  rewrite (bind_ok _ _ _ _ _ Hclose).
  destruct Hset as (Hbase & Hp & Hb & Hs).
  unfold RollingFileLogger.open. cbv zeta.
  cbn [RollingFileLogger.m_pFileLogger RollingFileLogger.set_LastCreatedTime
       RollingFileLogger.m_FilePath RollingFileLogger.m_FileSuffix RollingFileLogger.base
       RollingFileLogger.m_LastCreatedTime].
  assert (Hold : exists w0,
    (match RollingFileLogger.m_pFileLogger r1 with
     | Some old => FileLogger.destroy E old
     | None => ret tt
     end) w1 = Ok tt w0).
  { destruct (RollingFileLogger.m_pFileLogger r1) as [old|].
    - apply FileLogger_destroy_total.
    - unfold ret. eauto. }
  destruct Hold as (w0 & Hold). rewrite (bind_ok _ _ _ _ _ Hold).
  match goal with |- context [FileLogger.open E ?fresh] =>
    destruct (FileLogger_open_result E fresh w0) as (inner & w2 & Hopen);
    rewrite (bind_ok _ _ _ _ _ Hopen)
  end.
  unfold ret, Logger.getLevel, RollingFileLogger.getCurrentDate.
  unfold FileLogger.new, FileLogger.getFullFileName, RollingFileLogger.getFileNameByDate.
  cbn [FileLogger.m_FilePath FileLogger.m_FileBaseName FileLogger.m_FileSuffix
       RollingFileLogger.m_FileBaseName].
  rewrite Hp, Hb, Hs. reflexivity.
Qed.

(** ** C8: a rotation that fails *)

(** C8. When an emit of the Rolling sink passes the level gate, rotates and
    the open of the rotation fails, the emit returns false and the sink is
    left closed; every emit of a later run in which no rotation succeeds
    returns false and leaves it closed; the first emit after that whose
    rotation succeeds leaves the sink open on the file of its day and
    returns true when its write works. *)
Theorem C8_failed_rotation_leaves_closed (c : Call) (r : RollingFileLogger.t) (w : World) :
  level_value (Logger.m_Level (RollingFileLogger.base r)) <= level_value (call_level c) ->
  lock_error (call_env c) = None ->
  rotation_due (call_env c) r = true ->
  rotation_opens (call_env c) r w = false ->
  exists r1 w1,
    RollingFileLogger.log (call_env c) (call_msg c) (call_level c) r w = Ok (false, r1) w1
    /\ rolling_closed r1
    /\ forall calls : list Call,
         never_reopens calls r1 w1 ->
         exists r2 w2,
           rolling_emits calls r1 w1 = Ok (replicate (List.length calls) false, r2) w2
           /\ rolling_closed r2
           /\ forall c' : Call,
                reopens c' r2 w2 = true ->
                exists b r3 w3,
                  RollingFileLogger.log (call_env c') (call_msg c') (call_level c') r2 w2
                  = Ok (b, r3) w3
                  /\ rolling_open_on r3 (now (call_env c'))
                  /\ (forall inner,
                        RollingFileLogger.m_pFileLogger r3 = Some inner ->
                        file_write_ok (call_env c') (FileLogger.getFullFileName inner) = true ->
                        file_sync_ok (call_env c') (FileLogger.getFullFileName inner) = true ->
                        b = true).
Proof.
  intros Hlevel Hlock Hdue Hfail.
  assert (Hno : reopens c r w = false).
  { unfold reopens. rewrite Hfail. apply andb_false_r. }
  destruct (rolling_log_no_reopen c r w Hno) as (r1 & w1 & Heq & Hclosed); [right; auto|].
  exists r1, w1. split; [exact Heq|]. split; [exact Hclosed|].
  intros calls Hnever.
  destruct (rolling_emits_stay_closed calls r1 w1 Hclosed Hnever) as (r2 & w2 & Hrun & Hc2).
  exists r2, w2. split; [exact Hrun|]. split; [exact Hc2|].
  intros c' Hre. apply rolling_log_reopen. exact Hre.
Qed.

Lemma C8_failed_rotation_witness :
  exists r1 w1,
    RollingFileLogger.log (no_file_opens jan_16) "x" LOG_LEVEL_INFO
      sample_rolling sample_rolling_world = Ok (false, r1) w1
    /\ rolling_closed r1
    /\ forall calls : list Call,
         never_reopens calls r1 w1 ->
         exists r2 w2,
           rolling_emits calls r1 w1 = Ok (replicate (List.length calls) false, r2) w2
           /\ rolling_closed r2
           /\ forall c' : Call,
                reopens c' r2 w2 = true ->
                exists b r3 w3,
                  RollingFileLogger.log (call_env c') (call_msg c') (call_level c') r2 w2
                  = Ok (b, r3) w3
                  /\ rolling_open_on r3 (now (call_env c'))
                  /\ (forall inner,
                        RollingFileLogger.m_pFileLogger r3 = Some inner ->
                        file_write_ok (call_env c') (FileLogger.getFullFileName inner) = true ->
                        file_sync_ok (call_env c') (FileLogger.getFullFileName inner) = true ->
                        b = true).
Proof.
  apply (C8_failed_rotation_leaves_closed
           (mk_Call (no_file_opens jan_16) "x" LOG_LEVEL_INFO)
           sample_rolling sample_rolling_world).
  - vm_compute. discriminate.
  - reflexivity.
  - vm_compute. reflexivity.
  - vm_compute. reflexivity.
Defined.

(** ** C1: the day test of the Rolling sink *)

(** C1, at the input where the code departs from it.  The sink is open on
    the file of 2024-01-15 and the next emit comes on 2024-02-15, another
    calendar day with the same day of the month: [logImpl] compares
    [tm_mday] only, does not rotate, keeps [m_LastCreatedTime] and writes
    the message to the file of 2024-01-15; no file of 2024-02-15 exists. *)
Lemma C1_same_day_of_month_is_not_rotated :
  same_calendar_day jan_15 feb_15 = false
  /\ rolling_open_on sample_rolling jan_15
  /\ exists r w,
       RollingFileLogger.log (all_well feb_15 None) "b" LOG_LEVEL_INFO
         sample_rolling sample_rolling_world = Ok (true, r) w
       /\ rolling_open_on r jan_15
       /\ World.content w "/tmp/log/log-2024-01-15" = "b"
       /\ disk w !! "/tmp/log/log-2024-02-15" = None.
Proof.
  split; [reflexivity|]. split.
  { split; [reflexivity|]. eexists. repeat split. }
  eexists _, _. split; [vm_compute; reflexivity|].
  split; [|split; vm_compute; reflexivity].
  split; [reflexivity|]. eexists. repeat split.
Qed.

(** The same sink one day later: the day of the month differs and the emit
    rotates. *)
Lemma rotation_on_the_next_day :
  exists r w,
    RollingFileLogger.log (all_well jan_16 None) "b" LOG_LEVEL_INFO
      sample_rolling sample_rolling_world = Ok (true, r) w
    /\ rolling_open_on r jan_16
    /\ World.content w "/tmp/log/log-2024-01-15" = ""
    /\ World.content w "/tmp/log/log-2024-01-16" = "b".
Proof.
  eexists _, _. split; [vm_compute; reflexivity|].
  split; [|split; vm_compute; reflexivity].
  split; [reflexivity|]. eexists. repeat split.
Qed.

(** ** Two scenarios of the specification, run on the model *)

(** File append: [log_dest=1], [num_logs_to_flush=2]; after the second emit
    both messages are in the file and nothing is left to flush; a message
    below the level leaves no trace. *)
Lemma file_append_scenario :
  exists s w,
    emits [mk_Call (all_well jan_15 None) "a" LOG_LEVEL_INFO;
           mk_Call (all_well jan_15 None) "dbg" LOG_LEVEL_DEBUG;
           mk_Call (all_well jan_15 None) "b" LOG_LEVEL_INFO]
      sample_file_sink sample_file_world = Ok ([true; false; true], s) w
    /\ World.content w "/tmp/log/log" = "ab"
    /\ Sink.pending s = 0.
Proof.
  eexists _, _. split; [vm_compute; reflexivity|].
  split; vm_compute; reflexivity.
Qed.

(** Rolling rotation over a month boundary on which the day of the month
    changes: from 2024-01-31 to 2024-02-01. *)
Lemma month_boundary_scenario :
  exists sys w1 g2 w2 g3 w3,
    LogSys.new (all_well (mk_tm 124 0 31) (Some (sample_config 2 1))) "scribe.conf" World.empty
      = Ok sys w1
    /\ LOG_OUT (all_well (mk_tm 124 0 31) None) "a" LOG_LEVEL_INFO (Some sys) w1 = Ok g2 w2
    /\ LOG_OUT (all_well (mk_tm 124 1 1) None) "b" LOG_LEVEL_INFO g2 w2 = Ok g3 w3
    /\ World.content w3 "/tmp/log/log-2024-01-31" = "a"
    /\ World.content w3 "/tmp/log/log-2024-02-01" = "b".
Proof.
  eexists _, _, _, _, _, _.
  split; [vm_compute; reflexivity|]. split; [vm_compute; reflexivity|].
  split; [vm_compute; reflexivity|]. split; vm_compute; reflexivity.
Qed.

(** ** The singleton *)

(** [initialize] on an empty slot: the object when the constructor
    returns, false and an empty slot when it throws. *)
Lemma initialize_none_cases (E : Env) (config_file : string) (w : World) :
  (exists sys w',
     LogSys.new E config_file w = Ok sys w'
     /\ LogSys.initialize E config_file None w = Ok (true, Some sys) w')
  \/ (exists e w',
        LogSys.new E config_file w = Throw e w'
        /\ LogSys.initialize E config_file None w
           = Ok (false, None) (World.print (Diag ("Exception: " +:+ what e)) w')).
Proof.
  unfold LogSys.initialize.
  destruct (LogSys.new E config_file w) as [sys w'|e w'] eqn:Hnew.
  - left. exists sys, w'. split; [reflexivity|].
    apply try_catch_ok. rewrite (bind_ok _ _ _ _ _ Hnew). reflexivity.
  - right. exists e, w'. split; [reflexivity|].
    rewrite (try_catch_throw _ _ _ _ _ (bind_throw _ _ _ _ _ Hnew)). reflexivity.
Qed.

Lemma initialize_some (E : Env) (config_file : string) (sys : LogSys.t) (w : World) :
  LogSys.initialize E config_file (Some sys) w = Ok (true, Some sys) w.
Proof. reflexivity. Qed.

(** Each reason of failure makes the constructor throw. *)
Lemma init_failure_throws (E : Env) (config_file : string) (w : World) :
  init_failure E config_file w ->
  exists e w', LogSys.new E config_file w = Throw e w'.
Proof.
  intros Hfail.
  destruct (LogSys_new_cases E config_file w)
    as [(e & w' & Hthrow & _)|(conf & wa & s0 & r & s1 & wb & s2 & wc
                                & Hread & Hcreate & Hconf & Hopen & _ & _)];
    [eauto|].
  exfalso. destruct Hfail as [Hempty Hparse|conf' wa' Hread' H0 H1 H2
                             |conf' wa' wb' wc' s0' s1' s2' r' Hread' Hcreate' Hconf' Hopen'].
  - unfold LogSys.read_config in Hread. rewrite Hempty, Hparse in Hread.
    unfold_monad. discriminate.
  - rewrite Hread in Hread'. injection Hread' as <- <-.
    rewrite (createLoggerInterface_wrong_type _ wa H0 H1 H2) in Hcreate. discriminate.
  - rewrite Hread in Hread'. injection Hread' as <- <-.
    rewrite Hcreate in Hcreate'. injection Hcreate' as <-.
    rewrite Hconf in Hconf'. injection Hconf' as <- <- <-.
    rewrite Hopen in Hopen'. discriminate.
Qed.

(** And the constructor throws for one of these reasons only. *)
Lemma throw_is_init_failure (E : Env) (config_file : string) (w w' : World) (e : exn) :
  LogSys.new E config_file w = Throw e w' -> init_failure E config_file w.
Proof.
  intros Hthrow.
  destruct (LogSys_new_cases E config_file w)
    as [(e0 & w0 & _ & Hwhy)|(conf & wa & s0 & r & s1 & wb & s2 & wc & _ & _ & _ & _ & _ & Heq)];
    [|congruence].
  destruct Hwhy as [Hread|(conf & wa & Hread & [Hcreate|Hopen])].
  - unfold LogSys.read_config in Hread. unfold_monad.
    destruct (Str.empty config_file) eqn:Hempty; [discriminate|].
    destruct (parseConfig E config_file) eqn:Hparse; [discriminate|].
    apply parse_failure; assumption.
  - apply (unknown_destination E config_file w conf wa Hread);
      intros Ht; rewrite Ht in Hcreate; discriminate.
  - destruct Hopen as (s0 & r & s1 & wb & s2 & wc & Hcreate & Hconf & Hopen).
    exact (sink_not_opened E config_file w conf wa wb wc s0 s1 s2 r Hread Hcreate Hconf Hopen).
Qed.

(** ** C6: a second [init] *)

(** C6. When the singleton exists, [init] returns success and changes
    nothing: no configuration file is parsed, nothing is printed, and the
    singleton, with its sink and the state of that sink, is the one that
    was there.  In particular a second [init] after a successful one
    returns success and keeps the sink of the first. *)
Theorem C6_init_idempotent :
  (forall (E : Env) (config_file : string) (sys : LogSys.t) (w : World),
     exists w',
       LOG_SYS_INIT E config_file (Some sys) w = Ok (true, Some sys) w'
       /\ parsed w' = parsed w
       /\ w' = w)
  /\ (forall (E1 E2 : Env) (file1 file2 : string) (w w1 : World) (g : option LogSys.t),
        LOG_SYS_INIT E1 file1 None w = Ok (true, g) w1 ->
        LOG_SYS_INIT E2 file2 g w1 = Ok (true, g) w1).
Proof.
  split.
  - intros E config_file sys w. exists w. auto.
  - intros E1 E2 file1 file2 w w1 g Hfirst. unfold LOG_SYS_INIT in *.
    destruct (initialize_none_cases E1 file1 w)
      as [(sys & w' & _ & Heq)|(e & w' & _ & Heq)];
      rewrite Heq in Hfirst; [|discriminate].
    injection Hfirst as <- <-. apply initialize_some.
Qed.

Lemma C6_init_idempotent_witness :
  LOG_SYS_INIT (all_well jan_16 (Some (sample_config 0 7))) "other.conf"
    (Some {| LogSys.m_LogConfig := sample_config 2 1;
             LogSys.m_pLogger := Some (RollingSink sample_rolling) |})
    sample_rolling_world
  = Ok (true, Some {| LogSys.m_LogConfig := sample_config 2 1;
                      LogSys.m_pLogger := Some (RollingSink sample_rolling) |})
       sample_rolling_world.
Proof.
  apply (proj2 C6_init_idempotent (all_well jan_15 (Some (sample_config 2 1)))
           (all_well jan_16 (Some (sample_config 0 7))) "scribe.conf" "other.conf"
           World.empty).
  vm_compute. reflexivity.
Defined.

(** ** C7: a failed [init] *)

(** C7. [init] on an empty slot always returns, without an exception.
    When it fails for one of its reasons (the configuration file cannot be
    parsed, [log_dest] names no sink once it is converted to the 32 bits
    of the enumeration, the sink cannot be opened) it returns false and the
    slot stays empty; whenever it returns false the slot is empty and one
    of these reasons holds.  A log call on an empty slot changes nothing
    and prints nothing. *)
Theorem C7_failed_init_installs_nothing (E : Env) (config_file : string) (w : World) :
  (exists b g w', LOG_SYS_INIT E config_file None w = Ok (b, g) w')
  /\ (init_failure E config_file w ->
      exists w', LOG_SYS_INIT E config_file None w = Ok (false, None) w')
  /\ (forall g w',
        LOG_SYS_INIT E config_file None w = Ok (false, g) w' ->
        g = None /\ init_failure E config_file w)
  /\ (forall (E' : Env) (msg : string) (level : ENUM_LOG_LEVEL) (w' : World),
        LOG_OUT E' msg level None w' = Ok None w').
Proof.
  unfold LOG_SYS_INIT.
  destruct (initialize_none_cases E config_file w)
    as [(sys & w1 & Hnew & Heq)|(e & w1 & Hnew & Heq)]; rewrite Heq.
  - split; [eauto|]. split.
    + intros Hfail. destruct (init_failure_throws E config_file w Hfail) as (e & w' & Ht).
      congruence.
    + split; [intros g w' [=]|reflexivity].
  - split; [eauto|]. split; [eauto|]. split; [|reflexivity].
    intros g w' [= <- <-]. split; [reflexivity|].
    eapply throw_is_init_failure. exact Hnew.
Qed.

Lemma C7_failed_init_witness :
  init_failure (all_well jan_15 None) "scribe.conf" World.empty
  /\ exists w',
       LOG_SYS_INIT (all_well jan_15 None) "scribe.conf" None World.empty
       = Ok (false, None) w'.
Proof.
  assert (H : init_failure (all_well jan_15 None) "scribe.conf" World.empty)
    by (apply parse_failure; reflexivity).
  split; [exact H|].
  exact (proj1 (proj2 (C7_failed_init_installs_nothing
                         (all_well jan_15 None) "scribe.conf" World.empty)) H).
Defined.

(* ===================================================================== *)
(** * Further properties of the code *)
(* ===================================================================== *)

(** ** The contents of the files *)

Lemma content_append_eq (name bytes : string) (w : World) :
  World.content (World.append name bytes w) name = World.content w name +:+ bytes.
Proof. unfold World.content, World.append. simpl. rewrite lookup_insert_eq. reflexivity. Qed.

Lemma content_append_ne (name other bytes : string) (w : World) :
  name <> other ->
  World.content (World.append name bytes w) other = World.content w other.
Proof.
  intros Hne. unfold World.content, World.append. simpl.
  rewrite lookup_insert_ne by exact Hne. reflexivity.
Qed.

(** Appending nothing changes the content of no file. *)
Lemma content_append_nothing (name other : string) (w : World) :
  World.content (World.append name "" w) other = World.content w other.
Proof.
  destruct (decide (name = other)) as [<-|Hne].
  - rewrite content_append_eq. apply sapp_nil_r.
  - apply content_append_ne. exact Hne.
Qed.

(** ** The Stderr sink *)

(** [c_str] stops at the first NUL. *)
Lemma c_str_stops_at_nul (before after : string) :
  Str.c_str (before +:+ String zero after) = Str.c_str before.
Proof.
  induction before as [|c before IH].
  - reflexivity.
  - rewrite sapp_cons. simpl. destruct (Ascii.eqb c zero); [reflexivity|].
    rewrite IH. reflexivity.
Qed.

Lemma c_str_idempotent (s : string) : Str.c_str (Str.c_str s) = Str.c_str s.
Proof.
  induction s as [|c s IH]; [reflexivity|]. simpl.
  destruct (Ascii.eqb c zero) eqn:Hc; [reflexivity|]. simpl. rewrite Hc, IH. reflexivity.
Qed.

Lemma StdErr_log_step (E : Env) (c : Call) (x : StdErrLogger.t) (w : World) :
  Sink.log E (call_msg c) (call_level c) (StdErrSink x) w
  = Ok (passes (Logger.m_Level (StdErrLogger.base x)) c, StdErrSink x)
       (if passes (Logger.m_Level (StdErrLogger.base x)) c
        then World.print (Raw (Str.c_str (call_msg c))) w else w).
Proof.
  unfold Sink.log, Logger.log, passes. simpl.
  destruct (level_value (call_level c) >=? _); reflexivity.
Qed.

(** X1. A run of emits on the Stderr sink: an emit returns true exactly
    when it passes the level gate; the standard error stream receives the
    messages that pass, each up to its first NUL, in the order of the
    calls; the files and the sink are unchanged.  The surroundings play no
    part. *)
Theorem X1_stderr_emits_in_order (calls : list Call) (x : StdErrLogger.t) (w : World) :
  exists w',
    emits calls (StdErrSink x) w
    = Ok (map (passes (Logger.m_Level (StdErrLogger.base x))) calls, StdErrSink x) w'
    /\ stderr w'
       = (stderr w
          ++ map (fun c => Raw (Str.c_str (call_msg c)))
               (filter (fun c => passes (Logger.m_Level (StdErrLogger.base x)) c = true)
                  calls))%list
    /\ disk w' = disk w.
Proof.
  revert w. induction calls as [|c calls IH]; intros w.
  - exists w. simpl. rewrite List.app_nil_r. auto.
  - simpl emits. rewrite (bind_ok _ _ _ _ _ (StdErr_log_step (call_env c) c x w)).
    destruct (IH (if passes (Logger.m_Level (StdErrLogger.base x)) c
                  then World.print (Raw (Str.c_str (call_msg c))) w else w))
      as (w' & Heq & Herr & Hdisk).
    rewrite (bind_ok _ _ _ _ _ Heq). exists w'. split; [reflexivity|].
    rewrite Herr, Hdisk. rewrite filter_cons.
    destruct (passes (Logger.m_Level (StdErrLogger.base x)) c) eqn:Hp.
    + rewrite decide_True by reflexivity. simpl. rewrite <- List.app_assoc. auto.
    + rewrite decide_False by discriminate. auto.
Qed.

(** X2. The Stderr sink prints a message up to its first NUL only: what
    follows a NUL in the message never reaches the stream. *)
Theorem X2_stderr_message_cut_at_nul (E : Env) (before after : string)
    (level : ENUM_LOG_LEVEL) (x : StdErrLogger.t) (w : World) :
  level_value (Logger.m_Level (StdErrLogger.base x)) <= level_value level ->
  Sink.log E (before +:+ String zero after) level (StdErrSink x) w
  = Ok (true, StdErrSink x) (World.print (Raw (Str.c_str before)) w).
Proof.
  intros Hlevel.
  pose proof (StdErr_log_step E (mk_Call E (before +:+ String zero after) level) x w) as H.
  simpl in H. rewrite H. unfold passes. simpl.
  destruct (Z.geb_spec (level_value level) (level_value (Logger.m_Level (StdErrLogger.base x))));
    [|lia].
  rewrite c_str_stops_at_nul. reflexivity.
Qed.

Lemma X2_stderr_message_cut_witness :
  Sink.log (all_well jan_15 None) ("ab" +:+ String zero "cd") LOG_LEVEL_ERROR
    (StdErrSink StdErrLogger.new_default) World.empty
  = Ok (true, StdErrSink StdErrLogger.new_default)
       (World.print (Raw (Str.c_str "ab")) World.empty).
Proof.
  apply (X2_stderr_message_cut_at_nul (all_well jan_15 None) "ab" "cd" LOG_LEVEL_ERROR
           StdErrLogger.new_default World.empty).
  vm_compute. discriminate.
Defined.

(** ** The full path for a directory that ends in '/' *)

(** X3. When the directory ends in '/', [getFullFileName] adds no second
    '/': the full path is the directory, the base name and the suffix
    under the suffix rule. *)
Theorem X3_full_file_name_trailing_slash (this : FileLogger.t) :
  Str.last (FileLogger.m_FilePath this) = Some "/"%char ->
  FileLogger.getFullFileName this =
  FileLogger.m_FilePath this +:+ FileLogger.m_FileBaseName this
    +:+ spec_suffix (FileLogger.m_FileSuffix this).
Proof.
  intros Hslash. unfold FileLogger.getFullFileName. rewrite suffix_branch.
  assert (Hdir : FileLogger.m_FilePath this <> "")
    by (intros Heq; rewrite Heq in Hslash; discriminate).
  rewrite <- at_last in Hslash by exact Hdir.
  destruct (FileLogger.m_FilePath this) as [|c dir] eqn:Hpath; [congruence|].
  cbn [Str.empty negb]. rewrite bool_decide_eq_true_2 by exact Hslash.
  cbn [negb]. rewrite sapp_nil_l, !sapp_assoc. reflexivity.
Qed.

Lemma X3_full_file_name_trailing_slash_witness :
  FileLogger.getFullFileName (FileLogger.new "/tmp/t/" "app" "txt" LOG_LEVEL_INFO 1 true)
  = "/tmp/t/" +:+ "app" +:+ spec_suffix "txt".
Proof.
  apply (X3_full_file_name_trailing_slash
           (FileLogger.new "/tmp/t/" "app" "txt" LOG_LEVEL_INFO 1 true)).
  reflexivity.
Defined.

(** ** [init] without a configuration file *)

(** X4. [init] with an empty path succeeds whatever the surroundings are:
    it installs a Stderr sink with the level INFO and the threshold 1,
    parses no file, touches no file and no directory, and prints three
    diagnostics. *)
Theorem X4_init_empty_path (E : Env) (w : World) :
  exists w',
    LOG_SYS_INIT E "" None w
    = Ok (true, Some {| LogSys.m_LogConfig := LogConfig_empty;
                        LogSys.m_pLogger := Some (StdErrSink StdErrLogger.new_default) |}) w'
    /\ stderr w'
       = (stderr w ++ [Diag "No log cofig file specified, log to stderr!";
                       Diag "Log level: INFO";
                       Diag "Log system initialized OK!"])%list
    /\ disk w' = disk w /\ parsed w' = parsed w /\ created w' = created w.
Proof.
  eexists. split; [reflexivity|]. simpl.
  rewrite <- !List.app_assoc. auto.
Qed.

(** ** The level *)

Lemma level_of_value_valid (n : Z) :
  0 <= n -> n < level_value LOG_LEVEL_MAX ->
  level_value (level_of_value n) = n.
Proof.
  intros H0 H4. simpl in H4.
  assert (n = 0 \/ n = 1 \/ n = 2 \/ n = 3) as [-> | [-> | [-> | ->]]] by lia; reflexivity.
Qed.

(** X5. [Logger::config] takes a configured level below [LOG_LEVEL_MAX] and
    ignores any other: the level stays an index of [s_LogLevelNames].  It
    takes the flush threshold as configured and leaves the counter of
    writes alone; it never fails. *)
Theorem X5_config_keeps_level_valid (conf : LogConfig) (b : Logger.t) (w : World) :
  unsigned_values conf ->
  exists b',
    Logger.config conf b w
    = Ok (true, b') (World.print (Diag ("Log level: " +:+ s_LogLevelNames (Logger.m_Level b'))) w)
    /\ (valid_level (Logger.m_Level b) -> valid_level (Logger.m_Level b'))
    /\ (forall n, getUnsigned conf TEXT_LOG_LEVEL = Some n ->
        n < level_value LOG_LEVEL_MAX -> level_value (Logger.m_Level b') = n)
    /\ (forall n, getUnsigned conf TEXT_LOG_LEVEL = Some n ->
        level_value LOG_LEVEL_MAX <= n -> Logger.m_Level b' = Logger.m_Level b)
    /\ (getUnsigned conf TEXT_LOG_LEVEL = None -> Logger.m_Level b' = Logger.m_Level b)
    /\ Logger.m_MaxFlushNum b'
       = match getUnsigned conf TEXT_LOG_FLUSH_NUM with
         | Some n => n
         | None => Logger.m_MaxFlushNum b
         end
    /\ Logger.m_NotFlushedNum b' = Logger.m_NotFlushedNum b.
Proof.
  intros Hunsigned. unfold Logger.config. unfold_monad. cbv zeta.
  destruct (getUnsigned conf TEXT_LOG_LEVEL) as [n|] eqn:Hlevel.
  - specialize (Hunsigned _ _ Hlevel).
    destruct (Z.ltb_spec n (level_value LOG_LEVEL_MAX)) as [Hlt|Hge].
    + exists (Logger.set_MaxFlushNum (Logger.set_Level b (level_of_value n))
                (read_unsigned conf TEXT_LOG_FLUSH_NUM (Logger.m_MaxFlushNum b))).
      split; [reflexivity|]. simpl.
      split; [intros _; unfold valid_level; rewrite level_of_value_valid by assumption;
               exact Hlt|].
      split; [intros m [= <-] _; apply level_of_value_valid; assumption|].
      split; [intros m [= <-] Hm; simpl in *; lia|]. split; [discriminate|auto].
    + exists (Logger.set_MaxFlushNum b
                (read_unsigned conf TEXT_LOG_FLUSH_NUM (Logger.m_MaxFlushNum b))).
      split; [reflexivity|]. simpl.
      split; [auto|]. split; [intros m [= <-] Hm; simpl in *; lia|]. auto.
  - exists (Logger.set_MaxFlushNum b
              (read_unsigned conf TEXT_LOG_FLUSH_NUM (Logger.m_MaxFlushNum b))).
    split; [reflexivity|]. simpl.
    split; [auto|]. split; [discriminate|]. split; [discriminate|]. auto.
Qed.

Lemma X5_config_witness :
  unsigned_values (level_config 7)
  /\ exists b',
       Logger.config (level_config 7) Logger.new_default World.empty
       = Ok (true, b')
            (World.print (Diag ("Log level: " +:+ s_LogLevelNames (Logger.m_Level b')))
               World.empty)
       /\ Logger.m_Level b' = LOG_LEVEL_INFO.
Proof.
  assert (H : unsigned_values (level_config 7)).
  { intros key n. unfold level_config. simpl.
    destruct (String.eqb key TEXT_LOG_LEVEL); [intros [= <-]; lia|discriminate]. }
  split; [exact H|].
  destruct (X5_config_keeps_level_valid (level_config 7) Logger.new_default World.empty H)
    as (b' & Heq & _ & _ & Hignored & _).
  exists b'. split; [exact Heq|]. apply (Hignored 7); [reflexivity|simpl; lia].
Defined.

(** X6. [setLevel] on a sink: a level of [LOG_LEVEL_MAX] (or above) is
    refused with a diagnostic and changes nothing else; any other level
    becomes the level of the gate, with a diagnostic only when it differs
    from the old one.  In both cases the counter of writes, the threshold,
    the kind of the sink and the files are untouched, and a valid level
    stays valid. *)
Theorem X6_setLevel (level : ENUM_LOG_LEVEL) (s : Sink) (w : World) :
  exists s' w',
    Sink.setLevel level s w = Ok s' w'
    /\ Sink.level s'
       = (if level_value level >=? level_value LOG_LEVEL_MAX then Sink.level s else level)
    /\ (valid_level (Sink.level s) -> valid_level (Sink.level s'))
    /\ Sink.pending s' = Sink.pending s
    /\ Sink.max_unflushed s' = Sink.max_unflushed s
    /\ sink_kind s' = sink_kind s
    /\ disk w' = disk w
    /\ stderr w'
       = (stderr w
          ++ (if level_value level >=? level_value LOG_LEVEL_MAX
              then [Diag "Invalid log level!"]
              else if level_value (Sink.level s) =? level_value level then []
              else [Diag ("Log level has been reset to: " +:+ s_LogLevelNames level)]))%list.
Proof.
  unfold Sink.setLevel, Logger.setLevel, Sink.level, Logger.getLevel,
    Sink.pending, Sink.max_unflushed, valid_level.
  destruct (Z.geb_spec (level_value level) (level_value LOG_LEVEL_MAX)) as [Hbad|Hok].
  - unfold_monad. eexists _, _. split; [reflexivity|].
    destruct s as [x|x|x]; simpl; auto 10.
  - destruct (Z.eqb_spec (level_value (Logger.m_Level (Sink.base s))) (level_value level))
      as [Hsame|Hdiff]; cbn [negb].
    + unfold_monad. eexists _, _. split; [reflexivity|].
      assert (Heq : Logger.m_Level (Sink.base s) = level).
      { destruct (Logger.m_Level (Sink.base s)), level; simpl in Hsame;
          reflexivity || discriminate. }
      rewrite List.app_nil_r.
      destruct s as [x|x|x]; simpl in *; rewrite Heq; auto 10.
    + unfold_monad. eexists _, _. split; [reflexivity|].
      destruct s as [x|x|x]; simpl; auto 10.
Qed.

(** ** Every sink returns from an emit *)

Lemma RollingFileLogger_logImpl_total (E : Env) msg (r : RollingFileLogger.t) (w : World) :
  exists b r' w',
    RollingFileLogger.logImpl E msg r w = Ok (b, r') w'
    /\ same_rolling_settings r r'.
Proof.
  pose proof (RollingFileLogger_logImpl_cases E msg r w) as Hcases.
  destruct (lock_error E) as [text|].
  - eexists _, _, _. split; [exact Hcases|]. apply same_rolling_settings_refl.
  - destruct (rotation_due E r).
    + destruct Hcases as (r1 & w1 & Hrot & Heq).
      destruct (rotateFile_total E r w) as (r1' & inner & w1' & Hrot' & Hset & _).
      rewrite Hrot in Hrot'. injection Hrot' as <- <-.
      destruct (forward_to_inner_total E msg r1 w1) as (b & r' & w' & Hf & Hset' & _).
      exists b, r', w'. rewrite Heq. split; [exact Hf|].
      eapply same_rolling_settings_trans; eassumption.
    + destruct (forward_to_inner_total E msg r w) as (b & r' & w' & Hf & Hset' & _).
      exists b, r', w'. rewrite Hcases. auto.
Qed.

Lemma Sink_log_total (E : Env) msg level (s : Sink) (w : World) :
  exists b s' w',
    Sink.log E msg level s w = Ok (b, s') w'
    /\ sink_kind s' = sink_kind s
    /\ Sink.level s' = Sink.level s
    /\ Sink.max_unflushed s' = Sink.max_unflushed s.
Proof.
  unfold Sink.log, Logger.log.
  destruct (level_value level >=? _); [|exists false, s, w; auto].
  destruct s as [x|x|x]; unfold Sink.logImpl, Sink.lift.
  - unfold StdErrLogger.logImpl. unfold_monad. eexists _, _, _. split; [reflexivity|]. auto.
  - destruct (FileLogger_logImpl_total E msg x w) as (b & x' & w' & Heq & Hset & _).
    rewrite (bind_ok _ _ _ _ _ Heq). unfold ret. exists b, (FileSink x'), w'.
    destruct Hset as (_ & _ & _ & _ & Hlevel & Hmax).
    unfold Sink.level, Sink.max_unflushed, Logger.getLevel. simpl. auto.
  - destruct (RollingFileLogger_logImpl_total E msg x w) as (b & x' & w' & Heq & Hbase & _).
    rewrite (bind_ok _ _ _ _ _ Heq). unfold ret. exists b, (RollingSink x'), w'.
    unfold Sink.level, Sink.max_unflushed, Logger.getLevel. simpl. rewrite Hbase. auto.
Qed.

(** X7. A log call through the facade always returns, for every kind of
    sink and whatever the surroundings do: no exception reaches the
    caller.  An empty slot stays empty and the world is untouched; an
    installed singleton stays installed, with its configuration, the kind
    of its sink, its level and its threshold. *)
Theorem X7_log_out_always_returns (E : Env) (msg : string) (level : ENUM_LOG_LEVEL)
    (g : option LogSys.t) (w : World) :
  exists g' w',
    LOG_OUT E msg level g w = Ok g' w'
    /\ (g = None -> g' = None /\ w' = w)
    /\ (forall sys s,
          g = Some sys -> LogSys.m_pLogger sys = Some s ->
          exists sys' s',
            g' = Some sys'
            /\ LogSys.m_LogConfig sys' = LogSys.m_LogConfig sys
            /\ LogSys.m_pLogger sys' = Some s'
            /\ sink_kind s' = sink_kind s
            /\ Sink.level s' = Sink.level s
            /\ Sink.max_unflushed s' = Sink.max_unflushed s).
Proof.
  unfold LOG_OUT, LogSys.getInstance. destruct g as [sys|].
  - unfold LogSys.log. destruct (LogSys.m_pLogger sys) as [s|] eqn:Hs.
    + destruct (Sink_log_total E msg level s w) as (b & s' & w' & Heq & Hkind & Hlevel & Hmax).
      unfold bind. rewrite Heq. cbv beta iota. unfold ret.
      eexists _, w'. split; [reflexivity|]. split; [discriminate|].
      intros sys0 s0 [= <-] Hs0. rewrite Hs in Hs0. injection Hs0 as <-.
      eexists _, s'. split; [reflexivity|]. simpl. auto 10.
    + unfold_monad. eexists _, w. split; [reflexivity|]. split; [discriminate|].
      intros sys0 s0 [= <-] Hs0. congruence.
  - unfold ret. exists None, w. split; [reflexivity|]. split; [auto|discriminate].
Qed.

(** ** The destination selects the sink *)

Lemma createLoggerInterface_kind (type : option ENUM_LOG_TYPE) (s : Sink) (w w' : World) :
  Sink.createLoggerInterface type w = Ok s w' -> type = Some (sink_kind s).
Proof.
  unfold Sink.createLoggerInterface, ret, throw.
  destruct type as [[| | |]|]; intros [= <- <-] || discriminate; reflexivity.
Qed.

Lemma Sink_config_kind (conf : LogConfig) (s s' : Sink) (w w' : World) (r : bool) :
  Sink.config conf s w = Ok (r, s') w' -> sink_kind s' = sink_kind s.
Proof.
  unfold Sink.config, Sink.lift.
  destruct (Logger_config_total conf (Sink.base s) w) as (b' & w0 & Heq & _).
  destruct s as [x|x|x]; simpl in *;
    unfold StdErrLogger.config, FileLogger.config, RollingFileLogger.config;
    unfold bind; rewrite Heq; cbv beta iota; unfold ret;
    intros [= <- <- <-]; reflexivity.
Qed.

Lemma Sink_open_kind (E : Env) (s s' : Sink) (w w' : World) (r : bool) :
  Sink.open E s w = Ok (r, s') w' -> sink_kind s' = sink_kind s.
Proof.
  unfold Sink.open, Sink.lift. destruct s as [x|x|x].
  - unfold StdErrLogger.open. unfold_monad. intros [= <- <- <-]. reflexivity.
  - destruct (FileLogger_open_total E x w) as (r0 & x' & w0 & Heq & _).
    rewrite (bind_ok _ _ _ _ _ Heq). unfold ret. intros [= <- <- <-]. reflexivity.
  - destruct (RollingFileLogger_open_total E x w) as (r0 & x' & inner & w0 & Heq & _).
    rewrite (bind_ok _ _ _ _ _ Heq). unfold ret. intros [= <- <- <-]. reflexivity.
Qed.

(** The enumerator that the conversion gives has the low 32 bits of the
    number as its value. *)
Lemma log_type_of_value_low_bits (desti : Z) (type : ENUM_LOG_TYPE) :
  log_type_of_value desti = Some type -> log_type_value type = desti mod ENUM_MODULUS.
Proof.
  unfold log_type_of_value. cbv zeta.
  destruct (Z.eqb_spec (desti mod ENUM_MODULUS) 0) as [->|_]; [intros [= <-]; reflexivity|].
  destruct (Z.eqb_spec (desti mod ENUM_MODULUS) 1) as [->|_]; [intros [= <-]; reflexivity|].
  destruct (Z.eqb_spec (desti mod ENUM_MODULUS) 2) as [->|_]; [intros [= <-]; reflexivity|].
  destruct (Z.eqb_spec (desti mod ENUM_MODULUS) 3) as [->|_]; [intros [= <-]; reflexivity|].
  discriminate.
Qed.

(** X8. When the constructor of [LogSys] returns, the object holds the
    configuration that was read and a sink of the kind that [log_dest]
    names once it is converted to the enumeration, that is by its low 32
    bits: Stderr for 0 (or a missing key), File for 1, Rolling for 2, and
    so a File sink for [2^32 + 1]. *)
Theorem X8_destination_selects_sink (E : Env) (config_file : string) (w w' : World)
    (sys : LogSys.t) :
  LogSys.new E config_file w = Ok sys w' ->
  exists s wa,
    LogSys.m_pLogger sys = Some s
    /\ LogSys.read_config E config_file w = Ok (LogSys.m_LogConfig sys) wa
    /\ log_type_of_value
         (read_unsigned (LogSys.m_LogConfig sys) TEXT_LOG_DESTINATION
            (log_type_value TO_STDERR))
       = Some (sink_kind s)
    /\ log_type_value (sink_kind s)
       = read_unsigned (LogSys.m_LogConfig sys) TEXT_LOG_DESTINATION 0 mod ENUM_MODULUS
    /\ sink_kind s <> TO_MAX.
Proof.
  intros Hnew.
  destruct (LogSys_new_cases E config_file w)
    as [(e & w0 & Hthrow & _)|(conf & wa & s0 & r & s1 & wb & s2 & wc
                                & Hread & Hcreate & Hconf & Hopen & _ & Heq)];
    [congruence|].
  rewrite Heq in Hnew. injection Hnew as <- <-.
  cbn [LogSys.m_pLogger LogSys.m_LogConfig].
  exists s2, wa. split; [reflexivity|]. split; [exact Hread|].
  assert (Hkind : log_type_of_value
                    (read_unsigned conf TEXT_LOG_DESTINATION (log_type_value TO_STDERR))
                  = Some (sink_kind s2)).
  { rewrite (createLoggerInterface_kind _ _ _ _ Hcreate).
    rewrite (Sink_open_kind _ _ _ _ _ _ Hopen), (Sink_config_kind _ _ _ _ _ _ Hconf).
    reflexivity. }
  split; [exact Hkind|]. split.
  - apply log_type_of_value_low_bits. exact Hkind.
  - destruct s2; discriminate.
Qed.

Lemma X8_destination_selects_sink_witness :
  exists s wa,
    Some sample_file_sink = Some s
    /\ LogSys.read_config (all_well jan_15 (Some (sample_config (2 ^ 32 + 1) 2)))
         "scribe.conf" World.empty
       = Ok (sample_config (2 ^ 32 + 1) 2) wa
    /\ log_type_of_value
         (read_unsigned (sample_config (2 ^ 32 + 1) 2) TEXT_LOG_DESTINATION
            (log_type_value TO_STDERR))
       = Some (sink_kind s)
    /\ log_type_value (sink_kind s)
       = read_unsigned (sample_config (2 ^ 32 + 1) 2) TEXT_LOG_DESTINATION 0
         mod ENUM_MODULUS
    /\ sink_kind s <> TO_MAX.
Proof.
  apply (X8_destination_selects_sink (all_well jan_15 (Some (sample_config (2 ^ 32 + 1) 2)))
           "scribe.conf" World.empty sample_file_world
           {| LogSys.m_LogConfig := sample_config (2 ^ 32 + 1) 2;
              LogSys.m_pLogger := Some sample_file_sink |}).
  vm_compute. reflexivity.
Defined.

(** ** The bytes of the File sink *)

Lemma stream_bytes_open (w : World) (f : fstream) (name : string) :
  fs_file f = Some name -> stream_bytes w f = World.content w name +:+ fs_buffer f.
Proof. intros H. unfold stream_bytes. rewrite H. reflexivity. Qed.

(** A write on a good open stream whose file takes bytes: it returns true
    and the stream has the message after what it had; no other file
    changes and nothing is printed.  When the flush is due the buffer is
    empty afterwards and the counter is 0. *)
Lemma writeLog_healthy (E : Env) msg (this : FileLogger.t) (w : World) (name : string) :
  fs_file (FileLogger.m_File this) = Some name ->
  FStream.good (FileLogger.m_File this) = true ->
  file_write_ok E name = true ->
  file_sync_ok E name = true ->
  exists this' w',
    FileLogger.writeLog E msg this w = Ok (true, this') w'
    /\ same_settings this this'
    /\ fs_file (FileLogger.m_File this') = Some name
    /\ FStream.good (FileLogger.m_File this') = true
    /\ stream_bytes w' (FileLogger.m_File this')
       = stream_bytes w (FileLogger.m_File this) +:+ msg
    /\ (forall other, other <> name -> World.content w' other = World.content w other)
    /\ stderr w' = stderr w
    /\ ((ulong_incr (Logger.m_NotFlushedNum (FileLogger.base this))
           >=? Logger.m_MaxFlushNum (FileLogger.base this)) = true ->
        fs_buffer (FileLogger.m_File this') = ""
        /\ Logger.m_NotFlushedNum (FileLogger.base this') = 0).
Proof.
  intros Hname Hgood Hw Hs.
  assert (Hopen : FStream.is_open (FileLogger.m_File this) = true)
    by (unfold FStream.is_open; rewrite Hname; reflexivity).
  destruct (writeLog_open E msg this w Hopen) as (this' & w' & Heq & Hset & Hf & Herr & Hn).
  pose proof (write_good E msg _ name Hname Hgood Hw) as Hwrite.
  cbv zeta in Hn. rewrite Hwrite in Hn.
  rewrite (stream_bytes_open w _ name Hname).
  exists this', w'.
  destruct (ulong_incr _ >=? _).
  - destruct Hn as [Hzero Hflush].
    unfold FStream.flush in Hflush. cbn [fs_file fs_buffer fs_failbit fs_badbit] in Hflush.
    rewrite Hs in Hflush. unfold_monad. injection Hflush as Hfile <-.
    rewrite Heq, <- Hfile. cbn [FStream.bad FStream.good fs_badbit fs_failbit negb andb].
    split; [reflexivity|]. split; [exact Hset|]. split; [reflexivity|].
    split; [reflexivity|]. split.
    { unfold stream_bytes. cbn [fs_file fs_buffer].
      rewrite content_append_eq, sapp_nil_r, sapp_assoc. reflexivity. }
    split; [intros other Hne; apply content_append_ne; congruence|].
    split; [reflexivity|]. auto.
  - destruct Hn as (_ & Hfile & ->).
    rewrite Heq, Hfile. cbn [FStream.bad FStream.good fs_badbit fs_failbit negb andb].
    split; [reflexivity|]. split; [exact Hset|]. split; [reflexivity|].
    split; [reflexivity|]. split.
    { unfold stream_bytes. cbn [fs_file fs_buffer]. rewrite sapp_assoc. reflexivity. }
    split; [auto|]. split; [reflexivity|]. discriminate.
Qed.

(** An emit of the File sink in a healthy call. *)
Lemma FileSink_log_healthy (c : Call) (x : FileLogger.t) (w : World) (name : string) :
  fs_file (FileLogger.m_File x) = Some name ->
  FStream.good (FileLogger.m_File x) = true ->
  healthy name c ->
  exists x' w',
    Sink.log (call_env c) (call_msg c) (call_level c) (FileSink x) w
    = Ok (passes (Logger.m_Level (FileLogger.base x)) c, FileSink x') w'
    /\ same_settings x x'
    /\ fs_file (FileLogger.m_File x') = Some name
    /\ FStream.good (FileLogger.m_File x') = true
    /\ stream_bytes w' (FileLogger.m_File x')
       = stream_bytes w (FileLogger.m_File x)
         +:+ (if passes (Logger.m_Level (FileLogger.base x)) c then call_msg c else "")
    /\ (forall other, other <> name -> World.content w' other = World.content w other).
Proof.
  intros Hname Hgood (Hlock & Hw & Hs).
  unfold Sink.log, Logger.log, passes. cbn [Sink.base].
  destruct (level_value (call_level c) >=? _).
  - unfold Sink.logImpl, Sink.lift.
    destruct (FileLogger_logImpl_cases (call_env c) (call_msg c) x w)
      as [[Hcase _]|(text & _ & Hl & _)]; [|congruence].
    destruct (writeLog_healthy (call_env c) (call_msg c) x w name Hname Hgood Hw Hs)
      as (x' & w' & Heq & Hset & Hf & Hg & Hbytes & Hother & _).
    rewrite <- Hcase in Heq. rewrite (bind_ok _ _ _ _ _ Heq). unfold ret.
    exists x', w'. auto 10.
  - unfold ret. exists x, w. rewrite sapp_nil_r.
    split; [reflexivity|]. split; [apply same_settings_refl|]. auto.
Qed.

(** A run of healthy calls on a File sink whose stream is open and good. *)
Lemma file_emits_healthy (calls : list Call) (x : FileLogger.t) (w : World) (name : string) :
  fs_file (FileLogger.m_File x) = Some name ->
  FStream.good (FileLogger.m_File x) = true ->
  Forall (healthy name) calls ->
  exists x' w',
    emits calls (FileSink x) w
    = Ok (map (passes (Logger.m_Level (FileLogger.base x))) calls, FileSink x') w'
    /\ fs_file (FileLogger.m_File x') = Some name
    /\ FStream.good (FileLogger.m_File x') = true
    /\ stream_bytes w' (FileLogger.m_File x')
       = stream_bytes w (FileLogger.m_File x)
         +:+ emitted (Logger.m_Level (FileLogger.base x)) calls
    /\ (forall other, other <> name -> World.content w' other = World.content w other).
Proof.
  intros Hname Hgood Hcalls. revert x w Hname Hgood.
  induction Hcalls as [|c calls Hc _ IH]; intros x w Hname Hgood.
  - exists x, w. simpl. rewrite sapp_nil_r. auto.
  - destruct (FileSink_log_healthy c x w name Hname Hgood Hc)
      as (x1 & w1 & Heq & Hset & Hf1 & Hg1 & Hb1 & Ho1).
    destruct (IH x1 w1 Hf1 Hg1) as (x2 & w2 & Heq2 & Hf2 & Hg2 & Hb2 & Ho2).
    assert (Hlevel : Logger.m_Level (FileLogger.base x1) = Logger.m_Level (FileLogger.base x))
      by (destruct Hset as (_ & _ & _ & _ & H & _); congruence).
    rewrite Hlevel in *.
    simpl emits. rewrite (bind_ok _ _ _ _ _ Heq), (bind_ok _ _ _ _ _ Heq2).
    exists x2, w2. split; [reflexivity|]. split; [exact Hf2|]. split; [exact Hg2|]. split.
    + rewrite Hb2, Hb1. simpl.
      destruct (passes (Logger.m_Level (FileLogger.base x)) c).
      * rewrite !sapp_assoc. reflexivity.
      * rewrite sapp_nil_r. reflexivity.
    + intros other Hne. rewrite Ho2, Ho1 by exact Hne. reflexivity.
Qed.

(** X9. A run of emits on a File sink whose stream is open and good, while
    the lock is free and the file takes bytes: an emit returns true exactly
    when it passes the level gate, and the stream holds, after the bytes
    it had, the messages that passed, whole and in the order of the calls;
    no other file changes. *)
Theorem X9_file_emits_append_in_order (calls : list Call) (x : FileLogger.t) (w : World)
    (name : string) :
  fs_file (FileLogger.m_File x) = Some name ->
  FStream.good (FileLogger.m_File x) = true ->
  Forall (healthy name) calls ->
  exists x' w',
    emits calls (FileSink x) w
    = Ok (map (passes (Logger.m_Level (FileLogger.base x))) calls, FileSink x') w'
    /\ fs_file (FileLogger.m_File x') = Some name
    /\ stream_bytes w' (FileLogger.m_File x')
       = stream_bytes w (FileLogger.m_File x)
         +:+ emitted (Logger.m_Level (FileLogger.base x)) calls
    /\ (forall other, other <> name -> World.content w' other = World.content w other).
Proof.
  intros Hname Hgood Hcalls.
  destruct (file_emits_healthy calls x w name Hname Hgood Hcalls)
    as (x' & w' & Heq & Hfile & _ & Hbytes & Hother).
  exists x', w'. split; [exact Heq|]. split; [exact Hfile|]. split; assumption.
Qed.

Lemma X9_file_emits_witness :
  exists x' w',
    emits [mk_Call (all_well jan_15 None) "a" LOG_LEVEL_INFO;
           mk_Call (all_well jan_15 None) "dbg" LOG_LEVEL_DEBUG;
           mk_Call (all_well jan_15 None) "b" LOG_LEVEL_ERROR]
      sample_file_sink sample_file_world
    = Ok ([true; false; true], FileSink x') w'
    /\ fs_file (FileLogger.m_File x') = Some "/tmp/log/log"
    /\ stream_bytes w' (FileLogger.m_File x') = "" +:+ "" +:+ "a" +:+ "b"
    /\ (forall other, other <> "/tmp/log/log" ->
        World.content w' other = World.content sample_file_world other).
Proof.
  apply (X9_file_emits_append_in_order
           [mk_Call (all_well jan_15 None) "a" LOG_LEVEL_INFO;
            mk_Call (all_well jan_15 None) "dbg" LOG_LEVEL_DEBUG;
            mk_Call (all_well jan_15 None) "b" LOG_LEVEL_ERROR]
           {| FileLogger.base := Logger.new LOG_LEVEL_INFO 2;
              FileLogger.m_FilePath := "/tmp/log";
              FileLogger.m_FileBaseName := "log";
              FileLogger.m_FileSuffix := "";
              FileLogger.m_File :=
                {| fs_file := Some "/tmp/log/log"; fs_failbit := false;
                   fs_badbit := false; fs_buffer := "" |};
              FileLogger.m_IsThreadSafe := true |}
           sample_file_world "/tmp/log/log");
    [reflexivity | reflexivity | repeat constructor].
Defined.

(** X10. With a flush threshold of 1 (the default) or 0, every emit of the
    File sink that passes the gate on a good open stream is written out at
    once: afterwards the buffer is empty, the file holds what it held, what
    was buffered and the message, and the counter is 0. *)
Theorem X10_threshold_at_most_one_flushes_every_write (E : Env) (msg : string)
    (level : ENUM_LOG_LEVEL) (x : FileLogger.t) (w : World) (name : string) :
  fs_file (FileLogger.m_File x) = Some name ->
  FStream.good (FileLogger.m_File x) = true ->
  Logger.m_MaxFlushNum (FileLogger.base x) <= 1 ->
  0 <= Logger.m_NotFlushedNum (FileLogger.base x) < ULONG_MODULUS - 1 ->
  level_value (Logger.m_Level (FileLogger.base x)) <= level_value level ->
  lock_error E = None ->
  file_write_ok E name = true ->
  file_sync_ok E name = true ->
  exists x' w',
    FileLogger.log E msg level x w = Ok (true, x') w'
    /\ fs_buffer (FileLogger.m_File x') = ""
    /\ World.content w' name
       = World.content w name +:+ fs_buffer (FileLogger.m_File x) +:+ msg
    /\ Logger.m_NotFlushedNum (FileLogger.base x') = 0.
Proof.
  intros Hname Hgood Hmax Hcount Hlevel Hlock Hw Hs.
  unfold FileLogger.log. rewrite Logger_log_pass by exact Hlevel.
  destruct (FileLogger_logImpl_cases E msg x w) as [[Hcase _]|(text & _ & Hl & _)];
    [|congruence].
  destruct (writeLog_healthy E msg x w name Hname Hgood Hw Hs)
    as (x' & w' & Heq & _ & Hf & _ & Hbytes & _ & _ & Hdue).
  exists x', w'. rewrite Hcase. split; [exact Heq|].
  destruct Hdue as [Hbuf Hzero].
  { rewrite ulong_incr_small by lia.
    destruct (Z.geb_spec (Logger.m_NotFlushedNum (FileLogger.base x) + 1)
                (Logger.m_MaxFlushNum (FileLogger.base x))); [reflexivity|lia]. }
  split; [exact Hbuf|]. split; [|exact Hzero].
  rewrite (stream_bytes_open w' _ name Hf), (stream_bytes_open w _ name Hname) in Hbytes.
  rewrite Hbuf, sapp_nil_r in Hbytes. rewrite Hbytes, sapp_assoc. reflexivity.
Qed.

Lemma X10_threshold_zero_witness :
  exists x' w',
    FileLogger.log (all_well jan_15 None) "a" LOG_LEVEL_INFO
      (FileLogger.set_File (FileLogger.new "/tmp/log" "log" "" LOG_LEVEL_INFO 0 true)
         {| fs_file := Some "/tmp/log/log"; fs_failbit := false;
            fs_badbit := false; fs_buffer := "" |})
      sample_file_world = Ok (true, x') w'
    /\ fs_buffer (FileLogger.m_File x') = ""
    /\ World.content w' "/tmp/log/log"
       = World.content sample_file_world "/tmp/log/log" +:+ "" +:+ "a"
    /\ Logger.m_NotFlushedNum (FileLogger.base x') = 0.
Proof.
  apply (X10_threshold_at_most_one_flushes_every_write (all_well jan_15 None) "a"
           LOG_LEVEL_INFO
           (FileLogger.set_File (FileLogger.new "/tmp/log" "log" "" LOG_LEVEL_INFO 0 true)
              {| fs_file := Some "/tmp/log/log"; fs_failbit := false;
                 fs_badbit := false; fs_buffer := "" |})
           sample_file_world "/tmp/log/log");
    try reflexivity; vm_compute; try (split; [discriminate|reflexivity]); discriminate.
Defined.

(** ** Closing the File sink *)

(** X11. [FileLogger::close] always returns true and leaves the stream
    closed.  When the file can be written, what was buffered is in the file
    afterwards, after what the file held; no other file changes; the
    [Logger] part is untouched.  Closing again changes nothing. *)
Theorem X11_close_writes_out_and_is_idempotent (E : Env) (x : FileLogger.t) (w : World) :
  exists x' w',
    FileLogger.close E x w = Ok (true, x') w'
    /\ FStream.is_open (FileLogger.m_File x') = false
    /\ FileLogger.base x' = FileLogger.base x
    /\ (forall name,
          fs_file (FileLogger.m_File x) = Some name -> file_sync_ok E name = true ->
          World.content w' name = World.content w name +:+ fs_buffer (FileLogger.m_File x))
    /\ (forall other,
          fs_file (FileLogger.m_File x) <> Some other ->
          World.content w' other = World.content w other)
    /\ (forall E2, FileLogger.close E2 x' w' = Ok (true, x') w').
Proof.
  unfold FileLogger.close at 1. unfold FStream.is_open at 1.
  destruct (fs_file (FileLogger.m_File x)) as [name|] eqn:Hname.
  - unfold FStream.flush. rewrite Hname.
    destruct (file_sync_ok E name) eqn:Hs; unfold_monad; unfold FStream.close;
      cbn [fs_file FStream.set_badbit]; rewrite ?Hname, Hs;
      eexists _, _; (split; [reflexivity|]); cbn [FileLogger.m_File FileLogger.set_File
        FileLogger.base FStream.is_open fs_file]; (split; [reflexivity|]);
      (split; [reflexivity|]); split.
    + intros n [= <-] _. rewrite content_append_nothing, content_append_eq. reflexivity.
    + split; [|reflexivity].
      intros other Hne. rewrite content_append_nothing.
      apply content_append_ne. congruence.
    + intros n [= <-] Hn. congruence.
    + split; [auto|reflexivity].
  - unfold ret. exists x, w. split; [reflexivity|].
    split; [unfold FStream.is_open; rewrite Hname; reflexivity|].
    split; [reflexivity|]. split; [discriminate|]. split; [auto|].
    intros E2. unfold FileLogger.close, FStream.is_open. rewrite Hname. reflexivity.
Qed.

(** X12. A File sink without an open file never writes: every emit returns
    false, leaves the sink as it is and changes no file; the only trace is
    the diagnostic of an exception thrown by the lock. *)
Theorem X12_closed_file_sink_never_writes (E : Env) (msg : string) (level : ENUM_LOG_LEVEL)
    (x : FileLogger.t) (w : World) :
  FStream.is_open (FileLogger.m_File x) = false ->
  exists w',
    FileLogger.log E msg level x w = Ok (false, x) w'
    /\ disk w' = disk w
    /\ (lock_error E = None -> w' = w).
Proof.
  intros Hclosed. unfold FileLogger.log, Logger.log.
  destruct (level_value level >=? _); [|exists w; auto].
  destruct (FileLogger_logImpl_cases E msg x w) as [[Hcase _]|(text & _ & Hl & Hcase)];
    rewrite Hcase.
  - rewrite writeLog_closed by exact Hclosed. exists w. auto.
  - eexists. split; [reflexivity|]. split; [reflexivity|]. congruence.
Qed.

Lemma X12_closed_file_sink_witness :
  exists w',
    FileLogger.log (all_well jan_15 None) "a" LOG_LEVEL_ERROR FileLogger.new_default World.empty
    = Ok (false, FileLogger.new_default) w'
    /\ disk w' = disk World.empty
    /\ (lock_error (all_well jan_15 None) = None -> w' = World.empty).
Proof.
  apply (X12_closed_file_sink_never_writes (all_well jan_15 None) "a" LOG_LEVEL_ERROR
           FileLogger.new_default World.empty).
  reflexivity.
Defined.

(** ** The names kept by the Rolling sink *)

Lemma is_open_false_no_file (f : fstream) : FStream.is_open f = false -> fs_file f = None.
Proof. unfold FStream.is_open. destruct (fs_file f); [discriminate|reflexivity]. Qed.

Lemma getFullFileName_same_settings (a b : FileLogger.t) :
  same_settings a b -> FileLogger.getFullFileName b = FileLogger.getFullFileName a.
Proof.
  intros (Hp & Hb & Hs & _). unfold FileLogger.getFullFileName. rewrite Hp, Hb, Hs. reflexivity.
Qed.

Lemma getFileNameByDate_same_settings (a b : RollingFileLogger.t) (d : tm) :
  same_rolling_settings a b ->
  RollingFileLogger.getFileNameByDate b d = RollingFileLogger.getFileNameByDate a d.
Proof.
  intros (_ & _ & Hb & _). unfold RollingFileLogger.getFileNameByDate. rewrite Hb. reflexivity.
Qed.

(** What [open] of the Rolling sink leaves satisfies [rolling_names_ok]. *)
Lemma rolling_names_after_open (r r' : RollingFileLogger.t) (inner : FileLogger.t) (d : tm) :
  same_rolling_settings r r' ->
  RollingFileLogger.m_LastCreatedTime r' = d ->
  RollingFileLogger.m_pFileLogger r' = Some inner ->
  inner_for r d inner ->
  (forall name, fs_file (FileLogger.m_File inner) = Some name ->
   name = FileLogger.getFullFileName inner) ->
  rolling_names_ok r'.
Proof.
  intros Hset Htime Hinner (_ & Hp & Hb & Hs & _) Hfile.
  unfold rolling_names_ok. rewrite Hinner, Htime.
  rewrite (getFileNameByDate_same_settings _ _ d Hset).
  destruct Hset as (_ & Hp' & _ & Hs'). repeat split; try congruence. exact Hfile.
Qed.

Lemma RollingFileLogger_open_names (E : Env) (r : RollingFileLogger.t) (w : World) :
  exists opened r' w',
    RollingFileLogger.open E r w = Ok (opened, r') w' /\ rolling_names_ok r'.
Proof.
  destruct (RollingFileLogger_open_total E r w)
    as (opened & r' & inner & w' & Heq & Hset & Htime & Hinner & Hfor & Hok & Hfail).
  exists opened, r', w'. split; [exact Heq|].
  apply (rolling_names_after_open r r' inner (now E)); auto.
  intros name Hname. destruct opened.
  - rewrite (Hok eq_refl) in Hname. simpl in Hname. congruence.
  - rewrite (is_open_false_no_file _ (Hfail eq_refl)) in Hname. discriminate.
Qed.

Lemma rotateFile_names (E : Env) (r : RollingFileLogger.t) (w : World) :
  exists r' w',
    RollingFileLogger.rotateFile E r w = Ok r' w' /\ rolling_names_ok r'.
Proof.
  destruct (rotateFile_total E r w)
    as (r' & inner & w' & Heq & Hset & Htime & Hinner & Hfor & Hok & Hfail).
  exists r', w'. split; [exact Heq|].
  apply (rolling_names_after_open r r' inner (now E)); auto.
  intros name Hname. destruct (rotation_opens E r w).
  - rewrite (Hok eq_refl) in Hname. simpl in Hname. congruence.
  - rewrite (is_open_false_no_file _ (Hfail eq_refl)) in Hname. discriminate.
Qed.

Lemma forward_to_inner_names (E : Env) msg (r : RollingFileLogger.t) (w : World) :
  rolling_names_ok r ->
  exists b r' w',
    forward_to_inner E msg r w = Ok (b, r') w' /\ rolling_names_ok r'.
Proof.
  intros Hok.
  destruct (forward_to_inner_total E msg r w) as (b & r' & w' & Heq & Hset & Htime & Hcase).
  exists b, r', w'. split; [exact Heq|].
  unfold rolling_names_ok in *.
  destruct (RollingFileLogger.m_pFileLogger r) as [inner|] eqn:Hinner.
  - destruct Hcase as (inner' & Hinner' & Hlog).
    destruct (FileLogger_logImpl_total E msg inner w)
      as (b0 & inner0 & w0 & Heq0 & Hsame & Hfile & _).
    rewrite Hlog in Heq0. injection Heq0 as <- <- <-.
    rewrite Hinner', Htime, (getFileNameByDate_same_settings _ _ _ Hset).
    rewrite (getFullFileName_same_settings _ _ Hsame), Hfile.
    destruct Hok as (Hp & Hb & Hs & Hname).
    destruct Hsame as (Hp' & Hb' & Hs' & _). destruct Hset as (_ & Hq & _ & Hq').
    repeat split; try congruence. exact Hname.
  - destruct Hcase as (_ & -> & _). rewrite Hinner. exact I.
Qed.

Lemma RollingFileLogger_log_names (E : Env) msg level (r : RollingFileLogger.t) (w : World) :
  rolling_names_ok r ->
  exists b r' w',
    RollingFileLogger.log E msg level r w = Ok (b, r') w' /\ rolling_names_ok r'.
Proof.
  intros Hok. unfold RollingFileLogger.log, Logger.log.
  destruct (level_value level >=? _); [|exists false, r, w; auto].
  pose proof (RollingFileLogger_logImpl_cases E msg r w) as Hcases.
  destruct (lock_error E) as [text|].
  - eexists _, _, _. split; [exact Hcases|exact Hok].
  - destruct (rotation_due E r).
    + destruct Hcases as (r1 & w1 & Hrot & Heq).
      destruct (rotateFile_names E r w) as (r1' & w1' & Hrot' & Hok1).
      rewrite Hrot in Hrot'. injection Hrot' as <- <-.
      rewrite Heq. apply forward_to_inner_names. exact Hok1.
    + rewrite Hcases. apply forward_to_inner_names. exact Hok.
Qed.

(** X13. From [open] on, the Rolling sink keeps its names together: after
    every run of emits, whatever the surroundings do, the inner File sink
    has the directory and the suffix of the Rolling sink and the per-day
    name of [m_LastCreatedTime], and a file that is open is the one of
    that path. *)
Theorem X13_rolling_sink_keeps_its_names (E0 : Env) (r0 : RollingFileLogger.t) (w0 : World)
    (calls : list Call) :
  exists opened r w1,
    RollingFileLogger.open E0 r0 w0 = Ok (opened, r) w1
    /\ exists results r' w',
         rolling_emits calls r w1 = Ok (results, r') w'
         /\ rolling_names_ok r'.
Proof.
  destruct (RollingFileLogger_open_names E0 r0 w0) as (opened & r & w1 & Heq & Hok).
  exists opened, r, w1. split; [exact Heq|]. clear Heq.
  revert r w1 Hok. induction calls as [|c calls IH]; intros r w1 Hok.
  - exists [], r, w1. auto.
  - destruct (RollingFileLogger_log_names (call_env c) (call_msg c) (call_level c) r w1 Hok)
      as (b & r1 & w2 & Heq & Hok1).
    destruct (IH r1 w2 Hok1) as (bs & r2 & w3 & Heq2 & Hok2).
    exists (b :: bs), r2, w3. simpl.
    rewrite (bind_ok _ _ _ _ _ Heq), (bind_ok _ _ _ _ _ Heq2). auto.
Qed.

(** ** Opening and rotating keep what the files hold *)

Lemma content_print (item : stderr_item) (w : World) (name : string) :
  World.content (World.print item w) name = World.content w name.
Proof. reflexivity. Qed.

Lemma content_note_created (dir : string) (w : World) (name : string) :
  World.content (World.note_created dir w) name = World.content w name.
Proof. reflexivity. Qed.

(** [FileLogger::open] on a sink without an open file changes the content
    of no file. *)
Lemma FileLogger_open_content (E : Env) (this : FileLogger.t) (w : World) :
  FStream.is_open (FileLogger.m_File this) = false ->
  exists r this' w',
    FileLogger.open E this w = Ok (r, this') w'
    /\ forall name, World.content w' name = World.content w name.
Proof.
  intros Hclosed. pose proof (is_open_false_no_file _ Hclosed) as Hnone.
  unfold FileLogger.open, FileLogger.ensure_directory, FileLogger.close, FStream.open.
  rewrite Hclosed. unfold_monad.
  destruct (fs_exists E _) as [| |text]; cbn [negb].
  - rewrite Hnone. destruct (file_open_ok E _); simpl; eexists _, _, _;
      (split; [reflexivity|]); intros name; simpl;
      rewrite ?content_print, ?content_append_nothing; reflexivity.
  - destruct (fs_create_directories E _) as [| |text]; cbn [negb].
    + rewrite Hnone. destruct (file_open_ok E _); simpl; eexists _, _, _;
        (split; [reflexivity|]); intros name; simpl;
        rewrite ?content_print, ?content_append_nothing; reflexivity.
    + eexists _, _, _. split; [reflexivity|]. reflexivity.
    + eexists _, _, _. split; [reflexivity|]. reflexivity.
  - eexists _, _, _. split; [reflexivity|]. reflexivity.
Qed.

(** [FileLogger::close] on an open sink whose file can be written: the
    buffer goes to the file, no other file changes. *)
Lemma FileLogger_close_content (E : Env) (this : FileLogger.t) (w : World) (name : string) :
  fs_file (FileLogger.m_File this) = Some name ->
  file_sync_ok E name = true ->
  exists this' w',
    FileLogger.close E this w = Ok (true, this') w'
    /\ FStream.is_open (FileLogger.m_File this') = false
    /\ World.content w' name
       = World.content w name +:+ fs_buffer (FileLogger.m_File this)
    /\ forall other, other <> name -> World.content w' other = World.content w other.
Proof.
  intros Hname Hs. unfold FileLogger.close, FStream.is_open, FStream.flush.
  rewrite Hname, Hs. unfold_monad. unfold FStream.close. cbn [fs_file]. rewrite ?Hname, ?Hs.
  eexists _, _. split; [reflexivity|]. split; [reflexivity|]. split.
  - rewrite content_append_nothing, content_append_eq. reflexivity.
  - intros other Hne. rewrite content_append_nothing. apply content_append_ne. congruence.
Qed.

(** X14. [FileLogger::open] on a sink that has no file open never changes
    what any file holds (the file is opened for appending), and it returns
    true exactly when the directory is there or could be created and the
    file could be opened. *)
Theorem X14_open_appends_never_truncates (E : Env) (x : FileLogger.t) (w : World) :
  FStream.is_open (FileLogger.m_File x) = false ->
  exists x' w',
    FileLogger.open E x w
    = Ok (directory_ready E (FileLogger.m_FilePath x)
          && file_open_ok E (FileLogger.getFullFileName x), x') w'
    /\ (forall name, World.content w' name = World.content w name)
    /\ FileLogger.base x' = FileLogger.base x.
Proof.
  intros Hclosed.
  destruct (FileLogger_open_content E x w Hclosed) as (r & x' & w' & Heq & Hcontent).
  destruct (FileLogger_open_result E x w) as (x1 & w1 & Hres).
  destruct (FileLogger_open_total E x w) as (r2 & x2 & w2 & Htot & Hbase & _).
  rewrite Heq in Hres, Htot. injection Hres as -> <- <-. injection Htot as _ <- _.
  exists x', w'. auto.
Qed.

Lemma X14_open_appends_witness :
  exists x' w',
    FileLogger.open (all_well jan_15 None) FileLogger.new_default sample_file_world
    = Ok (directory_ready (all_well jan_15 None) "/tmp/log"
          && file_open_ok (all_well jan_15 None)
               (FileLogger.getFullFileName FileLogger.new_default), x') w'
    /\ (forall name, World.content w' name = World.content sample_file_world name)
    /\ FileLogger.base x' = FileLogger.base FileLogger.new_default.
Proof.
  apply (X14_open_appends_never_truncates (all_well jan_15 None) FileLogger.new_default
           sample_file_world).
  reflexivity.
Defined.

(** What a rotation does to the files when the file that is open can be
    written. *)
Lemma rotateFile_content (E : Env) (r : RollingFileLogger.t)
    (inner : FileLogger.t) (w : World) (name : string) :
  RollingFileLogger.m_pFileLogger r = Some inner ->
  fs_file (FileLogger.m_File inner) = Some name ->
  file_sync_ok E name = true ->
  exists r' w',
    RollingFileLogger.rotateFile E r w = Ok r' w'
    /\ World.content w' name
       = World.content w name +:+ fs_buffer (FileLogger.m_File inner)
    /\ (forall other, other <> name -> World.content w' other = World.content w other).
Proof.
  intros Hinner Hname Hs.
  destruct (FileLogger_close_content E inner w name Hname Hs)
    as (inner1 & w1 & Hclose & Hclosed & Hcontent & Hother).
  unfold RollingFileLogger.rotateFile, RollingFileLogger.close. rewrite Hinner.
  unfold bind at 1. unfold bind at 1. rewrite Hclose. cbv beta iota. unfold ret at 1.
  cbv beta iota.
  unfold RollingFileLogger.open. cbv zeta.
  cbn [RollingFileLogger.m_pFileLogger RollingFileLogger.set_pFileLogger
       RollingFileLogger.set_LastCreatedTime].
  assert (Hdestroy : FileLogger.destroy E inner1 w1 = Ok tt w1).
  { unfold FileLogger.destroy, FileLogger.close. rewrite Hclosed. reflexivity. }
  unfold bind at 1. unfold bind at 1. rewrite Hdestroy. cbv beta iota.
  match goal with |- context [FileLogger.open E ?fresh] =>
    destruct (FileLogger_open_content E fresh w1 eq_refl) as (b & inner2 & w2 & Hopen & Hsame);
    rewrite (bind_ok _ _ _ _ _ Hopen)
  end.
  cbv beta iota. unfold ret. eexists _, _. split; [reflexivity|].
  split; [rewrite Hsame; exact Hcontent|].
  intros other Hne. rewrite Hsame. apply Hother. exact Hne.
Qed.

(** X15. A rotation loses nothing of the old day: when the file that is
    open can be written, [rotateFile] leaves in it what it held and what
    was still buffered, and changes the content of no other file. *)
Theorem X15_rotation_writes_out_the_old_file (E : Env) (r : RollingFileLogger.t)
    (inner : FileLogger.t) (w : World) (name : string) :
  RollingFileLogger.m_pFileLogger r = Some inner ->
  fs_file (FileLogger.m_File inner) = Some name ->
  file_sync_ok E name = true ->
  exists r' w',
    RollingFileLogger.rotateFile E r w = Ok r' w'
    /\ World.content w' name
       = World.content w name +:+ fs_buffer (FileLogger.m_File inner)
    /\ (forall other, other <> name -> World.content w' other = World.content w other).
Proof.
  intros Hinner Hname Hs.
  destruct (rotateFile_content E r inner w name Hinner Hname Hs)
    as (r' & w' & Heq & Hcontent & Hother).
  exists r', w'. split; [exact Heq|]. split; assumption.
Qed.

Lemma X15_rotation_witness :
  exists r' w',
    RollingFileLogger.rotateFile (all_well jan_16 None) sample_rolling sample_rolling_world
    = Ok r' w'
    /\ World.content w' "/tmp/log/log-2024-01-15"
       = World.content sample_rolling_world "/tmp/log/log-2024-01-15" +:+ ""
    /\ (forall other, other <> "/tmp/log/log-2024-01-15" ->
        World.content w' other = World.content sample_rolling_world other).
Proof.
  apply (X15_rotation_writes_out_the_old_file (all_well jan_16 None) sample_rolling
           {| FileLogger.base := Logger.new LOG_LEVEL_INFO 1;
              FileLogger.m_FilePath := "/tmp/log";
              FileLogger.m_FileBaseName := "log-2024-01-15";
              FileLogger.m_FileSuffix := "";
              FileLogger.m_File :=
                {| fs_file := Some "/tmp/log/log-2024-01-15"; fs_failbit := false;
                   fs_badbit := false; fs_buffer := "" |};
              FileLogger.m_IsThreadSafe := false |}
           sample_rolling_world "/tmp/log/log-2024-01-15"); reflexivity.
Defined.

(** ** The per-day file name determines the date *)

Lemma digit_spec (d : Z) :
  0 <= d < 10 ->
  is_digit (Str.digit d) = true /\ Z.of_nat (nat_of_ascii (Str.digit d)) - 48 = d.
Proof.
  intros Hd.
  assert (d = 0 \/ d = 1 \/ d = 2 \/ d = 3 \/ d = 4 \/ d = 5 \/ d = 6 \/ d = 7
          \/ d = 8 \/ d = 9) as Hcases by lia.
  repeat (destruct Hcases as [-> | Hcases]; [split; reflexivity|]).
  subst d. split; reflexivity.
Qed.

Lemma digits_app (fuel : nat) (n : Z) (acc : string) :
  Str.digits fuel n acc = Str.digits fuel n "" +:+ acc.
Proof.
  revert n acc. induction fuel as [|fuel IH]; intros n acc; simpl.
  - reflexivity.
  - destruct (n <? 10); [reflexivity|].
    rewrite (IH (n / 10) (String _ acc)), (IH (n / 10) (String _ "")).
    rewrite sapp_assoc. reflexivity.
Qed.

Lemma digits_only_app (s t : string) :
  digits_only (s +:+ t) = digits_only s && digits_only t.
Proof.
  induction s as [|c s IH]; [reflexivity|].
  rewrite sapp_cons. simpl. rewrite IH. apply andb_assoc.
Qed.

Lemma numeral_value_app (v : Z) (s t : string) :
  numeral_value v (s +:+ t) = numeral_value (numeral_value v s) t.
Proof.
  revert v. induction s as [|c s IH]; intros v; [reflexivity|].
  rewrite sapp_cons. simpl. apply IH.
Qed.

Lemma digits_digits_only (fuel : nat) (n : Z) :
  0 <= n -> digits_only (Str.digits fuel n "") = true.
Proof.
  revert n. induction fuel as [|fuel IH]; intros n Hn;
    destruct (digit_spec (n mod 10)) as [Hd _]; try (apply Z.mod_pos_bound; lia);
    cbn [Str.digits digits_only].
  - rewrite Hd. reflexivity.
  - destruct (n <? 10); [cbn [digits_only]; rewrite Hd; reflexivity|].
    rewrite digits_app, digits_only_app, IH by (apply Z.div_pos; lia).
    cbn [digits_only]. rewrite Hd. reflexivity.
Qed.

Lemma digits_value (fuel : nat) (n : Z) :
  0 <= n < 10 ^ (Z.of_nat fuel + 1) ->
  numeral_value 0 (Str.digits fuel n "") = n.
Proof.
  revert n. induction fuel as [|fuel IH]; intros n Hn;
    destruct (digit_spec (n mod 10)) as [_ Hv]; try (apply Z.mod_pos_bound; lia);
    cbn [Str.digits].
  - cbn [numeral_value]. rewrite Hv. change (10 ^ (Z.of_nat 0 + 1)) with 10 in Hn.
    rewrite Z.mod_small by lia. lia.
  - destruct (Z.ltb_spec n 10) as [Hsmall|Hbig].
    + cbn [numeral_value]. rewrite Hv. rewrite Z.mod_small by lia. lia.
    + rewrite digits_app, numeral_value_app, IH.
      * cbn [numeral_value]. rewrite Hv. pose proof (Z.div_mod n 10). lia.
      * split; [apply Z.div_pos; lia|].
        apply Z.div_lt_upper_bound; [lia|].
        replace (Z.of_nat (S fuel) + 1) with (Z.succ (Z.of_nat fuel + 1)) in Hn by lia.
        rewrite Z.pow_succ_r in Hn by lia. lia.
Qed.

(** The fuel of [Str.dec] is enough for every digit. *)
Lemma dec_fuel_enough (n : Z) :
  0 <= n -> n < 10 ^ (Z.of_nat (Z.to_nat (Z.log2 n)) + 1).
Proof.
  intros Hn. rewrite Z2Nat.id by apply Z.log2_nonneg.
  destruct (Z.eq_dec n 0) as [->|Hpos]; [reflexivity|].
  destruct (Z.log2_spec n) as [_ Hlt]; [lia|].
  eapply Z.lt_le_trans; [exact Hlt|].
  replace (Z.succ (Z.log2 n)) with (Z.log2 n + 1) by lia.
  apply Z.pow_le_mono_l. lia.
Qed.

(** The numeral of a number that is not negative has digits only and
    denotes the number. *)
Lemma dec_spec (n : Z) :
  0 <= n -> digits_only (Str.dec n) = true /\ numeral_value 0 (Str.dec n) = n.
Proof.
  intros Hn. unfold Str.dec. destruct (Z.ltb_spec n 0); [lia|]. split.
  - apply digits_digits_only. exact Hn.
  - apply digits_value. split; [exact Hn|]. apply dec_fuel_enough. exact Hn.
Qed.

Lemma zpad_spec (width : nat) (n : Z) :
  0 <= n -> digits_only (zpad width n) = true /\ numeral_value 0 (zpad width n) = n.
Proof.
  intros Hn. destruct (dec_spec n Hn) as [Hd Hv]. unfold zpad.
  generalize (width - String.length (Str.dec n))%nat. intros k.
  induction k as [|k [IHd IHv]]; [auto|].
  simpl Str.fill. rewrite sapp_cons. split; [simpl; exact IHd|exact IHv].
Qed.

(** Two texts that start with digits up to a dash agree on the digits and
    on what follows the dash. *)
Lemma split_at_dash (s1 s2 t1 t2 : string) :
  digits_only s1 = true -> digits_only s2 = true ->
  s1 +:+ String "-" t1 = s2 +:+ String "-" t2 ->
  s1 = s2 /\ t1 = t2.
Proof.
  revert s2. induction s1 as [|c s1 IH]; intros [|c2 s2] H1 H2 Heq.
  - rewrite !sapp_nil_l in Heq. injection Heq as ->. auto.
  - rewrite sapp_nil_l, sapp_cons in Heq. injection Heq as <- _.
    simpl in H2. discriminate.
  - rewrite sapp_nil_l, sapp_cons in Heq. injection Heq as -> _.
    simpl in H1. discriminate.
  - rewrite !sapp_cons in Heq. injection Heq as -> Heq.
    simpl in H1, H2. apply andb_true_iff in H1 as [_ H1]. apply andb_true_iff in H2 as [_ H2].
    destruct (IH s2 H1 H2 Heq) as [-> ->]. auto.
Qed.

(** X16. The per-day file name determines the date: for dates whose fields
    are not negative, [getFileNameByDate] gives the same name exactly for
    the same year, month and day.  Two different calendar days never share
    a file name. *)
Theorem X16_file_name_determines_date (r : RollingFileLogger.t) (d1 d2 : tm) :
  plain_date d1 -> plain_date d2 ->
  (RollingFileLogger.getFileNameByDate r d1 = RollingFileLogger.getFileNameByDate r d2
   <-> d1 = d2).
Proof.
  intros (Hy1 & Hm1 & Hd1) (Hy2 & Hm2 & Hd2). split; [|intros ->; reflexivity].
  rewrite !getFileNameByDate_unfold. intros Heq.
  apply (String.app_inj (RollingFileLogger.m_FileBaseName r)) in Heq.
  change ("-" +:+ ?s) with (String "-" s) in Heq. injection Heq as Heq.
  destruct (dec_spec _ Hy1) as [Hdy1 Hvy1]. destruct (dec_spec _ Hy2) as [Hdy2 Hvy2].
  destruct (zpad_spec 2 _ Hm1) as [Hdm1 Hvm1]. destruct (zpad_spec 2 _ Hm2) as [Hdm2 Hvm2].
  destruct (zpad_spec 2 _ Hd1) as [_ Hvd1]. destruct (zpad_spec 2 _ Hd2) as [_ Hvd2].
  apply split_at_dash in Heq as [Hyear Heq]; [|assumption|assumption].
  change ("-" +:+ ?s) with (String "-" s) in Heq.
  apply split_at_dash in Heq as [Hmonth Hday]; [|assumption|assumption].
  rewrite Hyear in Hvy1. rewrite Hmonth in Hvm1. rewrite Hday in Hvd1.
  destruct d1 as [y1 m1 day1], d2 as [y2 m2 day2]. simpl in *.
  f_equal; lia.
Qed.

Lemma X16_file_name_witness :
  RollingFileLogger.getFileNameByDate sample_rolling jan_15
  = RollingFileLogger.getFileNameByDate sample_rolling feb_15
  <-> jan_15 = feb_15.
Proof.
  apply (X16_file_name_determines_date sample_rolling jan_15 feb_15);
    unfold plain_date; simpl; lia.
Defined.

(** ** What [config] leaves alone *)

(** X17. [config] of a sink never fails and only reads settings: the kind
    of the sink, its counter of writes and the files are as before, and
    one diagnostic is printed.  With a configuration that holds no key the
    sink stays exactly as it was: every default is kept. *)
Theorem X17_config_reads_settings_only (conf : LogConfig) (s : Sink) (w : World) :
  exists s' w',
    Sink.config conf s w = Ok (true, s') w'
    /\ sink_kind s' = sink_kind s
    /\ Sink.pending s' = Sink.pending s
    /\ disk w' = disk w
    /\ stderr w'
       = (stderr w ++ [Diag ("Log level: " +:+ s_LogLevelNames (Sink.level s'))])%list
    /\ (conf = LogConfig_empty -> s' = s).
Proof.
  unfold Sink.config, Sink.lift, StdErrLogger.config, FileLogger.config,
    RollingFileLogger.config, Logger.config.
  destruct s as [[b]|[b p n x f t]|[b p n x i d]]; unfold_monad; cbv zeta;
    cbn [StdErrLogger.base FileLogger.base RollingFileLogger.base];
    (destruct (getUnsigned conf TEXT_LOG_LEVEL) as [num|] eqn:Hlevel;
     [destruct (num <? level_value LOG_LEVEL_MAX)|]);
    eexists _, _; (split; [reflexivity|]);
    (split; [reflexivity|]); (split; [reflexivity|]); (split; [reflexivity|]);
    (split; [reflexivity|]); intros ->; try discriminate; destruct b; reflexivity.
Qed.

(** ** Closing the Rolling sink *)

(** X18. [close] of the Rolling sink closes the inner File sink but is not
    final: an emit on the same day of the month returns false and leaves
    the sink closed, whereas an emit whose rotation succeeds (the day of
    the month has changed, the lock is free, the file of the day opens)
    opens the file of its day again. *)
Theorem X18_rolling_close_is_not_final (E0 : Env) (r : RollingFileLogger.t) (w : World) :
  exists r1 w1,
    RollingFileLogger.close E0 r w = Ok (true, r1) w1
    /\ rolling_closed r1
    /\ RollingFileLogger.m_LastCreatedTime r1 = RollingFileLogger.m_LastCreatedTime r
    /\ (forall (c : Call) (w2 : World),
          rotation_due (call_env c) r1 = false ->
          exists r2 w3,
            RollingFileLogger.log (call_env c) (call_msg c) (call_level c) r1 w2
            = Ok (false, r2) w3
            /\ rolling_closed r2)
    /\ (forall (c : Call) (w2 : World),
          reopens c r1 w2 = true ->
          exists b r2 w3,
            RollingFileLogger.log (call_env c) (call_msg c) (call_level c) r1 w2
            = Ok (b, r2) w3
            /\ rolling_open_on r2 (now (call_env c))).
Proof.
  destruct (RollingFileLogger_close_total E0 r w) as (r1 & w1 & Heq & _ & Htime & Hclosed).
  exists r1, w1. split; [exact Heq|]. split; [exact Hclosed|]. split; [exact Htime|]. split.
  - intros c w2 Hdue. apply rolling_log_no_reopen; [|left; exact Hclosed].
    unfold reopens. rewrite Hdue, andb_false_r. reflexivity.
  - intros c w2 Hre.
    destruct (rolling_log_reopen c r1 w2 Hre) as (b & r2 & w3 & Hlog & Hopen & _).
    exists b, r2, w3. auto.
Qed.

(** ** The level takes effect *)

Lemma Sink_setLevel_valid (level : ENUM_LOG_LEVEL) (s : Sink) (w : World) :
  valid_level level ->
  exists s' w',
    Sink.setLevel level s w = Ok s' w'
    /\ Logger.m_Level (Sink.base s') = level.
Proof.
  unfold valid_level, Sink.setLevel, Logger.setLevel. intros Hvalid.
  destruct (Z.geb_spec (level_value level) (level_value LOG_LEVEL_MAX)) as [Hbad|_]; [lia|].
  destruct (Z.eqb_spec (level_value (Logger.m_Level (Sink.base s))) (level_value level))
    as [Hsame|Hdiff]; cbn [negb]; unfold_monad; eexists _, _; (split; [reflexivity|]).
  - assert (Heq : Logger.m_Level (Sink.base s) = level).
    { destruct (Logger.m_Level (Sink.base s)), level; simpl in Hsame;
        reflexivity || discriminate. }
    destruct s as [x|x|x]; exact Heq.
  - destruct s as [x|x|x]; reflexivity.
Qed.

(** X19. After [setLevel] with a valid level, that level is the gate of the
    next emit: a message below it is dropped without any effect, and a
    message at or above it is handed to [logImpl] of the sink. *)
Theorem X19_setLevel_takes_effect (level : ENUM_LOG_LEVEL) (s : Sink) (w : World) :
  valid_level level ->
  exists s' w',
    Sink.setLevel level s w = Ok s' w'
    /\ forall (E : Env) (msg : string) (l : ENUM_LOG_LEVEL) (w2 : World),
         (level_value l < level_value level ->
          Sink.log E msg l s' w2 = Ok (false, s') w2)
         /\ (level_value level <= level_value l ->
             Sink.log E msg l s' w2 = Sink.logImpl E msg s' w2).
Proof.
  intros Hvalid.
  destruct (Sink_setLevel_valid level s w Hvalid) as (s' & w' & Heq & Hlevel).
  exists s', w'. split; [exact Heq|]. intros E msg l w2. split; intros Hl.
  - apply Logger_log_below. rewrite Hlevel. exact Hl.
  - apply Logger_log_pass. rewrite Hlevel. exact Hl.
Qed.

Lemma X19_setLevel_witness :
  exists s' w',
    Sink.setLevel LOG_LEVEL_ERROR sample_file_sink sample_file_world = Ok s' w'
    /\ forall (E : Env) (msg : string) (l : ENUM_LOG_LEVEL) (w2 : World),
         (level_value l < level_value LOG_LEVEL_ERROR ->
          Sink.log E msg l s' w2 = Ok (false, s') w2)
         /\ (level_value LOG_LEVEL_ERROR <= level_value l ->
             Sink.log E msg l s' w2 = Sink.logImpl E msg s' w2).
Proof.
  apply (X19_setLevel_takes_effect LOG_LEVEL_ERROR sample_file_sink sample_file_world).
  reflexivity.
Defined.

(** ** Nothing is lost at shutdown *)

(** Log calls through the facade are the emits of its sink. *)
Lemma log_outs_emits (calls : list Call) (conf : LogConfig) (s : Sink) (w : World) :
  log_outs calls (Some {| LogSys.m_LogConfig := conf; LogSys.m_pLogger := Some s |}) w
  = (do '(_, s') <- emits calls s;
     ret (Some {| LogSys.m_LogConfig := conf; LogSys.m_pLogger := Some s' |})) w.
Proof.
  revert s w. induction calls as [|c calls IH]; intros s w; [reflexivity|].
  destruct (Sink_log_total (call_env c) (call_msg c) (call_level c) s w)
    as (b & s1 & w1 & Heq & _).
  assert (Hout : LOG_OUT (call_env c) (call_msg c) (call_level c)
                   (Some {| LogSys.m_LogConfig := conf; LogSys.m_pLogger := Some s |}) w
                 = Ok (Some {| LogSys.m_LogConfig := conf; LogSys.m_pLogger := Some s1 |}) w1).
  { unfold LOG_OUT, LogSys.getInstance, LogSys.log. cbn [LogSys.m_pLogger LogSys.m_LogConfig].
    unfold bind. rewrite Heq. reflexivity. }
  cbn [log_outs emits]. rewrite (bind_ok _ _ _ _ _ Hout), IH.
  unfold bind. rewrite Heq. cbv beta iota.
  destruct (emits calls s1 w1) as [[bs s2] w2|e w2]; reflexivity.
Qed.

(** X20. Nothing is lost at shutdown.  After any run of log calls on a
    File sink whose stream is open and good (the lock free, the file taking
    bytes), the destructor of [LogSys] leaves in the file exactly what the
    stream held at the start followed by the messages that passed the
    gate, in order, also those that had not reached the flush threshold;
    no other file changes. *)
Theorem X20_shutdown_writes_everything_out (E : Env) (calls : list Call) (conf : LogConfig)
    (x : FileLogger.t) (w : World) (name : string) :
  fs_file (FileLogger.m_File x) = Some name ->
  FStream.good (FileLogger.m_File x) = true ->
  Forall (healthy name) calls ->
  file_sync_ok E name = true ->
  exists sys w1 w2,
    log_outs calls
      (Some {| LogSys.m_LogConfig := conf; LogSys.m_pLogger := Some (FileSink x) |}) w
    = Ok (Some sys) w1
    /\ LogSys_destructor E sys w1 = Ok tt w2
    /\ World.content w2 name
       = stream_bytes w (FileLogger.m_File x)
         +:+ emitted (Logger.m_Level (FileLogger.base x)) calls
    /\ (forall other, other <> name -> World.content w2 other = World.content w other).
Proof.
  intros Hname Hgood Hcalls Hs.
  destruct (file_emits_healthy calls x w name Hname Hgood Hcalls)
    as (x1 & w1 & Hrun & Hfile & _ & Hbytes & Hother).
  destruct (FileLogger_close_content E x1 w1 name Hfile Hs)
    as (x2 & w2 & Hclose & Hclosed & Hcontent & Hother2).
  exists {| LogSys.m_LogConfig := conf; LogSys.m_pLogger := Some (FileSink x1) |}, w1, w2.
  split; [rewrite log_outs_emits, (bind_ok _ _ _ _ _ Hrun); reflexivity|].
  split.
  - unfold LogSys_destructor. cbn [LogSys.m_pLogger]. unfold Sink.close, Sink.lift.
    unfold bind at 1. unfold bind at 1. rewrite Hclose. cbv beta iota. unfold ret at 1.
    cbv beta iota. unfold Sink.destroy, FileLogger.destroy, FileLogger.close.
    rewrite Hclosed. reflexivity.
  - split.
    + rewrite Hcontent, <- Hbytes. symmetry. apply stream_bytes_open. exact Hfile.
    + intros other Hne. rewrite Hother2, Hother by exact Hne. reflexivity.
Qed.

Lemma X20_shutdown_witness :
  exists sys w1 w2,
    log_outs [mk_Call (all_well jan_15 None) "a" LOG_LEVEL_INFO]
      (Some {| LogSys.m_LogConfig := sample_config 1 2;
               LogSys.m_pLogger := Some sample_file_sink |}) sample_file_world
    = Ok (Some sys) w1
    /\ LogSys_destructor (all_well jan_15 None) sys w1 = Ok tt w2
    /\ World.content w2 "/tmp/log/log" = "" +:+ "" +:+ "a"
    /\ (forall other, other <> "/tmp/log/log" ->
        World.content w2 other = World.content sample_file_world other).
Proof.
  apply (X20_shutdown_writes_everything_out (all_well jan_15 None)
           [mk_Call (all_well jan_15 None) "a" LOG_LEVEL_INFO] (sample_config 1 2)
           {| FileLogger.base := Logger.new LOG_LEVEL_INFO 2;
              FileLogger.m_FilePath := "/tmp/log";
              FileLogger.m_FileBaseName := "log";
              FileLogger.m_FileSuffix := "";
              FileLogger.m_File :=
                {| fs_file := Some "/tmp/log/log"; fs_failbit := false;
                   fs_badbit := false; fs_buffer := "" |};
              FileLogger.m_IsThreadSafe := true |}
           sample_file_world "/tmp/log/log");
    [reflexivity | reflexivity | repeat constructor | reflexivity].
Defined.

(** ** The first message of a new day *)

Lemma inner_for_full_name (E : Env) (r : RollingFileLogger.t) (inner : FileLogger.t) :
  inner_for r (now E) inner -> FileLogger.getFullFileName inner = todays_file E r.
Proof.
  intros (_ & Hp & Hb & Hs & _). unfold todays_file, FileLogger.getFullFileName.
  cbn [FileLogger.new FileLogger.m_FilePath FileLogger.m_FileBaseName FileLogger.m_FileSuffix].
  rewrite Hp, Hb, Hs. reflexivity.
Qed.

(** X21. The first emit of a new day.  The sink has the file of an earlier
    day open; the emit passes the gate with a changed day of the month and
    its rotation succeeds, in a healthy call.  Then it returns true, the
    sink is open on the file of today, whose stream holds what that file
    held and the message, and the file of the earlier day holds what it
    held and what was still buffered for it: the message is in the file of
    today only. *)
Theorem X21_first_emit_of_a_new_day (c : Call) (r : RollingFileLogger.t)
    (inner : FileLogger.t) (w : World) (old_name : string) :
  RollingFileLogger.m_pFileLogger r = Some inner ->
  fs_file (FileLogger.m_File inner) = Some old_name ->
  old_name <> todays_file (call_env c) r ->
  file_sync_ok (call_env c) old_name = true ->
  reopens c r w = true ->
  healthy (todays_file (call_env c) r) c ->
  exists r' inner' w',
    RollingFileLogger.log (call_env c) (call_msg c) (call_level c) r w = Ok (true, r') w'
    /\ RollingFileLogger.m_LastCreatedTime r' = now (call_env c)
    /\ RollingFileLogger.m_pFileLogger r' = Some inner'
    /\ fs_file (FileLogger.m_File inner') = Some (todays_file (call_env c) r)
    /\ stream_bytes w' (FileLogger.m_File inner')
       = World.content w (todays_file (call_env c) r) +:+ call_msg c
    /\ World.content w' old_name
       = World.content w old_name +:+ fs_buffer (FileLogger.m_File inner).
Proof.
  intros Hinner Hold Hdiff Hsync Hre (Hlock & Hw & Hs).
  unfold reopens in Hre.
  apply andb_true_iff in Hre as [Hre Hopens]. apply andb_true_iff in Hre as [Hre Hdue].
  apply andb_true_iff in Hre as [Hlevel _].
  unfold RollingFileLogger.log, Logger.log. rewrite Hlevel.
  pose proof (RollingFileLogger_logImpl_cases (call_env c) (call_msg c) r w) as Hcases.
  rewrite Hlock, Hdue in Hcases. destruct Hcases as (r1 & w1 & Hrot & Heq).
  destruct (rotateFile_total (call_env c) r w)
    as (r1' & inner1 & w1' & Hrot' & _ & Htime & Hinner1 & Hfor & Hok & _).
  rewrite Hrot in Hrot'. injection Hrot' as <- <-. specialize (Hok Hopens).
  destruct (rotateFile_content (call_env c) r inner w old_name Hinner Hold Hsync)
    as (r1' & w1' & Hrot' & Hcontent & Hother).
  rewrite Hrot in Hrot'. injection Hrot' as <- <-.
  pose proof (inner_for_full_name _ _ _ Hfor) as Hfull. rewrite Hfull in Hok.
  assert (Hname1 : fs_file (FileLogger.m_File inner1) = Some (todays_file (call_env c) r))
    by (rewrite Hok; reflexivity).
  assert (Hgood1 : FStream.good (FileLogger.m_File inner1) = true)
    by (rewrite Hok; reflexivity).
  destruct (writeLog_healthy (call_env c) (call_msg c) inner1 w1 _ Hname1 Hgood1 Hw Hs)
    as (inner2 & w2 & Hwrite & _ & Hfile2 & _ & Hbytes & Hother2 & _).
  destruct (FileLogger_logImpl_cases (call_env c) (call_msg c) inner1 w1)
    as [[Hcase _]|(text & _ & Hl & _)]; [|congruence].
  rewrite <- Hcase in Hwrite.
  destruct (forward_to_inner_total (call_env c) (call_msg c) r1 w1)
    as (b & r2 & w3 & Hf & _ & Htime2 & Hcase2).
  rewrite Hinner1 in Hcase2. destruct Hcase2 as (inner3 & Hinner3 & Hlog).
  rewrite Hwrite in Hlog. injection Hlog as <- <- <-.
  exists r2, inner2, w2. rewrite Heq. split; [exact Hf|].
  split; [congruence|]. split; [exact Hinner3|]. split; [exact Hfile2|]. split.
  - rewrite Hbytes, (stream_bytes_open w1 _ _ Hname1), Hok. cbn [fs_buffer].
    rewrite sapp_nil_r, Hother by congruence. reflexivity.
  - rewrite Hother2 by exact Hdiff. exact Hcontent.
Qed.

Lemma X21_first_emit_witness :
  exists r' inner' w',
    RollingFileLogger.log (all_well jan_16 None) "b" LOG_LEVEL_INFO
      sample_rolling sample_rolling_world = Ok (true, r') w'
    /\ RollingFileLogger.m_LastCreatedTime r' = jan_16
    /\ RollingFileLogger.m_pFileLogger r' = Some inner'
    /\ fs_file (FileLogger.m_File inner')
       = Some (todays_file (all_well jan_16 None) sample_rolling)
    /\ stream_bytes w' (FileLogger.m_File inner')
       = World.content sample_rolling_world (todays_file (all_well jan_16 None) sample_rolling)
         +:+ "b"
    /\ World.content w' "/tmp/log/log-2024-01-15"
       = World.content sample_rolling_world "/tmp/log/log-2024-01-15" +:+ "".
Proof.
  apply (X21_first_emit_of_a_new_day
           (mk_Call (all_well jan_16 None) "b" LOG_LEVEL_INFO) sample_rolling
           {| FileLogger.base := Logger.new LOG_LEVEL_INFO 1;
              FileLogger.m_FilePath := "/tmp/log";
              FileLogger.m_FileBaseName := "log-2024-01-15";
              FileLogger.m_FileSuffix := "";
              FileLogger.m_File :=
                {| fs_file := Some "/tmp/log/log-2024-01-15"; fs_failbit := false;
                   fs_badbit := false; fs_buffer := "" |};
              FileLogger.m_IsThreadSafe := false |}
           sample_rolling_world "/tmp/log/log-2024-01-15").
  - reflexivity.
  - reflexivity.
  - vm_compute. discriminate.
  - reflexivity.
  - vm_compute. reflexivity.
  - repeat split.
Defined.
